(** * kafe: the SciPy minimizer adapter and its contour tracers

    A shallow embedding of [kafe/core/minimizers/scipy_optimize_minimizer.py]
    (class [MinimizerScipyOptimize]) and the properties of it that the
    specification states.

    Conventions of the embedding.
    - Python floats are idealised as rationals ([Q]); a decimal literal of
      the source denotes the rational it spells.
    - The object [self] is a record; a method is a computation in a state
      and exception monad whose state pairs the object with the world [W]
      of the cost function.  As in Python, what was written to the object
      before an exception is raised stays written.
    - The cost function handed to the constructor is a state-passing
      function on [W]; every evaluation of it goes through [W], so an
      instrumented cost function (a call counter) observes every call.
    - SciPy, numdifftools and the transcendental part of NumPy are outside
      the repository: they are parameters of the development
      ([opt_minimize], [opt_brentq], [nd_Hessian], [nd_Gradient], [np_sin],
      ...).  They may call the cost function and they may raise.
    - [kafe.core.contour.ContourFactory] is not part of the sources at hand;
      its two constructors are parameters as well. *)

From Stdlib Require Import QArith Qabs Qround ZArith List String Bool Arith Lia.
Import ListNotations.

Set Implicit Arguments.

(** ** Exceptions *)

(** The exception classes that the module can let escape. *)
Inductive exn : Type :=
| NotImplementedError
| ValueError        (* list.index on an absent element; argument errors of NumPy/SciPy *)
| IndexError        (* subscript out of range *)
| TypeError         (* wrong call arity, subscript of None *)
| AssertionError
| LinAlgError       (* numpy.linalg: singular matrix *)
| ZeroDivisionError
| MinimizerScipyOptimizeException.   (* the message is not modelled *)

Definition exn_name (e : exn) : string :=
  (match e with
  | NotImplementedError => "NotImplementedError"
  | ValueError => "ValueError"
  | IndexError => "IndexError"
  | TypeError => "TypeError"
  | AssertionError => "AssertionError"
  | LinAlgError => "LinAlgError"
  | ZeroDivisionError => "ZeroDivisionError"
  | MinimizerScipyOptimizeException => "MinimizerScipyOptimizeException"
  end)%string.

Inductive result (A : Type) : Type :=
| Ok (a : A)
| Raise (e : exn).
Arguments Ok {A} a.
Arguments Raise {A} e.

Definition is_ok {A} (r : result A) : bool :=
  match r with Ok _ => true | Raise _ => false end.

(** ** Python lists *)

Module PyList.

(** [l.index(x)]: position of the first element equal to [x]. *)
Fixpoint index (x : string) (l : list string) : option nat :=
  match l with
  | [] => None
  | y :: l' => if String.eqb y x then Some O
               else option_map S (index x l')
  end.

(** [l[i] = v] for [0 <= i]; [None] stands for IndexError. *)
Fixpoint setitem {A} (l : list A) (i : nat) (v : A) : option (list A) :=
  match l, i with
  | [], _ => None
  | _ :: l', O => Some (v :: l')
  | y :: l', S i' => option_map (cons y) (setitem l' i' v)
  end.

(** [l[-1]]; [None] stands for IndexError. *)
Fixpoint last_item {A} (l : list A) : option A :=
  match l with
  | [] => None
  | [x] => Some x
  | _ :: l' => last_item l'
  end.

(** [enumerate(zip(a, b))], counting from [i]. *)
Fixpoint enumerate_zip {A B} (i : nat) (a : list A) (b : list B)
  : list (nat * (A * B)) :=
  match a, b with
  | x :: a', y :: b' => (i, (x, y)) :: enumerate_zip (S i) a' b'
  | _, _ => []
  end.

End PyList.

(** ** The NumPy operations that are plain arithmetic *)

Local Open Scope Q_scope.

Definition matrix := list (list Q).
Definition point := (Q * Q)%type.

Definition Qgtb (a b : Q) : bool := negb (Qle_bool a b).
Definition Qltb (a b : Q) : bool := negb (Qle_bool b a).
Definition Qgeb (a b : Q) : bool := Qle_bool b a.

Module Np.

(** [numpy.linspace(start, stop, num, endpoint=True)]:
    [arange(num) * step + start] with [step = (stop - start) / (num - 1)],
    the last sample set to [stop]. *)
Definition linspace (start stop : Q) (num : nat) : list Q :=
  match num with
  | O => []
  | S O => [0 * (stop - start) + start]
  | S div =>
      let step := (stop - start) / inject_Z (Z.of_nat div) in
      map (fun i => inject_Z (Z.of_nat i) * step + start) (seq 0 div)
        ++ [stop]
  end.

(** [a += c] on a one-dimensional array. *)
Definition add_scalar (a : list Q) (c : Q) : list Q :=
  map (fun v => v + c) a.

(** [m * c] on a matrix: entry by entry. *)
Definition mat_scale (m : matrix) (c : Q) : matrix :=
  map (map (fun h => h * c)) m.

(** [numpy.diag(m)] of a two-dimensional [m]: the entries [m[i][i]]. *)
Fixpoint diag_from (i : nat) (m : matrix) : list Q :=
  match m with
  | [] => []
  | row :: rest =>
      match nth_error row i with
      | Some v => v :: diag_from (S i) rest
      | None => []
      end
  end.
Definition diag (m : matrix) : list Q := diag_from 0 m.

(** [numpy.zeros((n, n)) - 1]. *)
Definition zeros_minus_one (n : nat) : matrix :=
  repeat (repeat (0 - 1) n) n.

(** [numpy.argmin(a)]: index of the first minimum; ValueError on an
    empty array. *)
Fixpoint argmin_from (best : nat) (vbest : Q) (i : nat) (a : list Q) : nat :=
  match a with
  | [] => best
  | v :: a' => if Qltb v vbest then argmin_from i v (S i) a'
               else argmin_from best vbest (S i) a'
  end.
Definition argmin (a : list Q) : option nat :=
  match a with
  | [] => None
  | v :: a' => Some (argmin_from 0%nat v 1%nat a')
  end.

(** [numpy.where(a >= c, a, c)]. *)
Definition floor_at (c : Q) (a : list Q) : list Q :=
  map (fun v => if Qgeb v c then v else c) a.

End Np.

(** ** What is handed to the solver *)

(** A bound is the pair the caller passed: [(None, None)] is [[None; None]]. *)
Definition bound := list (option Q).

(** A constraint dictionary [dict(type=t, fun=lambda x: x[i] - v)], with or
    without the entry [jac=lambda x: 0.].  The record holds what the
    closure evaluates to when the solver calls it. *)
Record constraint : Type := {
  c_type : string;
  c_index : nat;
  c_target : Q;
  c_jac : bool
}.

Definition eq_constraint (i : nat) (v : Q) : constraint :=
  {| c_type := "eq"%string; c_index := i; c_target := v; c_jac := false |}.

(** [scipy.optimize.OptimizeResult], the two attributes that are read. *)
Record OptimizeResult : Type := {
  res_x : list Q;
  res_fun : Q
}.

(** Keyword arguments of [contour]. *)
Record contour_kwargs : Type := {
  kw_algorithm : option string;
  kw_initial_points : option Z;
  kw_iterations : option Z;
  kw_area_scale_factor : option Q;
  kw_other : list string
}.

Section Minimizer.

(** The world of the cost function and of the libraries, and the type of
    the contours that [ContourFactory] makes. *)
Variable W : Type.
Variable Contour : Type.

(** A library call may raise; the cost function is taken to return a
    number for every argument vector it is given. *)
Definition Ext (A : Type) : Type := W -> result A * W.
Definition cost_function : Type := list Q -> W -> Q * W.

(** What the module imports. *)
Record Libraries : Type := {
  (** [scipy.optimize.minimize(fun, x0, method, bounds, constraints, tol,
      options=dict(maxiter=...))] *)
  opt_minimize :
    cost_function -> list Q -> string -> option (list bound) ->
    list constraint -> Q -> Z -> Ext OptimizeResult;
  (** [scipy.optimize.brentq(f, a, b, maxiter)] *)
  opt_brentq : (Q -> Ext Q) -> Q -> Q -> Z -> Ext Q;
  (** [numdifftools.Hessian(f)(x)], [numdifftools.Gradient(f)(x)] *)
  nd_Hessian : cost_function -> list Q -> Ext matrix;
  nd_Gradient : (list Q -> Ext Q) -> list Q -> Ext (list Q);
  (** [numpy.asmatrix(h).I] *)
  mat_I : matrix -> result matrix;
  np_sqrt : Q -> Q;
  np_sin : Q -> Q;
  np_cos : Q -> Q;
  np_tan : Q -> Q;
  np_arctan : Q -> Q;
  np_arctan2 : Q -> Q -> Q;
  np_pi : Q;
  (** [kafe.core.contour.ContourFactory] *)
  create_grid_contour : list Q -> list Q -> matrix -> Q -> Contour;
  create_xy_contour : list point -> Q -> Contour
}.

Variable lib : Libraries.

(** *** The object *)

(** The attributes of [MinimizerScipyOptimize].  The caches that
    [__init__] sets to None and nothing reads or writes afterwards
    ([_hessian], [_par_cor_mat], [_par_asymm_err_dn], [_par_asymm_err_up],
    [_pars_contour]) are left out. *)
Record MinimizerScipyOptimize : Type := {
  _par_names : list string;
  _par_val : list Q;
  _par_err : list Q;
  _method : string;
  _par_bounds : option (list bound);
  _par_fixed : list bool;
  _par_constraints : list constraint;
  _func_handle : cost_function;
  _err_def : Q;
  _tol : Q;
  _hessian_inv : option matrix;
  _fval : option Q;
  _par_cov_mat : option matrix;
  _opt_result : option OptimizeResult
}.

Definition __init__ (parameter_names : list string)
           (parameter_values parameter_errors : list Q)
           (function_to_minimize : cost_function) (method : string)
  : MinimizerScipyOptimize :=
  {| _par_names := parameter_names;
     _par_val := parameter_values;
     _par_err := parameter_errors;
     _method := method;
     _par_bounds := None;
     _par_fixed := repeat false (List.length parameter_names);
     _par_constraints := [];
     _func_handle := function_to_minimize;
     _err_def := 1;
     _tol := 0.000001;
     _hessian_inv := None;
     _fval := None;
     _par_cov_mat := None;
     _opt_result := None |}.

(** Attribute assignment. *)
Definition set_par_val (v : list Q) (o : MinimizerScipyOptimize) :=
  {| _par_names := _par_names o; _par_val := v; _par_err := _par_err o;
     _method := _method o; _par_bounds := _par_bounds o;
     _par_fixed := _par_fixed o; _par_constraints := _par_constraints o;
     _func_handle := _func_handle o; _err_def := _err_def o; _tol := _tol o;
     _hessian_inv := _hessian_inv o; _fval := _fval o;
     _par_cov_mat := _par_cov_mat o; _opt_result := _opt_result o |}.
Definition set_par_err (v : list Q) (o : MinimizerScipyOptimize) :=
  {| _par_names := _par_names o; _par_val := _par_val o; _par_err := v;
     _method := _method o; _par_bounds := _par_bounds o;
     _par_fixed := _par_fixed o; _par_constraints := _par_constraints o;
     _func_handle := _func_handle o; _err_def := _err_def o; _tol := _tol o;
     _hessian_inv := _hessian_inv o; _fval := _fval o;
     _par_cov_mat := _par_cov_mat o; _opt_result := _opt_result o |}.
Definition set_par_bounds (v : option (list bound)) (o : MinimizerScipyOptimize) :=
  {| _par_names := _par_names o; _par_val := _par_val o; _par_err := _par_err o;
     _method := _method o; _par_bounds := v;
     _par_fixed := _par_fixed o; _par_constraints := _par_constraints o;
     _func_handle := _func_handle o; _err_def := _err_def o; _tol := _tol o;
     _hessian_inv := _hessian_inv o; _fval := _fval o;
     _par_cov_mat := _par_cov_mat o; _opt_result := _opt_result o |}.
Definition set_par_constraints (v : list constraint) (o : MinimizerScipyOptimize) :=
  {| _par_names := _par_names o; _par_val := _par_val o; _par_err := _par_err o;
     _method := _method o; _par_bounds := _par_bounds o;
     _par_fixed := _par_fixed o; _par_constraints := v;
     _func_handle := _func_handle o; _err_def := _err_def o; _tol := _tol o;
     _hessian_inv := _hessian_inv o; _fval := _fval o;
     _par_cov_mat := _par_cov_mat o; _opt_result := _opt_result o |}.
Definition set_err_def (v : Q) (o : MinimizerScipyOptimize) :=
  {| _par_names := _par_names o; _par_val := _par_val o; _par_err := _par_err o;
     _method := _method o; _par_bounds := _par_bounds o;
     _par_fixed := _par_fixed o; _par_constraints := _par_constraints o;
     _func_handle := _func_handle o; _err_def := v; _tol := _tol o;
     _hessian_inv := _hessian_inv o; _fval := _fval o;
     _par_cov_mat := _par_cov_mat o; _opt_result := _opt_result o |}.
Definition set_tol (v : Q) (o : MinimizerScipyOptimize) :=
  {| _par_names := _par_names o; _par_val := _par_val o; _par_err := _par_err o;
     _method := _method o; _par_bounds := _par_bounds o;
     _par_fixed := _par_fixed o; _par_constraints := _par_constraints o;
     _func_handle := _func_handle o; _err_def := _err_def o; _tol := v;
     _hessian_inv := _hessian_inv o; _fval := _fval o;
     _par_cov_mat := _par_cov_mat o; _opt_result := _opt_result o |}.
Definition set_hessian_inv (v : option matrix) (o : MinimizerScipyOptimize) :=
  {| _par_names := _par_names o; _par_val := _par_val o; _par_err := _par_err o;
     _method := _method o; _par_bounds := _par_bounds o;
     _par_fixed := _par_fixed o; _par_constraints := _par_constraints o;
     _func_handle := _func_handle o; _err_def := _err_def o; _tol := _tol o;
     _hessian_inv := v; _fval := _fval o;
     _par_cov_mat := _par_cov_mat o; _opt_result := _opt_result o |}.
Definition set_fval (v : option Q) (o : MinimizerScipyOptimize) :=
  {| _par_names := _par_names o; _par_val := _par_val o; _par_err := _par_err o;
     _method := _method o; _par_bounds := _par_bounds o;
     _par_fixed := _par_fixed o; _par_constraints := _par_constraints o;
     _func_handle := _func_handle o; _err_def := _err_def o; _tol := _tol o;
     _hessian_inv := _hessian_inv o; _fval := v;
     _par_cov_mat := _par_cov_mat o; _opt_result := _opt_result o |}.
Definition set_par_cov_mat (v : option matrix) (o : MinimizerScipyOptimize) :=
  {| _par_names := _par_names o; _par_val := _par_val o; _par_err := _par_err o;
     _method := _method o; _par_bounds := _par_bounds o;
     _par_fixed := _par_fixed o; _par_constraints := _par_constraints o;
     _func_handle := _func_handle o; _err_def := _err_def o; _tol := _tol o;
     _hessian_inv := _hessian_inv o; _fval := _fval o;
     _par_cov_mat := v; _opt_result := _opt_result o |}.
Definition set_opt_result (v : option OptimizeResult) (o : MinimizerScipyOptimize) :=
  {| _par_names := _par_names o; _par_val := _par_val o; _par_err := _par_err o;
     _method := _method o; _par_bounds := _par_bounds o;
     _par_fixed := _par_fixed o; _par_constraints := _par_constraints o;
     _func_handle := _func_handle o; _err_def := _err_def o; _tol := _tol o;
     _hessian_inv := _hessian_inv o; _fval := _fval o;
     _par_cov_mat := _par_cov_mat o; _opt_result := v |}.

(** *** The monad of methods *)

Definition St : Type := (MinimizerScipyOptimize * W)%type.
Definition M (A : Type) : Type := St -> result A * St.

Definition ret {A} (a : A) : M A := fun s => (Ok a, s).
Definition raise {A} (e : exn) : M A := fun s => (Raise e, s).
Definition bind {A B} (c : M A) (k : A -> M B) : M B :=
  fun s => match c s with
           | (Ok a, s') => k a s'
           | (Raise e, s') => (Raise e, s')
           end.
Definition get_self : M MinimizerScipyOptimize := fun s => (Ok (fst s), s).
Definition modify_self (f : MinimizerScipyOptimize -> MinimizerScipyOptimize)
  : M unit := fun s => (Ok tt, (f (fst s), snd s)).
(** A library call: it sees the world, not the object. *)
Definition ext {A} (c : Ext A) : M A :=
  fun s => let (r, w) := c (snd s) in (r, (fst s, w)).
Definition of_result {A} (r : result A) : M A := fun s => (r, s).
Definition of_option {A} (e : exn) (o : option A) : M A :=
  match o with Some a => ret a | None => raise e end.
Definition assert (b : bool) : M unit :=
  if b then ret tt else raise AssertionError.

Notation "x <- c ;; k" := (bind c (fun x => k))
  (at level 61, c at next level, right associativity).
Notation "c ;;; k" := (bind c (fun _ => k))
  (at level 61, right associativity).

Fixpoint mapM {A B} (f : A -> M B) (l : list A) : M (list B) :=
  match l with
  | [] => ret []
  | a :: l' => b <- f a ;; bs <- mapM f l' ;; ret (b :: bs)
  end.

(** A method call made from inside a library callback: the callback gets
    the object as it is when the library is entered. *)
Definition as_callback {A} (self : MinimizerScipyOptimize) (c : M A) : Ext A :=
  fun w => let (r, s) := c (self, w) in (r, snd s).

(** [self._par_names.index(name)]. *)
Definition index_of (name : string) : M nat :=
  self <- get_self ;;
  of_option ValueError (PyList.index name (_par_names self)).

(** [a[i]] for [0 <= i]. *)
Definition getitem {A} (a : list A) (i : nat) : M A :=
  of_option IndexError (nth_error a i).

(** *** The properties of the class *)

(** [_get_opt_result]. *)
Definition _get_opt_result : M OptimizeResult :=
  self <- get_self ;;
  match _opt_result self with
  | None => raise MinimizerScipyOptimizeException
  | Some r => ret r
  end.

Definition errordef : M Q := self <- get_self ;; ret (_err_def self).

Definition errordef_setter (err_def : Q) : M unit :=
  assert (Qgtb err_def 0) ;;;
  modify_self (set_err_def err_def).

Definition tolerance : M Q := self <- get_self ;; ret (_tol self).

Definition tolerance_setter (tol : Q) : M unit :=
  assert (Qgtb tol 0) ;;;
  modify_self (set_tol tol).

Definition cov_mat : M (option matrix) :=
  self <- get_self ;; ret (_par_cov_mat self).

(** The [return] after the first statement is unreachable. *)
Definition cor_mat : M (option matrix) := raise NotImplementedError.

Definition hessian_inv : M (option matrix) :=
  self <- get_self ;; ret (_hessian_inv self).

Definition parameter_values : M (list Q) :=
  self <- get_self ;; ret (_par_val self).

Definition parameter_errors : M (list Q) :=
  self <- get_self ;; ret (_par_err self).

Definition parameter_names : M (list string) :=
  self <- get_self ;; ret (_par_names self).

(** [self._func_handle] applied to the unpacked [args]. *)
Definition _func_wrapper_unpack_args (args : list Q) : M Q :=
  fun s => let (v, w) := _func_handle (fst s) args (snd s) in
           (Ok v, (fst s, w)).

Definition function_value : M Q :=
  self <- get_self ;;
  match _fval self with
  | None =>
      args <- parameter_values ;;
      v <- _func_wrapper_unpack_args args ;;
      modify_self (set_fval (Some v)) ;;;
      ret v
  | Some v => ret v
  end.

(** *** Fixing, releasing, limiting *)

(** The body after the first statement is unreachable:
    [_par_id = self._par_names.index(parameter_name)],
    [self._par_fixed[_par_id] = True]. *)
Definition fix_ (parameter_name : string) : M unit :=
  raise NotImplementedError.

Definition fix_several (parameter_names : list string) : M unit :=
  mapM fix_ parameter_names ;;; ret tt.

(** Unreachable after the first statement:
    [self._par_fixed[_par_id] = False]. *)
Definition release (parameter_name : string) : M unit :=
  raise NotImplementedError.

Definition release_several (parameter_names : list string) : M unit :=
  mapM release parameter_names ;;; ret tt.

Definition limit (parameter_name : string) (parameter_bounds : bound) : M unit :=
  assert (Nat.eqb (List.length parameter_bounds) 2) ;;;
  _par_id <- index_of parameter_name ;;
  self <- get_self ;;
  bs <- match _par_bounds self with
        | None =>
            let unbounded := map (fun _ => [None; None]) (_par_names self) in
            modify_self (set_par_bounds (Some unbounded)) ;;;
            ret unbounded
        | Some bs => ret bs
        end ;;
  bs' <- of_option IndexError (PyList.setitem bs _par_id parameter_bounds) ;;
  modify_self (set_par_bounds (Some bs')).

(** On an object without bounds the subscript assignment to None raises
    TypeError. *)
Definition unlimit (parameter_name : string) : M unit :=
  _par_id <- index_of parameter_name ;;
  self <- get_self ;;
  match _par_bounds self with
  | None => raise TypeError
  | Some bs =>
      bs' <- of_option IndexError (PyList.setitem bs _par_id [None; None]) ;;
      modify_self (set_par_bounds (Some bs'))
  end.

(** *** minimize *)

(** The [for] loop of [minimize].  Each pass over a fixed parameter
    appends [dict(type='eq', fun=lambda x: x[_par_id] - _pv,
    jac=lambda x: 0.)].  A Python closure refers to the variables of the
    enclosing call, not to their values when it was made, and the
    solver calls the closures after the loop: every one of them then
    reads the [_par_id] and [_pv] that the last pass assigned. *)
Definition fixed_constraints (fixed : list bool) (val : list Q)
  : list constraint :=
  let items := PyList.enumerate_zip 0 fixed val in
  match PyList.last_item items with
  | None => []
  | Some (_par_id, (_, _pv)) =>
      map (fun _ => {| c_type := "eq"%string; c_index := _par_id;
                       c_target := _pv; c_jac := true |})
          (filter (fun it => fst (snd it)) items)
  end.

Definition minimize (max_calls : Z) : M unit :=
  self <- get_self ;;
  modify_self (set_par_constraints
                 (fixed_constraints (_par_fixed self) (_par_val self))) ;;;
  self <- get_self ;;
  r <- ext (opt_minimize lib (_func_handle self) (_par_val self) (_method self)
              (_par_bounds self) (_par_constraints self) (_tol self)
              max_calls) ;;
  modify_self (set_opt_result (Some r)) ;;;
  modify_self (set_par_val (res_x r)) ;;;
  self <- get_self ;;
  h <- ext (nd_Hessian lib (_func_handle self) (_par_val self)) ;;
  hi <- of_result (mat_I lib h) ;;
  modify_self (set_hessian_inv (Some hi)) ;;;
  self <- get_self ;;
  (match _hessian_inv self with
   | Some hinv =>
       let cov := Np.mat_scale (Np.mat_scale hinv 2) (_err_def self) in
       modify_self (set_par_cov_mat (Some cov)) ;;;
       modify_self (set_par_err (map (np_sqrt lib) (Np.diag cov)))
   | None => ret tt
   end) ;;;
  modify_self (set_fval (Some (res_fun r))).

(** *** Constrained evaluation and the profile *)

Definition _calc_fun_with_constraints (additional_constraints : list constraint)
  : M Q :=
  self <- get_self ;;
  let _local_constraints := _par_constraints self ++ additional_constraints in
  _result <- ext (opt_minimize lib (_func_handle self) (_par_val self) "slsqp"%string
                    (_par_bounds self) _local_constraints (_tol self) 6000) ;;
  ret (res_fun _result).

(** [profile(parameter_name, bins, bound, args, subtract_min)]; [args] is
    not used by the body.  [_par] has [bins] entries, so the loop over
    [range(bins)] reading [_par[i]] is a loop over [_par]. *)
Definition profile (parameter_name : string) (bins : nat) (bound : Q)
           (subtract_min : bool) : M (list Q * list Q) :=
  _par_id <- index_of parameter_name ;;
  self <- get_self ;;
  _par_err_i <- getitem (_par_err self) _par_id ;;
  _par_min <- getitem (_par_val self) _par_id ;;
  let _par := Np.linspace (_par_min - bound * _par_err_i)
                          (_par_min + bound * _par_err_i) bins in
  _y_offset <- (if subtract_min then function_value else ret 0) ;;
  _y <- mapM (fun p => _calc_fun_with_constraints [eq_constraint _par_id p])
             _par ;;
  self <- get_self ;;
  _func_wrapper_unpack_args (_par_val self) ;;;
  ret (_par, _y).

(** *** The heuristic grid *)

(** [raise MinimizerScipyOptimize(msg)].  The operand calls the class
    itself, not [MinimizerScipyOptimizeException]: [__init__] has four
    required arguments besides [self], so the call with one argument
    raises TypeError, and that is the exception leaving the statement. *)
Definition raise_MinimizerScipyOptimize {A} (msg : string) : M A :=
  raise TypeError.

(** The locals of [_contour_heuristic_grid] when the grid has been laid
    out (line 311). *)
Record grid_setup : Type := {
  gs_initial_points_per_axis : Z;
  gs_target_points_per_axis : Z;
  gs_ids : nat * nat;
  gs_minimum : point;
  gs_err : point;
  gs_x_values : list Q;
  gs_y_values : list Q;
  gs_grid : matrix;
  gs_x_step : Z;
  gs_y_step : Z
}.

(** Lines 290 to 311 of [_contour_heuristic_grid]; [initial_points] and
    [iterations] are the results of [int(...)].  The division of the two
    steps is Python 2's integer division. *)
Definition _contour_heuristic_grid_setup
           (parameter_name_1 parameter_name_2 : string) (sigma : Q)
           (initial_points iterations : Z) (area_scale_factor : Q)
  : M grid_setup :=
  (if (initial_points <? 1)%Z
   then raise_MinimizerScipyOptimize "initial_points must be a >= 1"
   else ret tt) ;;;
  (if (iterations <? 0)%Z
   then raise_MinimizerScipyOptimize "iterations must be a >= 0"
   else ret tt) ;;;
  let _initial_points_per_axis := (1 + initial_points * 2)%Z in
  let _target_points_per_axis :=
    (1 + initial_points * 2 ^ (iterations + 1))%Z in
  i0 <- index_of parameter_name_1 ;;
  i1 <- index_of parameter_name_2 ;;
  self <- get_self ;;
  m0 <- getitem (_par_val self) i0 ;;
  m1 <- getitem (_par_val self) i1 ;;
  e0 <- getitem (_par_err self) i0 ;;
  e1 <- getitem (_par_err self) i1 ;;
  let n := Z.to_nat _target_points_per_axis in
  let _x_values :=
    Np.add_scalar (Np.linspace (- area_scale_factor * sigma * e0)
                               (area_scale_factor * sigma * e0) n) m0 in
  let _y_values :=
    Np.add_scalar (Np.linspace (- area_scale_factor * sigma * e1)
                               (area_scale_factor * sigma * e1) n) m1 in
  ret {| gs_initial_points_per_axis := _initial_points_per_axis;
         gs_target_points_per_axis := _target_points_per_axis;
         gs_ids := (i0, i1);
         gs_minimum := (m0, m1);
         gs_err := (e0, e1);
         gs_x_values := _x_values;
         gs_y_values := _y_values;
         gs_grid := Np.zeros_minus_one n;
         gs_x_step := ((_target_points_per_axis - 1)
                       / (_initial_points_per_axis - 1))%Z;
         gs_y_step := ((_target_points_per_axis - 1)
                       / (_initial_points_per_axis - 1))%Z |}.

(** Lines 313 to 436: the evaluation of the coarse grid, its refinement,
    the cropping and the call of [ContourFactory.create_grid_contour].
    No property below looks into them; they are taken as given. *)
Variable heuristic_grid_refine :
  grid_setup -> Q -> Z -> Q -> M Contour.

Definition _contour_heuristic_grid
           (parameter_name_1 parameter_name_2 : string) (sigma : Q)
           (initial_points iterations : Z) (area_scale_factor : Q)
  : M Contour :=
  gs <- _contour_heuristic_grid_setup parameter_name_1 parameter_name_2
          sigma initial_points iterations area_scale_factor ;;
  heuristic_grid_refine gs sigma iterations area_scale_factor.

(** *** The beacon tracer *)

Definition _transform_coordinates (minimum sigma_coordinates errors : point)
  : point :=
  (fst minimum + fst sigma_coordinates * fst errors,
   snd minimum + snd sigma_coordinates * snd errors).

Definition _transform_contour (minimum : point) (sigma_contour : list point)
           (errors : point) : list point :=
  map (fun _coords => _transform_coordinates minimum _coords errors)
      sigma_contour.

(** A 2 x n array is the list of its n columns. *)
Definition _rotate_clockwise (xy_values : list point) (phi : Q) : list point :=
  map (fun p => (np_cos lib phi * fst p + np_sin lib phi * snd p,
                 - np_sin lib phi * fst p + np_cos lib phi * snd p))
      xy_values.

(** The constraint closures read [self._par_val] and [self._par_err] when
    the solver calls them; the record is filled in just before the call. *)
Definition _calculate_tangential_angle (coords : point) (ids : nat * nat)
  : M Q :=
  self <- get_self ;;
  let _meta_cost_function_gradient := fun pars : list Q =>
    as_callback self
      (self <- get_self ;;
       v0 <- getitem (_par_val self) (fst ids) ;;
       e0 <- getitem (_par_err self) (fst ids) ;;
       p0 <- getitem pars 0 ;;
       v1 <- getitem (_par_val self) (snd ids) ;;
       e1 <- getitem (_par_err self) (snd ids) ;;
       p1 <- getitem pars 1 ;;
       _calc_fun_with_constraints
         [eq_constraint (fst ids) (v0 + e0 * p0);
          eq_constraint (snd ids) (v1 + e1 * p1)]) in
  _grad <- ext (nd_Gradient lib _meta_cost_function_gradient
                  [fst coords; snd coords]) ;;
  g0 <- getitem _grad 0 ;;
  g1 <- getitem _grad 1 ;;
  ret (np_arctan2 lib g0 g1 + np_pi lib / 2).

Definition CONTOUR_ELLIPSE_POINTS : nat := 21.
Definition CONTOUR_STRETCHING : Q := 4.

(** The locals of [_contour_beacon] that the loop only reads. *)
Record beacon_env : Type := {
  _contour_fun : Q;
  _ids : nat * nat;
  _minimum : point;
  _err : point;
  _contour_search_ellipse : list point;
  _stretched_absolute_angles : list Q;
  _curvature_adjustion_factors : list Q;
  _termination_distance : Q;
  _start_point : point
}.

(** The locals that the loop updates. *)
Record beacon_walk_state : Type := {
  _coords : point;
  _phi : Q;
  _curvature_adjustion : Q;
  _loops : nat;
  _contour_coords : list point
}.

(** Lines 480 to 516. *)
Definition _contour_beacon_setup
           (parameter_name_1 parameter_name_2 : string)
           (sigma beacon_size : Q) : M (beacon_env * beacon_walk_state) :=
  fv <- function_value ;;
  let contour_fun := fv + sigma ^ 2 in
  fv_up <- function_value ;;
  let _contour_fun_upper_tolerance := fv_up + (1.2 * sigma) ^ 2 in
  fv_lo <- function_value ;;
  let _contour_fun_lower_tolerance := fv_lo + (0.8 * sigma) ^ 2 in
  i0 <- index_of parameter_name_1 ;;
  i1 <- index_of parameter_name_2 ;;
  self <- get_self ;;
  m0 <- getitem (_par_val self) i0 ;;
  m1 <- getitem (_par_val self) i1 ;;
  e0 <- getitem (_par_err self) i0 ;;
  e1 <- getitem (_par_err self) i1 ;;
  let _unstretched_angles :=
    Np.linspace (- np_pi lib / 2) (np_pi lib / 2) CONTOUR_ELLIPSE_POINTS in
  let search_ellipse :=
    map (fun u => (sigma * beacon_size * np_sin lib u,
                   sigma * CONTOUR_STRETCHING * beacon_size * np_cos lib u))
        _unstretched_angles in
  let stretched_absolute_angles :=
    map (fun u => Qabs (np_arctan lib (np_tan lib u / CONTOUR_STRETCHING)))
        _unstretched_angles in
  let curvature_adjustion_factors :=
    Np.floor_at 0.25
      (map (fun a => 1 + 0.025 * (10 - a * 180 / np_pi lib))
           stretched_absolute_angles) in
  let termination_distance :=
    (sigma * CONTOUR_STRETCHING * beacon_size) ^ 2 in
  let _meta_cost_function := fun z : Q =>
    as_callback self
      (v <- _calc_fun_with_constraints
              [eq_constraint i0 (m0 + e0 * z); eq_constraint i1 m1] ;;
       ret (contour_fun - v)) in
  _start_x <- ext (opt_brentq lib _meta_cost_function 0 (2 * sigma) 1000) ;;
  let start_point := (_start_x, 0.0) in
  phi <- _calculate_tangential_angle start_point (i0, i1) ;;
  ret ({| _contour_fun := contour_fun;
          _ids := (i0, i1);
          _minimum := (m0, m1);
          _err := (e0, e1);
          _contour_search_ellipse := search_ellipse;
          _stretched_absolute_angles := stretched_absolute_angles;
          _curvature_adjustion_factors := curvature_adjustion_factors;
          _termination_distance := termination_distance;
          _start_point := start_point |},
       {| _coords := start_point;
          _phi := phi;
          _curvature_adjustion := 1.0;
          _loops := 0;
          _contour_coords := [start_point] |}).

(** Lines 519 to 531: the candidates on the rotated search ellipse, their
    constrained costs, and the candidate closest to the contour.  The
    ellipse has [CONTOUR_ELLIPSE_POINTS] columns (see
    [beacon_setup_start]), so the loop over
    [range(CONTOUR_ELLIPSE_POINTS)] is a loop over its columns. *)
Definition beacon_select (env : beacon_env) (st : beacon_walk_state)
  : M (nat * point) :=
  let _transformed_search_ellipse :=
    map (fun p => (fst p + fst (_coords st), snd p + snd (_coords st)))
        (_rotate_clockwise
           (map (fun p => (fst p * _curvature_adjustion st,
                           snd p * _curvature_adjustion st))
                (_contour_search_ellipse env))
           (_phi st)) in
  _ellipse_fun_values <-
    mapM (fun _ellipse_coords =>
            let _transformed_coords :=
              _transform_coordinates (_minimum env) _ellipse_coords
                                     (_err env) in
            _calc_fun_with_constraints
              [eq_constraint (fst (_ids env)) (fst _transformed_coords);
               eq_constraint (snd (_ids env)) (snd _transformed_coords)])
         _transformed_search_ellipse ;;
  _min_index <-
    of_option ValueError
      (Np.argmin (map (fun v => Qabs (v - _contour_fun env))
                      _ellipse_fun_values)) ;;
  _new_coords <- getitem _transformed_search_ellipse _min_index ;;
  ret (_min_index, _new_coords).

(** The threshold of line 538, in radians. *)
Definition BACKTRACK_ANGLE : Q := 0.349111.

(** Lines 538 to 542; the [print] of the first branch is not modelled. *)
Definition accept_or_backtrack (env : beacon_env) (_min_index : nat)
           (_new_coords : point) (contour_coords : list point)
  : M (list point) :=
  a <- getitem (_stretched_absolute_angles env) _min_index ;;
  if Qgtb a BACKTRACK_ANGLE
  then ret (removelast contour_coords)
  else ret (contour_coords ++ [_new_coords]).

(** [np.sum((_coords - _start_point) ** 2)]. *)
Definition squared_distance (a b : point) : Q :=
  (fst a - fst b) ^ 2 + (snd a - snd b) ^ 2.

(** One pass through the body of the [while] loop, lines 519 to 555.
    The boolean tells whether the loop goes on. *)
Definition beacon_iteration (env : beacon_env) (st : beacon_walk_state)
  : M (beacon_walk_state * bool) :=
  sel <- beacon_select env st ;;
  let (_min_index, _new_coords) := sel in
  f <- getitem (_curvature_adjustion_factors env) _min_index ;;
  let curvature_adjustion := _curvature_adjustion st * f in
  let curvature_adjustion :=
    if Qgtb curvature_adjustion 1.0 then 1.0 else curvature_adjustion in
  contour_coords <-
    accept_or_backtrack env _min_index _new_coords (_contour_coords st) ;;
  coords <- of_option IndexError (PyList.last_item contour_coords) ;;
  phi <- _calculate_tangential_angle coords (_ids env) ;;
  let st' loops := {| _coords := coords; _phi := phi;
                      _curvature_adjustion := curvature_adjustion;
                      _loops := loops;
                      _contour_coords := contour_coords |} in
  if Qltb (squared_distance coords (_start_point env))
          (_termination_distance env)
     && (10 <? _loops st)%nat
  then ret (st' (_loops st), false)
  else if (_loops st <? 200)%nat
       then ret (st' (_loops st + 1)%nat, true)
       else ret (st' (_loops st), false).

(** The [while True] loop, run for at most [fuel] passes; [None] when the
    passes are used up and the loop has not been left. *)
Fixpoint beacon_walk (fuel : nat) (env : beacon_env) (st : beacon_walk_state)
  : M (option beacon_walk_state) :=
  match fuel with
  | O => ret None
  | S fuel' =>
      r <- beacon_iteration env st ;;
      if snd r then beacon_walk fuel' env (fst r)
      else ret (Some (fst r))
  end.

(** [_contour_beacon]; [fuel] bounds the passes of the loop. *)
Definition _contour_beacon (fuel : nat)
           (parameter_name_1 parameter_name_2 : string)
           (sigma beacon_size : Q) : M (option Contour) :=
  es <- _contour_beacon_setup parameter_name_1 parameter_name_2
          sigma beacon_size ;;
  let (env, st0) := es in
  r <- beacon_walk fuel env st0 ;;
  match r with
  | None => ret None
  | Some st =>
      self <- get_self ;;
      _func_wrapper_unpack_args (_par_val self) ;;;
      ret (Some ((create_xy_contour lib)
                   (_transform_contour (_minimum env) (_contour_coords st)
                                       (_err env))
                   sigma))
  end.

(** The passes that the loop can make at most: see
    [beacon_walk_enough_fuel]. *)
Definition BEACON_MAX_PASSES : nat := 201.

(** *** contour *)

Definition kwargs_left (kw : contour_kwargs) : bool :=
  match kw_initial_points kw, kw_iterations kw, kw_area_scale_factor kw,
        kw_other kw with
  | None, None, None, [] => false
  | _, _, _, _ => true
  end.

Definition default {A} (d : A) (o : option A) : A :=
  match o with Some a => a | None => d end.

(** [contour(parameter_name_1, parameter_name_2, sigma, **kwargs)].  The
    result is [None] only if the beacon loop used up its passes. *)
Definition contour (parameter_name_1 parameter_name_2 : string) (sigma : Q)
           (minimizer_contour_kwargs : contour_kwargs)
  : M (option Contour) :=
  let kw := minimizer_contour_kwargs in
  let _algorithm := default "heuristic_grid"%string (kw_algorithm kw) in
  if String.eqb _algorithm "beacon" then
    if kwargs_left kw then raise MinimizerScipyOptimizeException
    else _contour_beacon BEACON_MAX_PASSES parameter_name_1 parameter_name_2
                         sigma 0.02
  else if String.eqb _algorithm "heuristic_grid" then
    let _initial_points := default 1%Z (kw_initial_points kw) in
    let _iterations := default 5%Z (kw_iterations kw) in
    let _area_scale_factor := default 1.5 (kw_area_scale_factor kw) in
    match kw_other kw with
    | _ :: _ => raise MinimizerScipyOptimizeException
    | [] =>
        c <- _contour_heuristic_grid parameter_name_1 parameter_name_2 sigma
               _initial_points _iterations _area_scale_factor ;;
        ret (Some c)
    end
  else raise MinimizerScipyOptimizeException.

End Minimizer.

Arguments __init__ {W} parameter_names parameter_values parameter_errors
  function_to_minimize method.
Arguments get_self {W}.

(** ** Stand-ins for the libraries

    Small computable versions of what the module imports, to run the
    methods on concrete minimizers.  The world is the number of calls of
    the cost function made so far. *)

Module Doubles.

Definition W : Type := nat.

Inductive Contour : Type :=
| XYContour (xy_points : list point) (sigma : Q)
| GridContour (x_values y_values : list Q) (grid : matrix) (sigma : Q).

(** A cost function that counts its calls. *)
Definition counted (f : list Q -> Q) : cost_function W :=
  fun args w => (f args, S w).

Definition sum_squares (x : list Q) : Q :=
  fold_right (fun v acc => Qred (v * v + acc)) 0 x.

(** [a**2 + b**2] and [a**2 + b**2 + 5]. *)
Definition paraboloid : cost_function W := counted sum_squares.
Definition lifted_paraboloid : cost_function W :=
  counted (fun x => Qred (sum_squares x + 5)).

(** A solver for problems whose minimum over the free parameters is
    attained where [x0] has them: it moves [x0] onto the equality
    constraints and evaluates the cost there, once. *)
Definition pin (x : list Q) (c : constraint) : list Q :=
  match PyList.setitem x (c_index c) (c_target c) with
  | Some x' => x'
  | None => x
  end.

Definition pin_solver (f : cost_function W) (x0 : list Q) (method : string)
           (bounds : option (list bound)) (constraints : list constraint)
           (tol : Q) (maxiter : Z) : Ext W OptimizeResult :=
  fun w => let x := fold_left pin constraints x0 in
           let (v, w') := f x w in
           (Ok {| res_x := x; res_fun := v |}, w').

(** [x] with [d] added to entry [i]. *)
Fixpoint bump (x : list Q) (i : nat) (d : Q) : list Q :=
  match x, i with
  | [], _ => []
  | v :: x', O => Qred (v + d) :: x'
  | v :: x', S i' => v :: bump x' i' d
  end.

(** Central differences with step 1; exact on quadratic functions. *)
Definition gradient_entry (f : list Q -> Ext W Q) (x : list Q) (i : nat)
  : Ext W Q :=
  fun w => match f (bump x i 1) w with
           | (Ok fp, w1) =>
               match f (bump x i (-1)) w1 with
               | (Ok fm, w2) => (Ok (Qred ((fp - fm) / 2)), w2)
               | (Raise e, w2) => (Raise e, w2)
               end
           | (Raise e, w1) => (Raise e, w1)
           end.

Fixpoint ext_map {A B} (f : A -> Ext W B) (l : list A) : Ext W (list B) :=
  fun w => match l with
           | [] => (Ok [], w)
           | a :: l' =>
               match f a w with
               | (Ok b, w1) =>
                   match ext_map f l' w1 with
                   | (Ok bs, w2) => (Ok (b :: bs), w2)
                   | (Raise e, w2) => (Raise e, w2)
                   end
               | (Raise e, w1) => (Raise e, w1)
               end
           end.

Definition central_gradient (f : list Q -> Ext W Q) (x : list Q)
  : Ext W (list Q) :=
  ext_map (gradient_entry f x) (seq 0 (List.length x)).

Definition hessian_entry (f : cost_function W) (x : list Q) (i j : nat)
  : Ext W Q :=
  fun w => let (fpp, w1) := f (bump (bump x i 1) j 1) w in
           let (fpm, w2) := f (bump (bump x i 1) j (-1)) w1 in
           let (fmp, w3) := f (bump (bump x i (-1)) j 1) w2 in
           let (fmm, w4) := f (bump (bump x i (-1)) j (-1)) w3 in
           (Ok (Qred ((fpp - fpm - fmp + fmm) / 4)), w4).

Definition central_hessian (f : cost_function W) (x : list Q) : Ext W matrix :=
  let n := List.length x in
  ext_map (fun i => ext_map (hessian_entry f x i) (seq 0 n)) (seq 0 n).

(** Inverse of a 1 x 1 or 2 x 2 matrix; LinAlgError when it is singular
    (or larger). *)
Definition small_inverse (m : matrix) : result matrix :=
  match m with
  | [[a]] => if Qeq_bool a 0 then Raise LinAlgError else Ok [[Qred (1 / a)]]
  | [[a; b]; [c; d]] =>
      let det := a * d - b * c in
      if Qeq_bool det 0 then Raise LinAlgError
      else Ok [[Qred (d / det); Qred (- b / det)];
               [Qred (- c / det); Qred (a / det)]]
  | _ => Raise LinAlgError
  end.

(** Square root, exact on squares of rationals. *)
Definition sqrt_of_square (q : Q) : Q :=
  let r := Qred q in Z.sqrt (Qnum r) # Pos.sqrt (Qden r).

(** The double nearest to pi. *)
Definition pi_double : Q := 3.141592653589793.

(** Trigonometry, exact at the multiples of a right angle and constant in
    between. *)
Definition quadrant (x : Q) : Z := Qfloor (x / (pi_double / 2)).

Definition sin_axis (x : Q) : Q :=
  match (quadrant x mod 4)%Z with
  | 0%Z => 0 | 1%Z => 1 | 2%Z => 0 | _ => -1
  end.
Definition cos_axis (x : Q) : Q :=
  match (quadrant x mod 4)%Z with
  | 0%Z => 1 | 1%Z => 0 | 2%Z => -1 | _ => 0
  end.
Definition tan_axis (x : Q) : Q := 0.
Definition arctan_axis (x : Q) : Q := 0.
Definition arctan2_axis (y x : Q) : Q :=
  if Qle_bool (Qabs y) (Qabs x)
  then (if Qle_bool 0 x then 0 else pi_double)
  else (if Qle_bool 0 y then pi_double / 2 else - pi_double / 2).

(** Bisection on [[a, b]], [maxiter] halvings at most. *)
Fixpoint bisect (n : nat) (f : Q -> Ext W Q) (a b fa : Q) : Ext W Q :=
  fun w => match n with
           | O => (Ok (Qred ((a + b) / 2)), w)
           | S n' =>
               let mid := Qred ((a + b) / 2) in
               match f mid w with
               | (Ok fm, w1) =>
                   if Qeq_bool fm 0 then (Ok mid, w1)
                   else if Qle_bool 0 (fa * fm) then bisect n' f mid b fm w1
                        else bisect n' f a mid fa w1
               | (Raise e, w1) => (Raise e, w1)
               end
           end.

Definition bisection (f : Q -> Ext W Q) (a b : Q) (maxiter : Z) : Ext W Q :=
  fun w => match f a w with
           | (Ok fa, w1) =>
               match f b w1 with
               | (Ok fb, w2) =>
                   if Qle_bool 0 (fa * fb) && negb (Qeq_bool (fa * fb) 0)
                   then (Raise ValueError, w2)
                   else if Qeq_bool fa 0 then (Ok a, w2)
                   else if Qeq_bool fb 0 then (Ok b, w2)
                   else bisect (Z.to_nat (Z.min maxiter 8)) f a b fa w2
               | (Raise e, w2) => (Raise e, w2)
               end
           | (Raise e, w1) => (Raise e, w1)
           end.

Definition lib : Libraries W Contour :=
  {| opt_minimize := pin_solver;
     opt_brentq := bisection;
     nd_Hessian := central_hessian;
     nd_Gradient := central_gradient;
     mat_I := small_inverse;
     np_sqrt := sqrt_of_square;
     np_sin := sin_axis;
     np_cos := cos_axis;
     np_tan := tan_axis;
     np_arctan := arctan_axis;
     np_arctan2 := arctan2_axis;
     np_pi := pi_double;
     create_grid_contour := GridContour;
     create_xy_contour := XYContour |}.

(** A stand-in for the refinement of the heuristic grid: it hands the
    grid over as laid out. *)
Definition refine (gs : grid_setup) (sigma : Q) (iterations : Z)
           (area_scale_factor : Q) : M W Contour :=
  ret (GridContour (gs_x_values gs) (gs_y_values gs) (gs_grid gs) sigma).

(** Two parameters [a] and [b], at the minimum [(0, 0)] of the paraboloid
    with errors [(1, 1)]. *)
Definition fresh (f : cost_function W) : MinimizerScipyOptimize W :=
  __init__ ["a"; "b"]%string [0; 0] [1; 1] f "slsqp".

End Doubles.

(** ** A walker on the unit circle

    The beacon tracer on the paraboloid with [sigma = 1] and
    [beacon_size = 0.02]: the 1-sigma contour is the unit circle.  The three
    tables are what lines 491 to 497 compute for the 21 angles -90, -81,
    ..., 90 degrees, rounded to six decimals. *)

Module Circle.

Definition search_ellipse : list point :=
  [(-0.02, 0); (-0.019754, 0.012515); (-0.019021, 0.024721);
   (-0.01782, 0.036319); (-0.01618, 0.047023); (-0.014142, 0.056569);
   (-0.011756, 0.064721); (-0.00908, 0.071281); (-0.00618, 0.076085);
   (-0.003129, 0.079015); (0, 0.08); (0.003129, 0.079015);
   (0.00618, 0.076085); (0.00908, 0.071281); (0.011756, 0.064721);
   (0.014142, 0.056569); (0.01618, 0.047023); (0.01782, 0.036319);
   (0.019021, 0.024721); (0.019754, 0.012515); (0.02, 0)].

(** In radians; in degrees 90, 57.64, 37.58, 26.14, 18.99, 14.04, 10.29,
    7.26, 4.64, 2.27, 0 and back. *)
Definition stretched_absolute_angles : list Q :=
  [1.570796; 1.006081; 0.655815; 0.456142; 0.331405; 0.244979; 0.179677;
   0.126699; 0.081052; 0.039575; 0; 0.039575; 0.081052; 0.126699;
   0.179677; 0.244979; 0.331405; 0.456142; 0.655815; 1.006081; 1.570796].

Definition curvature_adjustion_factors : list Q :=
  [0.25; 0.25; 0.310614; 0.596625; 0.775297; 0.899094; 0.992632;
   1.068517; 1.133902; 1.193312; 1.25; 1.193312; 1.133902; 1.068517;
   0.992632; 0.899094; 0.775297; 0.596625; 0.310614; 0.25; 0.25].

Definition env : beacon_env :=
  {| _contour_fun := 1;
     _ids := (0%nat, 1%nat);
     _minimum := (0, 0);
     _err := (1, 1);
     _contour_search_ellipse := search_ellipse;
     _stretched_absolute_angles := stretched_absolute_angles;
     _curvature_adjustion_factors := curvature_adjustion_factors;
     _termination_distance := 0.0064;
     _start_point := (1, 0) |}.

(** The walker on its start point [(1, 0)], heading along the tangent
    there, when the loop counter is [loops]. *)
Definition at_start (loops : nat) : beacon_walk_state :=
  {| _coords := (1, 0);
     _phi := Doubles.pi_double;
     _curvature_adjustion := 1;
     _loops := loops;
     _contour_coords := [(1, 0)] |}.

(** The walker slightly inside the circle, one accepted point after the
    start, where the candidate that lies on the contour is the fourth of
    the 21 (stretched angle 0.456142, about 26.14 degrees). *)
Definition before_turn : beacon_walk_state :=
  {| _coords := (0.98218, 0.036319);
     _phi := Doubles.pi_double;
     _curvature_adjustion := 1;
     _loops := 1;
     _contour_coords := [(1, 0); (0.98218, 0.036319)] |}.

Definition minimizer : MinimizerScipyOptimize Doubles.W :=
  Doubles.fresh Doubles.paraboloid.

End Circle.

(** ** Concrete minimizers *)

Module Runs.

(** A minimizer of [a**2 + b**2 + 5] on which nothing has been called. *)
Definition unfitted : MinimizerScipyOptimize Doubles.W :=
  Doubles.fresh Doubles.lifted_paraboloid.

(** The run of [errordef = 4] and [minimize()] on it, the state it leaves
    (object and count of cost evaluations), and the object in that state.
    These are abbreviations, so that the run appears as such where they
    are used. *)
Abbreviation fit :=
  (bind (errordef_setter 4) (fun _ => minimize Doubles.lib 6000)
        (unfitted, 0%nat)).
Abbreviation fitted_state := (snd fit).
Abbreviation fitted := (fst (snd fit)).

Definition grid_kwargs (initial_points iterations : Z) : contour_kwargs :=
  {| kw_algorithm := None;
     kw_initial_points := Some initial_points;
     kw_iterations := Some iterations;
     kw_area_scale_factor := None;
     kw_other := [] |}.

End Runs.

(** ** The statements of the specification that the code does not keep *)


(** Points per axis as line 299 computes them. *)
Definition target_points_per_axis (initial_points iterations : Z) : Z :=
  (1 + initial_points * 2 ^ (iterations + 1))%Z.

(** An angle in degrees, the way line 496 converts it. *)
Definition degrees {W Contour} (lib : Libraries W Contour) (a : Q) : Q :=
  a * 180 / np_pi lib.

(** The backtracking angle of the specification, in degrees. *)
Definition SPEC_BACKTRACK_DEGREES : Q := 35.

(** The step count after which the specification lets the walk stop near
    its start. *)
Definition SPEC_MIN_STEPS : nat := 10.

(** A caller that calls [fix] and [release] in turn and goes on after each
    exception. *)
Inductive toggle : Type :=
| Fix (parameter_name : string)
| Release (parameter_name : string).

Definition call_toggle {W} (t : toggle) : M W unit :=
  match t with
  | Fix n => fix_ n
  | Release n => release n
  end.

Fixpoint call_toggles {W} (ts : list toggle) (s : St W) : St W :=
  match ts with
  | [] => s
  | t :: ts' => call_toggles ts' (snd (call_toggle t s))
  end.

(** Whether the loop goes on after a pass that started with the counter
    at [loops] and ended on [coords]: lines 549 to 555. *)
Definition goes_on (env : beacon_env) (loops : nat) (coords : point) : bool :=
  negb (Qltb (squared_distance coords (_start_point env))
             (_termination_distance env)
        && (10 <? loops)%nat)
  && (loops <? 200)%nat.

(** A computation leaves the object as it found it, whatever it returns
    or raises. *)
Definition frames {W A} (c : M W A) : Prop :=
  forall s, fst (snd (c s)) = fst s.

(** Entry-wise equality of matrices of rationals. *)
Definition mat_eq (a b : matrix) : Prop := Forall2 (Forall2 Qeq) a b.

Notation "x <- c ;; k" := (bind c (fun x => k))
  (at level 61, c at next level, right associativity).

(** * The rest of the module *)

Unset Implicit Arguments.

(** ** Sequences of limit and unlimit *)

(** A caller that calls [limit] and [unlimit] in turn and goes on after
    each exception. *)
Inductive bound_op : Type :=
| Limit (parameter_name : string) (parameter_bounds : bound)
| Unlimit (parameter_name : string).

Definition call_bound_op {W} (o : bound_op) : M W unit :=
  match o with
  | Limit n b => limit n b
  | Unlimit n => unlimit n
  end.

Fixpoint call_bound_ops {W} (os : list bound_op) (s : St W) : St W :=
  match os with
  | [] => s
  | o :: os' => call_bound_ops os' (snd (call_bound_op o s))
  end.

(** The bounds are absent, or there is one pair for each parameter. *)
Definition bounds_ok {W} (self : MinimizerScipyOptimize W) : Prop :=
  match _par_bounds self with
  | None => True
  | Some bs =>
      List.length bs = List.length (_par_names self)
      /\ Forall (fun b : bound => List.length b = 2%nat) bs
  end.

(** The bounds in force: an object without bounds has every parameter
    unbounded. *)
Definition bounds_in_force {W} (self : MinimizerScipyOptimize W) : list bound :=
  match _par_bounds self with
  | None => map (fun _ => [None; None]) (_par_names self)
  | Some bs => bs
  end.

(** ** More of Python and NumPy *)

Module Py.

(** [range(start, stop, step)] of Python 2: the list of the values
    [start + k * step] short of [stop]; ValueError for a zero step. *)
Definition range (start stop step : Z) : result (list Z) :=
  if (step =? 0)%Z then Raise ValueError
  else
    let count :=
      (if 0 <? step then (stop - start + step - 1) / step
       else (start - stop - step - 1) / (- step))%Z in
    Ok (map (fun k => (start + Z.of_nat k * step)%Z) (seq 0 (Z.to_nat count))).

(** A slice bound brought into [0 .. len], counting from the end when
    negative. *)
Definition slice_bound (len i : Z) : Z :=
  (if i <? 0 then Z.max 0 (i + len) else Z.min i len)%Z.

(** [l[a:b]]. *)
Definition slice {A} (l : list A) (a b : Z) : list A :=
  let len := Z.of_nat (List.length l) in
  let na := Z.to_nat (slice_bound len a) in
  let nb := Z.to_nat (slice_bound len b) in
  firstn (nb - na) (skipn na l).

(** [l[i]] for an integer [i] of either sign; [None] stands for
    IndexError. *)
Definition item {A} (l : list A) (i : Z) : option A :=
  let len := Z.of_nat (List.length l) in
  if (i <? 0)%Z
  then (if (i + len <? 0)%Z then None else nth_error l (Z.to_nat (i + len)))
  else nth_error l (Z.to_nat i).

(** [int(q)] of a float: towards zero. *)
Definition int (q : Q) : Z :=
  if Qle_bool 0 q then Qfloor q else Qceiling q.

(** A Python number: an [int] or a [float]. *)
Inductive number : Type :=
| Int (z : Z)
| Float (q : Q).

Definition value (n : number) : Q :=
  match n with
  | Int z => inject_Z z
  | Float q => q
  end.

(** [a / b] of Python 2 (the module has no
    [from __future__ import division]): the floor of the quotient for two
    ints, the quotient as a float otherwise; ZeroDivisionError for a zero
    divisor. *)
Definition div (a b : number) : result number :=
  match a, b with
  | Int x, Int y =>
      if (y =? 0)%Z then Raise ZeroDivisionError else Ok (Int (x / y))
  | _, _ =>
      if Qeq_bool (value b) 0 then Raise ZeroDivisionError
      else Ok (Float (value a / value b))
  end.

(** [a * b]: an int for two ints, a float otherwise. *)
Definition mul (a b : number) : number :=
  match a, b with
  | Int x, Int y => Int (x * y)
  | _, _ => Float (value a * value b)
  end.

(** [2 ** e] for an int [e]: an int when [e] is not negative, a float
    otherwise. *)
Definition pow2 (e : Z) : number :=
  if (e <? 0)%Z then Float (2 ^ e) else Int (2 ^ e).

(** [max(a, b)]: the first argument unless the second is larger. *)
Definition max (a b : number) : number :=
  if Qltb (value a) (value b) then b else a.

(** [int(x)]: an int as it is, a float towards zero. *)
Definition int_of (n : number) : Z :=
  match n with
  | Int z => z
  | Float q => int q
  end.

End Py.

Module NpReduce.

(** [numpy.max(a)] and [numpy.min(a)]; [None] stands for the ValueError
    on an empty array. *)
Definition amax (a : list Q) : option Q :=
  match a with
  | [] => None
  | v :: a' => Some (fold_left (fun m x => if Qltb m x then x else m) a' v)
  end.

Definition amin (a : list Q) : option Q :=
  match a with
  | [] => None
  | v :: a' => Some (fold_left (fun m x => if Qltb x m then x else m) a' v)
  end.

Definition sum (a : list Q) : Q := fold_right Qplus 0 a.

(** [numpy.mean(a)] of a non-empty array. *)
Definition mean (a : list Q) : Q :=
  sum a / inject_Z (Z.of_nat (List.length a)).

(** [m.T] of a two-dimensional array with [ncols] columns, as the list of
    its columns. *)
Definition transpose (ncols : nat) (m : matrix) : matrix :=
  map (fun j => map (fun row => nth j row 0) m) (seq 0 ncols).

End NpReduce.

(** ** The grid of the legacy walk *)

Definition _get_adjacent_coords (central_coords : Z * Z) : list (Z * Z) :=
  [(fst central_coords, snd central_coords + 1);
   (fst central_coords + 1, snd central_coords);
   (fst central_coords, snd central_coords - 1);
   (fst central_coords - 1, snd central_coords)]%Z.

(** ** The evaluation of a grid point from its neighbours *)

(** [grid[x][y]] for indices in range. *)
Definition grid_entry (grid : matrix) (x y : Z) : Q :=
  nth (Z.to_nat y) (nth (Z.to_nat x) grid []) 0.

(** The four places that [_get_adjacent_grid_points] looks at, in the
    order of its loop. *)
Definition adjacent_places (x_0 y_0 : Z) (vector_1 vector_2 : Z * Z)
  : list (Z * Z) :=
  [(x_0 - fst vector_1, y_0 - snd vector_1);
   (x_0 - fst vector_2, y_0 - snd vector_2);
   (x_0 + fst vector_1, y_0 + snd vector_1);
   (x_0 + fst vector_2, y_0 + snd vector_2)]%Z.

(** The test of line 468, with the sizes of lines 450 and 451. *)
Definition on_grid (grid : matrix) (p : Z * Z) : bool :=
  let _x_size := Z.of_nat (List.length grid) in
  let _y_size := Z.of_nat (List.length (hd [] grid)) in
  ((0 <=? fst p) && (fst p <? _x_size)
   && (0 <=? snd p) && (snd p <? _y_size))%Z.

Definition _get_adjacent_grid_points (grid : matrix) (x_0 y_0 : Z)
           (vector_1 vector_2 : Z * Z) : list Q :=
  map (fun p => grid_entry grid (fst p) (snd p))
      (filter (on_grid grid) (adjacent_places x_0 y_0 vector_1 vector_2)).

(** The value -1 tells the caller to evaluate the point itself. *)
Definition _heuristic_point_evaluation (contour_fun : Q) (grid : matrix)
           (x y : Z) (vector_1 vector_2 : Z * Z) : result Q :=
  let _adjacent_points :=
    _get_adjacent_grid_points grid x y vector_1 vector_2 in
  match NpReduce.amax _adjacent_points with
  | None => Raise ValueError
  | Some mx =>
      if Qltb mx contour_fun then Ok (NpReduce.mean _adjacent_points)
      else
        match NpReduce.amin _adjacent_points with
        | None => Raise ValueError
        | Some mn =>
            if Qgtb mn contour_fun then Ok (NpReduce.mean _adjacent_points)
            else Ok (-1)
        end
  end.

(** ** The cropping of the heuristic grid *)

Definition result_bind {A B} (r : result A) (k : A -> result B) : result B :=
  match r with
  | Ok a => k a
  | Raise e => Raise e
  end.

(** [np.min(_grid[k])]: IndexError for a row that is not there,
    ValueError for a row without entries. *)
Definition row_min (grid : matrix) (k : Z) : result Q :=
  match Py.item grid k with
  | None => Raise IndexError
  | Some row =>
      match NpReduce.amin row with
      | None => Raise ValueError
      | Some m => Ok m
      end
  end.

(** [while k > 0 and np.min(_grid[k]) > _contour_fun: k -= 1], from a
    positive [k]. *)
Fixpoint scan_down (grid : matrix) (_contour_fun : Q) (k : nat) : result Z :=
  match k with
  | O => Ok 0%Z
  | S k' =>
      result_bind (row_min grid (Z.of_nat k))
        (fun m => if Qgtb m _contour_fun
                  then scan_down grid _contour_fun k'
                  else Ok (Z.of_nat k))
  end.

(** [while k < stop and np.min(_grid[k]) > _contour_fun: k += 1], where
    [gap] is [stop - k]. *)
Fixpoint scan_up (grid : matrix) (_contour_fun : Q) (k : Z) (gap : nat)
  : result Z :=
  match gap with
  | O => Ok k
  | S gap' =>
      result_bind (row_min grid k)
        (fun m => if Qgtb m _contour_fun
                  then scan_up grid _contour_fun (k + 1)%Z gap'
                  else Ok k)
  end.

(** Lines 405 to 413, and again lines 418 to 426 on the transposed grid:
    the cut-offs at the high and at the low end of the rows. *)
Definition cutoffs (grid : matrix) (_contour_fun : Q)
           (_target_points_per_axis _padding : Z) : result (Z * Z) :=
  let n1 := (_target_points_per_axis - 1)%Z in
  result_bind
    (if (0 <? n1)%Z then scan_down grid _contour_fun (Z.to_nat n1)
     else Ok n1)
    (fun high =>
       let high := Z.min (high + _padding) n1 in
       result_bind
         (scan_up grid _contour_fun 0%Z (Z.to_nat high))
         (fun low =>
            let low := Z.max (low - _padding) 0 in
            Ok (low, high))).

(** Line 403:
    [int(3 / area_scale_factor * max(1, 2 ** (iterations - 4)))], for an
    [area_scale_factor] that is an int or a float. *)
Definition heuristic_padding (area_scale_factor : Py.number) (iterations : Z)
  : result Z :=
  result_bind (Py.div (Py.Int 3) area_scale_factor)
    (fun d =>
       Ok (Py.int_of
             (Py.mul d (Py.max (Py.Int 1) (Py.pow2 (iterations - 4)))))).

Section MinimizerRest.

Variables W Contour : Type.
Variable lib : Libraries W Contour.

(** Lines 399 to 436 of [_contour_heuristic_grid]: the cropping of the
    refined grid [_grid] and of the two axes, and the result. *)
Definition heuristic_grid_crop (gs : grid_setup) (_grid : matrix)
           (_min_fun _contour_fun sigma : Q) (iterations : Z)
           (area_scale_factor : Py.number) : M W Contour :=
  let n := gs_target_points_per_axis gs in
  _padding <- of_result (heuristic_padding area_scale_factor iterations) ;;
  lr <- of_result (cutoffs _grid _contour_fun n _padding) ;;
  let _left_cutoff := fst lr in
  let _right_cutoff := snd lr in
  let grid1 := Py.slice _grid _left_cutoff _right_cutoff in
  let grid1T := NpReduce.transpose (List.length (hd [] _grid)) grid1 in
  bt <- of_result (cutoffs grid1T _contour_fun n _padding) ;;
  let _bottom_cutoff := fst bt in
  let _top_cutoff := snd bt in
  let grid2T := Py.slice grid1T _bottom_cutoff _top_cutoff in
  let grid2 := NpReduce.transpose (List.length grid1) grid2T in
  let _x_values := Py.slice (gs_x_values gs) _left_cutoff _right_cutoff in
  let _y_values := Py.slice (gs_y_values gs) _bottom_cutoff _top_cutoff in
  let grid3 := map (map (fun v => np_sqrt lib (v - _min_fun))) grid2 in
  self <- get_self ;;
  _ <- _func_wrapper_unpack_args (_par_val self) ;;
  ret (create_grid_contour lib _x_values _y_values grid3 sigma).

End MinimizerRest.

(** ** Invariants of the beacon walk *)



(** ** More concrete minimizers *)

Module Runs2.

(** [a**2]: the Hessian is singular in [b]. *)
Definition ridge : cost_function Doubles.W :=
  Doubles.counted (fun x => Qred (nth 0 x 0 * nth 0 x 0)).

(** A minimizer of the ridge at [(3, 0)] whose function value, 9, has
    been read. *)
Definition stale : MinimizerScipyOptimize Doubles.W :=
  set_fval (Some 9) (__init__ ["a"; "b"]%string [3; 0] [1; 1] ridge "slsqp").

(** The paraboloid with errors of 128 on both parameters: in units of
    the errors its 1-sigma contour is a circle of radius 1/128, well
    inside the distance at which the beacon walk may stop. *)
Definition wide : MinimizerScipyOptimize Doubles.W :=
  __init__ ["a"; "b"]%string [0; 0] [128; 128] Doubles.paraboloid "slsqp".

(** The walker of [Circle] on the start point, heading across the
    contour instead of along it. *)
Definition misaligned : beacon_walk_state :=
  {| _coords := (1, 0);
     _phi := Doubles.pi_double / 2;
     _curvature_adjustion := 1;
     _loops := 0;
     _contour_coords := [(1, 0)] |}.

(** The heuristic grid as laid out for [initial_points = 1],
    [iterations = 1], [area_scale_factor = 1.5] and [sigma = 1] around
    the minimum [(0, 0)] with errors [(1, 1)]: 5 points per axis. *)
Definition laid_out : grid_setup :=
  {| gs_initial_points_per_axis := 3;
     gs_target_points_per_axis := 5;
     gs_ids := (0%nat, 1%nat);
     gs_minimum := (0, 0);
     gs_err := (1, 1);
     gs_x_values := [-1.5; -0.75; 0; 0.75; 1.5];
     gs_y_values := [-1.5; -0.75; 0; 0.75; 1.5];
     gs_grid := Np.zeros_minus_one 5;
     gs_x_step := 2;
     gs_y_step := 2 |}.

(** A 5 x 5 grid whose rows 1 and 2 dip below the level 1. *)
Definition dip : matrix :=
  [[4; 4; 4; 4; 4];
   [4; 2; (1 # 2); 2; 4];
   [4; (1 # 2); 0; (1 # 2); 4];
   [4; 4; 4; 4; 4];
   [4; 4; 4; 4; 4]].

End Runs2.

(** * Properties *)

Unset Implicit Arguments.

Section Facts.

Variables W Contour : Type.
Variable lib : Libraries W Contour.
Variable heuristic_grid_refine :
  grid_setup -> Q -> Z -> Q -> M W Contour.

Implicit Types (s : St W) (self : MinimizerScipyOptimize W) (w : W).

(** ** The monad *)

Lemma bind_ok {A B} {c : M W A} (k : A -> M W B) {s a s'} :
  c s = (Ok a, s') -> bind c k s = k a s'.
Proof. intros E. unfold bind. rewrite E. reflexivity. Qed.

Lemma bind_raise {A B} {c : M W A} (k : A -> M W B) {s e s'} :
  c s = (Raise e, s') -> bind c k s = (Raise e, s').
Proof. intros E. unfold bind. rewrite E. reflexivity. Qed.

Lemma bind_ok_inv {A B} (c : M W A) (k : A -> M W B) s b s2 :
  bind c k s = (Ok b, s2) ->
  exists a s1, c s = (Ok a, s1) /\ k a s1 = (Ok b, s2).
Proof.
  unfold bind. destruct (c s) as [[a | e] s1]; intros E.
  - exists a, s1. split; [reflexivity | exact E].
  - discriminate E.
Qed.

(** ** Computations that leave the object alone *)

Lemma frames_ret {A} (a : A) : frames (ret (W := W) a).
Proof. intros s. reflexivity. Qed.

Lemma frames_raise {A} (e : exn) : frames (raise (W := W) (A := A) e).
Proof. intros s. reflexivity. Qed.

Lemma frames_get_self : frames (get_self (W := W)).
Proof. intros s. reflexivity. Qed.

Lemma frames_ext {A} (c : Ext W A) : frames (ext c).
Proof. intros s. unfold ext. destruct (c (snd s)). reflexivity. Qed.

Lemma frames_of_option {A} (e : exn) (o : option A) :
  frames (of_option (W := W) e o).
Proof. destruct o; intros s; reflexivity. Qed.

Lemma frames_of_result {A} (r : result A) : frames (of_result (W := W) r).
Proof. intros s. reflexivity. Qed.

Lemma frames_bind {A B} (c : M W A) (k : A -> M W B) :
  frames c -> (forall a, frames (k a)) -> frames (bind c k).
Proof.
  intros Hc Hk s. unfold bind. specialize (Hc s).
  destruct (c s) as [[a | e] s1]; simpl in Hc.
  - rewrite Hk. exact Hc.
  - exact Hc.
Qed.

Lemma frames_mapM {A B} (f : A -> M W B) (l : list A) :
  (forall a, frames (f a)) -> frames (mapM f l).
Proof.
  intros Hf. induction l as [| a l IH]; simpl.
  - apply frames_ret.
  - apply frames_bind; [apply Hf | intros b].
    apply frames_bind; [exact IH | intros bs]. apply frames_ret.
Qed.

Lemma frames_func_wrapper (args : list Q) :
  frames (_func_wrapper_unpack_args (W := W) args).
Proof.
  intros s. unfold _func_wrapper_unpack_args.
  destruct (_func_handle (fst s) args (snd s)). reflexivity.
Qed.

Lemma frames_index_of (name : string) : frames (index_of (W := W) name).
Proof.
  unfold index_of. apply frames_bind; [apply frames_get_self | intros self].
  apply frames_of_option.
Qed.

Lemma frames_getitem {A} (a : list A) (i : nat) : frames (getitem (W := W) a i).
Proof. unfold getitem. apply frames_of_option. Qed.

Lemma frames_calc_fun (cs : list constraint) :
  frames (_calc_fun_with_constraints lib cs).
Proof.
  unfold _calc_fun_with_constraints.
  apply frames_bind; [apply frames_get_self | intros self].
  apply frames_bind; [apply frames_ext | intros r]. apply frames_ret.
Qed.

(** Reading [function_value] with a filled cache touches nothing. *)
Lemma function_value_cached self w v :
  _fval self = Some v -> function_value (self, w) = (Ok v, (self, w)).
Proof.
  intros E. unfold function_value, bind, get_self. simpl. rewrite E.
  reflexivity.
Qed.

(** Reading it with an empty cache evaluates the cost function once, at
    the current parameter values, and stores the value. *)
Lemma function_value_empty self w :
  _fval self = None ->
  function_value (self, w)
  = (Ok (fst (_func_handle self (_par_val self) w)),
     (set_fval (Some (fst (_func_handle self (_par_val self) w))) self,
      snd (_func_handle self (_par_val self) w))).
Proof.
  intros E.
  unfold function_value, bind, get_self, parameter_values,
    _func_wrapper_unpack_args, modify_self, ret.
  simpl. rewrite E. simpl.
  destruct (_func_handle self (_par_val self) w) as [v w1]. reflexivity.
Qed.

(** What follows the offset in [profile] leaves the object alone. *)
Lemma frames_profile_scan (_par_id : nat) (_par : list Q) :
  frames (_y <- mapM (fun p => _calc_fun_with_constraints lib
                                 [eq_constraint _par_id p]) _par ;;
          self <- get_self ;;
          _ <- _func_wrapper_unpack_args (_par_val self) ;;
          ret (_par, _y)).
Proof.
  apply frames_bind.
  - apply frames_mapM. intros p. apply frames_calc_fun.
  - intros y. apply frames_bind; [apply frames_get_self | intros self].
    apply frames_bind; [apply frames_func_wrapper | intros v].
    apply frames_ret.
Qed.

Lemma bind_pure {A B} {c : M W A} (k : A -> M W B) {s} {r : result A} :
  c s = (r, s) ->
  bind c k s = match r with Ok a => k a s | Raise e => (Raise e, s) end.
Proof. intros E. unfold bind. rewrite E. destruct r; reflexivity. Qed.

Lemma index_of_run (name : string) s :
  index_of name s
  = (match PyList.index name (_par_names (fst s)) with
     | Some i => Ok i
     | None => Raise ValueError
     end, s).
Proof.
  unfold index_of, bind, get_self, of_option.
  destruct (PyList.index name (_par_names (fst s))); reflexivity.
Qed.

Lemma getitem_run {A} (a : list A) (i : nat) s :
  getitem a i s
  = (match nth_error a i with Some v => Ok v | None => Raise IndexError end,
     s).
Proof. unfold getitem, of_option. destruct (nth_error a i); reflexivity. Qed.

Lemma get_self_run s : get_self s = (Ok (fst s), s).
Proof. reflexivity. Qed.

(** ** The cached function value *)

(** C10.  Reading [function_value] while the cache is empty, as it is from
    construction until the first [minimize], does not raise: the cost
    function is evaluated at the current parameter values, the value is
    stored and returned, and every later read of an object whose cache
    still holds it returns it without evaluating anything. *)
Theorem function_value_before_minimize self w :
  _fval self = None ->
  let v := fst (_func_handle self (_par_val self) w) in
  let w1 := snd (_func_handle self (_par_val self) w) in
  function_value (self, w) = (Ok v, (set_fval (Some v) self, w1))
  /\ _fval (set_fval (Some v) self) = Some v
  /\ forall self2 w2,
       _fval self2 = Some v -> function_value (self2, w2) = (Ok v, (self2, w2)).
Proof.
  intros E v w1. split; [| split].
  - apply function_value_empty. exact E.
  - reflexivity.
  - intros self2 w2 E2. apply function_value_cached. exact E2.
Qed.

(** ** What the evaluations leave alone *)

(** C9, as the code has it.  [_calc_fun_with_constraints] leaves every
    attribute of the object as it was.  So does [profile], but for one
    case: called with [subtract_min] on an object whose function-value
    cache is empty, it may fill the cache with the cost at the current
    parameter values; all other attributes stay as they were. *)
Theorem calc_fun_and_profile_frame
        (cs : list constraint) (name : string) (bins : nat) (bound : Q)
        (subtract_min : bool) self w :
  fst (snd (_calc_fun_with_constraints lib cs (self, w))) = self
  /\ (fst (snd (profile lib name bins bound subtract_min (self, w))) = self
      \/ (subtract_min = true /\ _fval self = None
          /\ fst (snd (profile lib name bins bound subtract_min (self, w)))
             = set_fval (Some (fst (_func_handle self (_par_val self) w)))
                        self)).
Proof.
  split; [apply (frames_calc_fun cs (self, w)) |].
  unfold profile.
  rewrite (bind_pure _ (index_of_run name (self, w))). simpl fst.
  destruct (PyList.index name (_par_names self)) as [i |]; [| left; reflexivity].
  rewrite (bind_pure _ (get_self_run (self, w))). simpl fst.
  rewrite (bind_pure _ (getitem_run (_par_err self) i (self, w))).
  destruct (nth_error (_par_err self) i) as [e |]; [| left; reflexivity].
  rewrite (bind_pure _ (getitem_run (_par_val self) i (self, w))).
  destruct (nth_error (_par_val self) i) as [m |]; [| left; reflexivity].
  destruct subtract_min.
  - destruct (_fval self) as [v |] eqn:Ef.
    + left. rewrite (bind_ok _ (function_value_cached self w _ Ef)).
      apply (frames_profile_scan i _ (self, w)).
    + right. split; [reflexivity | split; [reflexivity |]].
      rewrite (bind_ok _ (function_value_empty self w Ef)).
      apply (frames_profile_scan i _ (_, _)).
  - left. rewrite (bind_ok _ (eq_refl : ret 0 (self, w) = (Ok 0, (self, w)))).
    apply (frames_profile_scan i _ (self, w)).
Qed.

(** ** The offset of the profile *)

(** C3, what the code does.  With a filled cache, [profile] with and
    without [subtract_min] is one and the same computation: the offset is
    read and then not used, so no cost is ever shifted. *)
Theorem profile_subtract_min_not_applied
        (name : string) (bins : nat) (bound : Q) self w v :
  _fval self = Some v ->
  profile lib name bins bound true (self, w)
  = profile lib name bins bound false (self, w).
Proof.
  intros Ef. unfold profile.
  rewrite !(bind_pure _ (index_of_run name (self, w))). simpl fst.
  destruct (PyList.index name (_par_names self)) as [i |]; [| reflexivity].
  rewrite !(bind_pure _ (get_self_run (self, w))). simpl fst.
  rewrite !(bind_pure _ (getitem_run (_par_err self) i (self, w))).
  destruct (nth_error (_par_err self) i) as [e |]; [| reflexivity].
  rewrite !(bind_pure _ (getitem_run (_par_val self) i (self, w))).
  destruct (nth_error (_par_val self) i) as [m |]; [| reflexivity].
  rewrite (bind_ok _ (function_value_cached self w _ Ef)).
  rewrite (bind_ok _ (eq_refl : ret 0 (self, w) = (Ok 0, (self, w)))).
  reflexivity.
Qed.

(** ** fix and release *)

Lemma filter_fixed_none {A} (i n : nat) (val : list A) :
  filter (fun it : nat * (bool * A) => fst (snd it))
         (PyList.enumerate_zip i (repeat false n) val) = [].
Proof.
  revert i val. induction n as [| n IH]; intros i val; simpl.
  - reflexivity.
  - destruct val as [| v val]; simpl; [reflexivity | apply IH].
Qed.

Lemma fixed_constraints_none (n : nat) (val : list Q) :
  fixed_constraints (repeat false n) val = [].
Proof.
  unfold fixed_constraints.
  destruct (PyList.last_item _) as [[i [b v]] |]; [| reflexivity].
  rewrite filter_fixed_none. reflexivity.
Qed.

Lemma call_toggles_id (ts : list toggle) s : call_toggles ts s = s.
Proof.
  induction ts as [| t ts IH]; simpl; [reflexivity |].
  destruct t; simpl; exact IH.
Qed.

(** C2, as the code has it.  [fix] and [release] raise
    NotImplementedError for every name and leave the object as it was.
    So whatever calls of them are made on a newly constructed minimizer,
    no parameter is fixed afterwards and [minimize] builds an empty list
    of equality constraints. *)
Theorem fix_and_release_not_implemented
        (name : string) s (ts : list toggle)
        (names : list string) (values errors : list Q)
        (f : cost_function W) (method : string) w :
  fix_ name s = (Raise NotImplementedError, s)
  /\ release name s = (Raise NotImplementedError, s)
  /\ call_toggles ts s = s
  /\ _par_fixed (fst (call_toggles ts (__init__ names values errors f method, w)))
     = repeat false (List.length names)
  /\ fixed_constraints
       (_par_fixed (fst (call_toggles ts (__init__ names values errors f method, w))))
       (_par_val (fst (call_toggles ts (__init__ names values errors f method, w))))
     = [].
Proof.
  repeat split; try reflexivity.
  - apply call_toggles_id.
  - rewrite call_toggles_id. reflexivity.
  - rewrite call_toggles_id. simpl. apply fixed_constraints_none.
Qed.

(** ** Names that are not parameters *)

Lemma function_value_total s :
  exists v s', function_value s = (Ok v, s')
               /\ _par_names (fst s') = _par_names (fst s).
Proof.
  destruct s as [self w]. destruct (_fval self) as [v |] eqn:Ef.
  - exists v, (self, w). split; [apply function_value_cached; exact Ef |].
    reflexivity.
  - eexists. eexists. split; [apply function_value_empty; exact Ef |].
    reflexivity.
Qed.

Lemma index_of_unknown (name : string) s :
  PyList.index name (_par_names (fst s)) = None ->
  index_of name s = (Raise ValueError, s).
Proof. intros E. rewrite index_of_run, E. reflexivity. Qed.

Lemma index_of_pair_unknown {A} (p1 p2 name : string)
      (k : nat -> nat -> M W A) s :
  PyList.index name (_par_names (fst s)) = None ->
  p1 = name \/ p2 = name ->
  (i0 <- index_of p1 ;; i1 <- index_of p2 ;; k i0 i1) s
  = (Raise ValueError, s).
Proof.
  intros E Hn. rewrite (bind_pure _ (index_of_run p1 s)).
  destruct (PyList.index p1 (_par_names (fst s))) as [i0 |] eqn:E1;
    [| reflexivity].
  destruct Hn as [-> | ->]; [congruence |].
  apply bind_raise. apply index_of_unknown. exact E.
Qed.

Lemma heuristic_grid_unknown_name
      (p1 p2 name : string) (sigma : Q) (ip it : Z) (asf : Q) s :
  PyList.index name (_par_names (fst s)) = None ->
  p1 = name \/ p2 = name ->
  _contour_heuristic_grid heuristic_grid_refine p1 p2 sigma ip it asf s
  = (Raise (if (ip <? 1)%Z || (it <? 0)%Z then TypeError else ValueError), s).
Proof.
  intros E Hn. unfold _contour_heuristic_grid.
  apply bind_raise. unfold _contour_heuristic_grid_setup.
  destruct (ip <? 1)%Z; [reflexivity |].
  rewrite (bind_ok _ (eq_refl : ret tt s = (Ok tt, s))).
  destruct (it <? 0)%Z; [reflexivity |].
  rewrite (bind_ok _ (eq_refl : ret tt s = (Ok tt, s))).
  simpl orb. cbv iota.
  apply (index_of_pair_unknown p1 p2 name); assumption.
Qed.

Lemma beacon_unknown_name
      (fuel : nat) (p1 p2 name : string) (sigma beacon_size : Q) s :
  PyList.index name (_par_names (fst s)) = None ->
  p1 = name \/ p2 = name ->
  fst (_contour_beacon lib fuel p1 p2 sigma beacon_size s) = Raise ValueError.
Proof.
  intros E Hn. unfold _contour_beacon.
  destruct (function_value_total s) as (v1 & s1 & R1 & N1).
  destruct (function_value_total s1) as (v2 & s2 & R2 & N2).
  destruct (function_value_total s2) as (v3 & s3 & R3 & N3).
  assert (E3 : PyList.index name (_par_names (fst s3)) = None)
    by (rewrite N3, N2, N1; exact E).
  erewrite bind_raise; [reflexivity |].
  unfold _contour_beacon_setup.
  rewrite (bind_ok _ R1), (bind_ok _ R2), (bind_ok _ R3).
  apply (index_of_pair_unknown p1 p2 name); assumption.
Qed.

(** C8, as the code has it.  A name that is not in the parameter set
    never passes silently, but no UnknownParameterError exists: [fix] and
    [release] raise NotImplementedError (as for every name), [limit]
    raises ValueError from the list lookup once its assertion on the
    bounds has passed (AssertionError otherwise), [unlimit] and [profile]
    raise ValueError, and [contour] raises ValueError unless one of its
    argument checks raised before the lookup. *)
Theorem unknown_name_raises
        (name other : string) (parameter_bounds : bound) (bins : nat)
        (bound_ sigma : Q) (subtract_min : bool) (kw : contour_kwargs)
        self w :
  PyList.index name (_par_names self) = None ->
  fix_ name (self, w) = (Raise NotImplementedError, (self, w))
  /\ release name (self, w) = (Raise NotImplementedError, (self, w))
  /\ limit name parameter_bounds (self, w)
     = (Raise (if Nat.eqb (List.length parameter_bounds) 2
               then ValueError else AssertionError), (self, w))
  /\ unlimit name (self, w) = (Raise ValueError, (self, w))
  /\ profile lib name bins bound_ subtract_min (self, w)
     = (Raise ValueError, (self, w))
  /\ (forall p1 p2, p1 = name \/ p2 = name ->
      exists e,
        fst (contour lib heuristic_grid_refine p1 p2 sigma kw (self, w))
        = Raise e
        /\ (e = ValueError \/ e = TypeError
            \/ e = MinimizerScipyOptimizeException)).
Proof.
  intros E. repeat split.
  - unfold limit, assert.
    destruct (Nat.eqb (List.length parameter_bounds) 2); [| reflexivity].
    rewrite (bind_ok _ (eq_refl : ret tt (self, w) = (Ok tt, (self, w)))).
    apply bind_raise. apply index_of_unknown. exact E.
  - unfold unlimit. apply bind_raise. apply index_of_unknown. exact E.
  - unfold profile. apply bind_raise. apply index_of_unknown. exact E.
  - intros p1 p2 Hn. unfold contour.
    destruct (String.eqb _ "beacon").
    + destruct (kwargs_left kw).
      * exists MinimizerScipyOptimizeException. split; [reflexivity | tauto].
      * exists ValueError. split; [| tauto].
        apply (beacon_unknown_name _ p1 p2 name); assumption.
    + destruct (String.eqb _ "heuristic_grid").
      * destruct (kw_other kw).
        -- eexists. split.
           ++ erewrite bind_raise; [reflexivity |].
              apply (heuristic_grid_unknown_name p1 p2 name); assumption.
           ++ destruct (_ || _); tauto.
        -- exists MinimizerScipyOptimizeException. split; [reflexivity | tauto].
      * exists MinimizerScipyOptimizeException. split; [reflexivity | tauto].
Qed.

(** ** Validation in the heuristic grid *)

Lemma heuristic_grid_validation
      (p1 p2 : string) (sigma : Q) (initial_points iterations : Z)
      (area_scale_factor : Q) s :
  (initial_points < 1 \/ iterations < 0)%Z ->
  _contour_heuristic_grid heuristic_grid_refine p1 p2 sigma
                          initial_points iterations area_scale_factor s
  = (Raise TypeError, s).
Proof.
  intros H.
  unfold _contour_heuristic_grid. apply bind_raise.
  unfold _contour_heuristic_grid_setup.
  destruct (Z.ltb_spec initial_points 1) as [H1 | H1]; [reflexivity |].
  rewrite (bind_ok _ (eq_refl : ret tt s = (Ok tt, s))).
  destruct (Z.ltb_spec iterations 0) as [H2 | H2]; [reflexivity | lia].
Qed.

(** C4, what the code does.  With [initial_points < 1] or
    [iterations < 0] the tracer stops before anything is evaluated (the
    object and the world are as they were), but the exception is the
    TypeError of calling the class [MinimizerScipyOptimize] with one
    argument, not [MinimizerScipyOptimizeException]. *)
Theorem heuristic_grid_invalid_arguments
        (p1 p2 : string) (sigma : Q) (initial_points iterations : Z)
        (area_scale_factor : Q) s :
  (initial_points < 1 \/ iterations < 0)%Z ->
  _contour_heuristic_grid heuristic_grid_refine p1 p2 sigma
                          initial_points iterations area_scale_factor s
  = (Raise TypeError, s)
  /\ exn_name TypeError <> exn_name MinimizerScipyOptimizeException.
Proof.
  intros H. split; [| discriminate].
  apply heuristic_grid_validation. exact H.
Qed.

(** The same through [contour], when the heuristic grid is chosen and no
    other keyword is given. *)
Lemma contour_invalid_arguments_raise
      (p1 p2 : string) (sigma : Q) (kw : contour_kwargs) s :
  kw_algorithm kw = None \/ kw_algorithm kw = Some "heuristic_grid"%string ->
  kw_other kw = [] ->
  (default 1 (kw_initial_points kw) < 1
   \/ default 5 (kw_iterations kw) < 0)%Z ->
  contour lib heuristic_grid_refine p1 p2 sigma kw s = (Raise TypeError, s).
Proof.
  intros Ha Ho Hv. unfold contour.
  assert (E : default "heuristic_grid"%string (kw_algorithm kw)
              = "heuristic_grid"%string)
    by (destruct Ha as [-> | ->]; reflexivity).
  rewrite E, Ho. cbn [String.eqb Ascii.eqb Bool.eqb].
  apply bind_raise.
  apply heuristic_grid_validation. exact Hv.
Qed.

(** ** The layout of the heuristic grid *)

Lemma linspace_length (a b : Q) (n : nat) :
  List.length (Np.linspace a b n) = n.
Proof.
  destruct n as [| [| d]]; [reflexivity | reflexivity |].
  unfold Np.linspace. rewrite length_app, length_map, length_seq.
  simpl. lia.
Qed.









(** ** minimize *)

Lemma errordef_setter_run (err_def : Q) self w :
  0 < err_def ->
  errordef_setter err_def (self, w) = (Ok tt, (set_err_def err_def self, w)).
Proof.
  intros H. unfold errordef_setter, assert, Qgtb.
  destruct (Qle_bool err_def 0) eqn:E.
  - apply Qle_bool_iff in E. exfalso. exact (Qlt_not_le _ _ H E).
  - reflexivity.
Qed.

(** [minimize], outcome by outcome of the three library calls. *)
Lemma minimize_run (max_calls : Z) self w :
  let cs := fixed_constraints (_par_fixed self) (_par_val self) in
  let self1 := set_par_constraints cs self in
  minimize lib max_calls (self, w)
  = match opt_minimize lib (_func_handle self) (_par_val self) (_method self)
            (_par_bounds self) cs (_tol self) max_calls w with
    | (Raise e, w1) => (Raise e, (self1, w1))
    | (Ok r, w1) =>
        let self2 := set_par_val (res_x r) (set_opt_result (Some r) self1) in
        match nd_Hessian lib (_func_handle self) (res_x r) w1 with
        | (Raise e, w2) => (Raise e, (self2, w2))
        | (Ok h, w2) =>
            match mat_I lib h with
            | Raise e => (Raise e, (self2, w2))
            | Ok hinv =>
                let cov := Np.mat_scale (Np.mat_scale hinv 2) (_err_def self) in
                (Ok tt,
                 (set_fval (Some (res_fun r))
                    (set_par_err (map (np_sqrt lib) (Np.diag cov))
                       (set_par_cov_mat (Some cov)
                          (set_hessian_inv (Some hinv) self2))),
                  w2))
            end
        end
    end.
Proof.
  intros cs self1.
  unfold minimize, bind, get_self, modify_self, ext, of_result. simpl.
  fold cs.
  destruct (opt_minimize lib _ _ _ _ _ _ _ w) as [[r | e] w1]; simpl;
    [| reflexivity].
  destruct (nd_Hessian lib _ _ w1) as [[h | e] w2]; simpl; [| reflexivity].
  destruct (mat_I lib h) as [hinv | e]; simpl; reflexivity.
Qed.

Lemma mat_scale_twice (m : matrix) (e : Q) :
  mat_eq (Np.mat_scale (Np.mat_scale m 2) e)
         (map (map (fun h => 2 * e * h)) m).
Proof.
  unfold mat_eq, Np.mat_scale.
  induction m as [| row m IH]; simpl; constructor; [| exact IH].
  clear IH. induction row as [| h row IH]; simpl; constructor; [| exact IH].
  ring.
Qed.

(** The diagonal of a square matrix, entry by entry. *)
Lemma diag_from_square (n : nat) (m : matrix) (k : nat) :
  Forall (fun row : list Q => List.length row = n) m ->
  (k + List.length m <= n)%nat ->
  List.length (Np.diag_from k m) = List.length m
  /\ forall i, (i < List.length m)%nat ->
       exists (row : list Q) (c : Q),
         nth_error m i = Some row
         /\ nth_error row (k + i) = Some c
         /\ nth_error (Np.diag_from k m) i = Some c.
Proof.
  revert k. induction m as [| row m IH]; intros k Hall Hk.
  - split; [reflexivity | intros i Hi; inversion Hi].
  - inversion Hall as [| ? ? Hrow Hrest]; subst.
    simpl List.length in Hk. simpl Np.diag_from.
    destruct (nth_error row k) as [v |] eqn:Ek.
    + destruct (IH (S k) Hrest) as [Hlen Hent]; [lia |].
      split; [simpl; rewrite Hlen; reflexivity |].
      intros [| i] Hi.
      * exists row, v. rewrite Nat.add_0_r. repeat split. exact Ek.
      * destruct (Hent i) as (row' & c & Hr & Hc & Hd);
          [simpl in Hi; lia |].
        exists row', c. replace (k + S i)%nat with (S k + i)%nat by lia.
        repeat split; assumption.
    + apply nth_error_None in Ek. lia.
Qed.

Lemma mat_scale_entry (m : matrix) (c : Q) (i j : nat) :
  option_map (fun row => nth_error row j) (nth_error (Np.mat_scale m c) i)
  = option_map (fun row => option_map (fun h => h * c) (nth_error row j))
               (nth_error m i).
Proof.
  unfold Np.mat_scale. rewrite nth_error_map.
  destruct (nth_error m i) as [row |]; [| reflexivity].
  simpl. rewrite nth_error_map. reflexivity.
Qed.

Lemma mat_scale_shape (m : matrix) (c : Q) (n : nat) :
  Forall (fun row : list Q => List.length row = n) m ->
  List.length (Np.mat_scale m c) = List.length m
  /\ Forall (fun row : list Q => List.length row = n) (Np.mat_scale m c).
Proof.
  intros H. unfold Np.mat_scale. split; [apply length_map |].
  induction H as [| row m Hrow Hm IH]; simpl; constructor;
    [rewrite length_map; exact Hrow | exact IH].
Qed.

(** C1.  After [errordef] has been set to a positive value and
    [minimize] has returned: the solver was called on the cost function
    from the parameter values of before the call and returned [r]; the
    stored optimum is [r.x]; the stored inverse Hessian is the inverse of
    the Hessian that numdifftools estimated at [r.x]; the stored
    covariance matrix is 2 x errordef x that inverse, entry by entry; and
    the stored errors are the square roots of the diagonal of the stored
    covariance matrix: for an inverse Hessian of n rows and n columns
    there are n errors, the i-th being the square root of the entry
    [(i, i)] of the covariance, which is 2 x errordef x the entry
    [(i, i)] of the inverse Hessian. *)
Theorem minimize_covariance (err_def : Q) (max_calls : Z) self w self' w' :
  0 < err_def ->
  (u <- errordef_setter err_def ;; minimize lib max_calls) (self, w)
  = (Ok tt, (self', w')) ->
  exists (r : OptimizeResult) (w1 : W) (h hinv cov : matrix),
    opt_minimize lib (_func_handle self) (_par_val self) (_method self)
                 (_par_bounds self)
                 (fixed_constraints (_par_fixed self) (_par_val self))
                 (_tol self) max_calls w
    = (Ok r, w1)
    /\ _opt_result self' = Some r
    /\ _par_val self' = res_x r
    /\ nd_Hessian lib (_func_handle self) (res_x r) w1 = (Ok h, w')
    /\ nd_Hessian lib (_func_handle self') (_par_val self') w1 = (Ok h, w')
    /\ mat_I lib h = Ok hinv
    /\ _hessian_inv self' = Some hinv
    /\ _par_cov_mat self' = Some cov
    /\ _err_def self' = err_def
    /\ mat_eq cov (map (map (fun x => 2 * err_def * x)) hinv)
    /\ _par_err self' = map (np_sqrt lib) (Np.diag cov)
    /\ forall n : nat,
         List.length hinv = n ->
         Forall (fun row : list Q => List.length row = n) hinv ->
         List.length (_par_err self') = n
         /\ forall i : nat, (i < n)%nat ->
              exists (hrow crow : list Q) (x c : Q),
                nth_error hinv i = Some hrow
                /\ nth_error hrow i = Some x
                /\ nth_error cov i = Some crow
                /\ nth_error crow i = Some c
                /\ c == 2 * err_def * x
                /\ nth_error (_par_err self') i = Some (np_sqrt lib c).
Proof.
  intros Hpos Hrun.
  rewrite (bind_ok _ (errordef_setter_run err_def self w Hpos)) in Hrun.
  rewrite minimize_run in Hrun. cbv zeta in Hrun.
  cbn [_func_handle _par_val _method _par_bounds _par_fixed _tol _err_def
       set_err_def] in Hrun.
  destruct (opt_minimize lib _ _ _ _ _ _ _ w) as [[r | e] w1] eqn:Eo;
    [| discriminate Hrun].
  destruct (nd_Hessian lib _ _ w1) as [[h | e] w2] eqn:Eh;
    [| discriminate Hrun].
  destruct (mat_I lib h) as [hinv | e] eqn:Ei; [| discriminate Hrun].
  injection Hrun as <- <-.
  exists r, w1, h, hinv. eexists.
  split; [reflexivity |].
  split; [reflexivity |].
  split; [reflexivity |].
  split; [exact Eh |].
  split; [exact Eh |].
  split; [exact Ei |].
  split; [reflexivity |].
  split; [reflexivity |].
  split; [reflexivity |].
  split; [apply mat_scale_twice |].
  split; [reflexivity |].
  intros n Hlen Hall.
  set (cov := Np.mat_scale (Np.mat_scale hinv 2) err_def).
  assert (Hshape : List.length cov = n
                   /\ Forall (fun row : list Q => List.length row = n) cov).
  { destruct (mat_scale_shape hinv 2 n Hall) as [L1 F1].
    destruct (mat_scale_shape (Np.mat_scale hinv 2) err_def n F1)
      as [L2 F2].
    unfold cov. split; [congruence | exact F2]. }
  destruct Hshape as [Lc Fc].
  destruct (diag_from_square n cov 0 Fc) as [Hdl Hde]; [lia |].
  cbn [_par_err set_fval set_par_err]. fold cov.
  split; [rewrite length_map; unfold Np.diag; rewrite Hdl; exact Lc |].
  intros i Hi.
  destruct (Hde i) as (crow & c & Hcr & Hcc & Hd); [lia |].
  simpl Nat.add in Hcc.
  pose proof (mat_scale_entry (Np.mat_scale hinv 2) err_def i i) as E1.
  fold cov in E1. rewrite Hcr in E1. simpl in E1. rewrite Hcc in E1.
  destruct (nth_error (Np.mat_scale hinv 2) i) as [row2 |] eqn:E2;
    [| discriminate E1].
  simpl in E1.
  destruct (nth_error row2 i) as [y |] eqn:E3; [| discriminate E1].
  simpl in E1. injection E1 as ->.
  pose proof (mat_scale_entry hinv 2 i i) as E4.
  rewrite E2 in E4. simpl in E4. rewrite E3 in E4.
  destruct (nth_error hinv i) as [hrow |] eqn:E5; [| discriminate E4].
  simpl in E4.
  destruct (nth_error hrow i) as [x |] eqn:E6; [| discriminate E4].
  simpl in E4. injection E4 as ->.
  exists hrow, crow, x, (x * 2 * err_def).
  split; [reflexivity |].
  split; [exact E6 |].
  split; [exact Hcr |].
  split; [exact Hcc |].
  split; [ring |].
  rewrite nth_error_map. unfold Np.diag. rewrite Hd. reflexivity.
Qed.

(** ** The beacon walk *)

Lemma Qltb_lt (a b : Q) : Qltb a b = true <-> a < b.
Proof.
  unfold Qltb. rewrite negb_true_iff. split; intros H.
  - apply Qnot_le_lt. intros Hle. apply Qle_bool_iff in Hle. congruence.
  - destruct (Qle_bool b a) eqn:E; [| reflexivity].
    apply Qle_bool_iff in E. exfalso. exact (Qlt_not_le _ _ H E).
Qed.

Lemma Qgtb_lt (a b : Q) : Qgtb a b = true <-> b < a.
Proof. apply Qltb_lt. Qed.

Lemma Qgtb_le (a b : Q) : Qgtb a b = false <-> a <= b.
Proof.
  unfold Qgtb. rewrite negb_false_iff. apply Qle_bool_iff.
Qed.

(** A pass of the loop that returns, taken apart. *)
Lemma beacon_iteration_inv (env : beacon_env) (st st' : beacon_walk_state)
      (go : bool) s s' :
  beacon_iteration lib env st s = (Ok (st', go), s') ->
  exists (i : nat) (p : point) (a : Q) s1,
    beacon_select lib env st s = (Ok (i, p), s1)
    /\ nth_error (_stretched_absolute_angles env) i = Some a
    /\ _contour_coords st'
       = (if Qgtb a BACKTRACK_ANGLE then removelast (_contour_coords st)
          else _contour_coords st ++ [p])
    /\ PyList.last_item (_contour_coords st') = Some (_coords st')
    /\ go = goes_on env (_loops st) (_coords st')
    /\ _loops st' = (if go then S (_loops st) else _loops st).
Proof.
  unfold beacon_iteration. intros H.
  apply bind_ok_inv in H as ([i p] & s1 & Hsel & H).
  apply bind_ok_inv in H as (f & s2 & Hf & H).
  apply bind_ok_inv in H as (cc & s3 & Hacc & H).
  apply bind_ok_inv in H as (coords & s4 & Hlast & H).
  apply bind_ok_inv in H as (phi & s5 & Hphi & H).
  unfold accept_or_backtrack in Hacc.
  apply bind_ok_inv in Hacc as (a & s2' & Ha & Hacc).
  rewrite getitem_run in Ha.
  destruct (nth_error (_stretched_absolute_angles env) i) as [a' |] eqn:Ea;
    [| discriminate Ha].
  injection Ha as -> <-.
  assert (Hcc : cc = if Qgtb a BACKTRACK_ANGLE
                     then removelast (_contour_coords st)
                     else _contour_coords st ++ [p]).
  { destruct (Qgtb a BACKTRACK_ANGLE); injection Hacc as <- _; reflexivity. }
  assert (Hl : PyList.last_item cc = Some coords).
  { unfold of_option in Hlast.
    destruct (PyList.last_item cc); [| discriminate Hlast].
    injection Hlast as -> _. reflexivity. }
  exists i, p, a, s1. unfold goes_on.
  destruct (Qltb _ _ && (10 <? _loops st)%nat) eqn:E1.
  - injection H as <- <- _. simpl. rewrite <- Hcc, E1.
    simpl. repeat split; auto.
  - destruct (_loops st <? 200)%nat eqn:E2.
    + injection H as <- <- _. simpl. rewrite <- Hcc, E1, Nat.add_1_r.
      simpl. repeat split; auto.
    + injection H as <- <- _. simpl. rewrite <- Hcc, E1.
      simpl. repeat split; auto.
Qed.

Lemma goes_on_false (env : beacon_env) (loops : nat) (coords : point) :
  goes_on env loops coords = false
  <-> (squared_distance coords (_start_point env) < _termination_distance env
       /\ (10 < loops)%nat)
      \/ (200 <= loops)%nat.
Proof.
  unfold goes_on.
  rewrite andb_false_iff, negb_false_iff, andb_true_iff, Qltb_lt,
    Nat.ltb_lt, Nat.ltb_ge.
  reflexivity.
Qed.

(** With one pass more than the counter lacks to 200 the loop is left. *)
Lemma beacon_walk_enough_fuel (n : nat) :
  forall (env : beacon_env) (st : beacon_walk_state) s,
    (200 - _loops st <= n)%nat ->
    fst (beacon_walk lib (S n) env st s) <> Ok None.
Proof.
  induction n as [| n IH]; intros env st s Hn;
    change (beacon_walk lib (S ?m) env st s)
      with ((r <- beacon_iteration lib env st ;;
             if snd r then beacon_walk lib m env (fst r)
             else ret (Some (fst r))) s);
    unfold bind at 1;
    destruct (beacon_iteration lib env st s) as [[[st' go] | e] s1] eqn:E;
    try discriminate;
    apply beacon_iteration_inv in E
      as (i & p & a & s0 & _ & _ & _ & _ & Hgo & Hl);
    simpl snd; simpl fst;
    (destruct go; [| discriminate]);
    symmetry in Hgo; unfold goes_on in Hgo;
    apply andb_true_iff in Hgo as [_ Hlt]; apply Nat.ltb_lt in Hlt.
  - lia.
  - apply IH. lia.
Qed.

(** The walk starts on the start point with the counter at zero; the
    search ellipse has 21 points and the termination distance is the
    square of [sigma * CONTOUR_STRETCHING * beacon_size]. *)
Lemma beacon_setup_start (p1 p2 : string) (sigma beacon_size : Q)
      (env : beacon_env) (st0 : beacon_walk_state) s s' :
  _contour_beacon_setup lib p1 p2 sigma beacon_size s = (Ok (env, st0), s') ->
  _loops st0 = 0%nat
  /\ _coords st0 = _start_point env
  /\ _contour_coords st0 = [_start_point env]
  /\ List.length (_contour_search_ellipse env) = CONTOUR_ELLIPSE_POINTS
  /\ _termination_distance env
     = (sigma * CONTOUR_STRETCHING * beacon_size) ^ 2.
Proof.
  unfold _contour_beacon_setup. intros H.
  repeat (apply bind_ok_inv in H as (? & ? & _ & H)).
  injection H as <- <- _. repeat split.
Qed.

(** C6, as the code has it.  In a pass of the loop that returns, the
    candidate chosen by [beacon_select] is judged by its stretched angle
    [a], in radians, against 0.349111 (20.003 degrees, not 35): above
    it the last accepted point is dropped and the candidate is not
    appended; otherwise the candidate is appended. *)
Theorem beacon_backtrack_rule (env : beacon_env) (st st' : beacon_walk_state)
        (go : bool) s s' :
  beacon_iteration lib env st s = (Ok (st', go), s') ->
  exists (i : nat) (p : point) (a : Q) s1,
    beacon_select lib env st s = (Ok (i, p), s1)
    /\ nth_error (_stretched_absolute_angles env) i = Some a
    /\ (BACKTRACK_ANGLE < a ->
        _contour_coords st' = removelast (_contour_coords st))
    /\ (a <= BACKTRACK_ANGLE ->
        _contour_coords st' = _contour_coords st ++ [p])
    /\ BACKTRACK_ANGLE = 0.349111.
Proof.
  intros H.
  apply beacon_iteration_inv in H as (i & p & a & s1 & Hs & Ha & Hc & _).
  exists i, p, a, s1. repeat split; auto.
  - intros Hlt. apply Qgtb_lt in Hlt. rewrite Hlt in Hc. exact Hc.
  - intros Hle. apply Qgtb_le in Hle. rewrite Hle in Hc. exact Hc.
Qed.

(** C7, as the code has it.  The loop of the beacon tracer is left after
    201 passes at most: a walk given one pass more than its counter lacks
    to 200 never uses them up, and so the tracer, which starts the counter
    at zero and sets the termination distance to the square of
    [sigma * CONTOUR_STRETCHING * beacon_size], always comes back from
    the loop.  A pass that returns ends
    the loop exactly when the point it ends on lies within the squared
    termination distance of the start point and the counter exceeds 10
    (eleven passes have been completed before this one), or when the
    counter has reached 200; otherwise it adds one to the counter. *)
Theorem beacon_walk_terminates (env : beacon_env) (st : beacon_walk_state) s :
  fst (beacon_walk lib (S (200 - _loops st)) env st s) <> Ok None
  /\ (forall (p1 p2 : string) (sigma beacon_size : Q),
        fst (_contour_beacon lib BEACON_MAX_PASSES p1 p2 sigma beacon_size s)
        <> Ok None
        /\ forall (env0 : beacon_env) (st0 : beacon_walk_state) s0,
             _contour_beacon_setup lib p1 p2 sigma beacon_size s
             = (Ok (env0, st0), s0) ->
             _loops st0 = 0%nat
             /\ _termination_distance env0
                = (sigma * CONTOUR_STRETCHING * beacon_size) ^ 2)
  /\ (forall (st' : beacon_walk_state) (go : bool) s',
        beacon_iteration lib env st s = (Ok (st', go), s') ->
        (go = false <->
         (squared_distance (_coords st') (_start_point env)
          < _termination_distance env /\ (10 < _loops st)%nat)
         \/ (200 <= _loops st)%nat)
        /\ _loops st' = (if go then S (_loops st) else _loops st)).
Proof.
  split; [apply beacon_walk_enough_fuel; lia | split].
  - intros p1 p2 sigma beacon_size. split.
    2: { intros env0 st0 s0 Es.
         apply beacon_setup_start in Es as (L0 & _ & _ & _ & T0).
         split; assumption. }
    unfold _contour_beacon, bind at 1.
    destruct (_contour_beacon_setup lib p1 p2 sigma beacon_size s)
      as [[[env0 st0] | e] s1] eqn:Es; [| discriminate].
    apply beacon_setup_start in Es as (L0 & _).
    pose proof (beacon_walk_enough_fuel 200 env0 st0 s1) as Hw.
    unfold bind at 1. unfold BEACON_MAX_PASSES.
    destruct (beacon_walk lib 201 env0 st0 s1) as [[[st1 |] | e] s2].
    + unfold bind, get_self, _func_wrapper_unpack_args, ret. simpl.
      destruct (_func_handle (fst s2) (_par_val (fst s2)) (snd s2)).
      discriminate.
    + exfalso. apply Hw; [lia | reflexivity].
    + discriminate.
  - intros st' go s' H.
    apply beacon_iteration_inv in H
      as (i & p & a & s1 & _ & _ & _ & _ & Hgo & Hl).
    split; [| exact Hl].
    rewrite Hgo. apply goes_on_false.
Qed.

End Facts.

(** * The properties on concrete minimizers *)

Lemma ok_eta {A S : Type} (r : result A * S) (a : A) :
  fst r = Ok a -> r = (Ok a, snd r).
Proof. destruct r as [x s]. simpl. intros ->. reflexivity. Qed.

Lemma run_eta {A W : Type} (r : result A * St W) (a : A) :
  fst r = Ok a -> r = (Ok a, (fst (snd r), snd (snd r))).
Proof. destruct r as [x [m w]]. simpl. intros ->. reflexivity. Qed.

(** ** minimize *)

(** On the paraboloid with [errordef = 4]: the Hessian is twice the
    identity, the covariance four times the identity, the errors are 2. *)
Lemma minimize_covariance_witness :
  0 < 4
  /\ exists (r : OptimizeResult) (w1 : Doubles.W) (h hinv cov : matrix),
       opt_minimize Doubles.lib (_func_handle Runs.unfitted)
                    (_par_val Runs.unfitted) (_method Runs.unfitted)
                    (_par_bounds Runs.unfitted)
                    (fixed_constraints (_par_fixed Runs.unfitted)
                                       (_par_val Runs.unfitted))
                    (_tol Runs.unfitted) 6000 0%nat
       = (Ok r, w1)
       /\ _opt_result Runs.fitted = Some r
       /\ _par_val Runs.fitted = res_x r
       /\ nd_Hessian Doubles.lib (_func_handle Runs.unfitted) (res_x r) w1
          = (Ok h, snd Runs.fitted_state)
       /\ nd_Hessian Doubles.lib (_func_handle Runs.fitted)
                     (_par_val Runs.fitted) w1
          = (Ok h, snd Runs.fitted_state)
       /\ mat_I Doubles.lib h = Ok hinv
       /\ _hessian_inv Runs.fitted = Some hinv
       /\ _par_cov_mat Runs.fitted = Some cov
       /\ _err_def Runs.fitted = 4
       /\ mat_eq cov (map (map (fun x => 2 * 4 * x)) hinv)
       /\ _par_err Runs.fitted = map (np_sqrt Doubles.lib) (Np.diag cov)
       /\ forall n : nat,
            List.length hinv = n ->
            Forall (fun row : list Q => List.length row = n) hinv ->
            List.length (_par_err Runs.fitted) = n
            /\ forall i : nat, (i < n)%nat ->
                 exists (hrow crow : list Q) (x c : Q),
                   nth_error hinv i = Some hrow
                   /\ nth_error hrow i = Some x
                   /\ nth_error cov i = Some crow
                   /\ nth_error crow i = Some c
                   /\ c == 2 * 4 * x
                   /\ nth_error (_par_err Runs.fitted) i
                      = Some (np_sqrt Doubles.lib c).
Proof.
  split; [reflexivity |].
  apply (minimize_covariance Doubles.W Doubles.Contour Doubles.lib 4 6000
           Runs.unfitted 0%nat Runs.fitted (snd Runs.fitted_state)).
  - reflexivity.
  - apply run_eta. vm_compute. reflexivity.
Defined.

Example minimize_on_the_paraboloid :
  _hessian_inv Runs.fitted = Some [[1 # 2; 0]; [0; 1 # 2]]
  /\ option_map (map (map Qred)) (_par_cov_mat Runs.fitted)
     = Some [[4; 0]; [0; 4]]
  /\ _par_err Runs.fitted = [2; 2]
  /\ _fval Runs.fitted = Some 5.
Proof. vm_compute. repeat split. Qed.

(** ** function_value *)

Lemma function_value_before_minimize_witness :
  _fval Runs.unfitted = None
  /\ let v := fst (_func_handle Runs.unfitted (_par_val Runs.unfitted) 0%nat) in
     let w1 := snd (_func_handle Runs.unfitted (_par_val Runs.unfitted) 0%nat) in
     function_value (Runs.unfitted, 0%nat)
     = (Ok v, (set_fval (Some v) Runs.unfitted, w1))
     /\ _fval (set_fval (Some v) Runs.unfitted) = Some v
     /\ forall (self2 : MinimizerScipyOptimize Doubles.W) w2,
          _fval self2 = Some v ->
          function_value (self2, w2) = (Ok v, (self2, w2)).
Proof.
  split; [reflexivity |].
  apply (function_value_before_minimize Doubles.W Runs.unfitted 0%nat).
  reflexivity.
Defined.

(** The first read costs one evaluation and yields 5; the second costs
    none. *)
Example function_value_read_twice :
  let r1 := function_value (Runs.unfitted, 0%nat) in
  let r2 := function_value (snd r1) in
  fst r1 = Ok 5 /\ snd (snd r1) = 1%nat
  /\ fst r2 = Ok 5 /\ snd (snd r2) = 1%nat.
Proof. vm_compute. repeat split. Qed.

(** ** profile *)

Lemma profile_subtract_min_witness :
  _fval Runs.fitted = Some 5
  /\ profile Doubles.lib "a" 5 2 true (Runs.fitted, snd Runs.fitted_state)
     = profile Doubles.lib "a" 5 2 false (Runs.fitted, snd Runs.fitted_state).
Proof.
  assert (H : _fval Runs.fitted = Some 5) by (vm_compute; reflexivity).
  split; [exact H |].
  exact (profile_subtract_min_not_applied Doubles.W Doubles.Contour
           Doubles.lib "a" 5 2 Runs.fitted (snd Runs.fitted_state) 5 H).
Defined.

(** The profile of [a] around the fitted minimum, with [subtract_min]:
    the parameter values are [-4, -2, 0, 2, 4], the best fit [a = 0] is the
    middle one, and the cost returned for it is the function value 5, not
    0. *)
Example profile_at_best_fit_not_zero :
  exists par y,
    fst (profile Doubles.lib "a" 5 2 true (Runs.fitted, snd Runs.fitted_state))
    = Ok (par, y)
    /\ map Qred par = [-4; -2; 0; 2; 4]
    /\ y = [21; 9; 5; 9; 21]
    /\ nth_error (_par_val Runs.fitted) 0 = Some 0
    /\ _fval Runs.fitted = Some 5.
Proof. eexists. eexists. vm_compute. repeat split. Qed.

(** C9, the case that the statement misses: [profile] with [subtract_min]
    on a minimizer that has not been fitted fills the function-value
    cache. *)
Lemma profile_fills_the_cache :
  _fval Runs.unfitted = None
  /\ _fval (fst (snd (profile Doubles.lib "a" 5 2 true (Runs.unfitted, 0%nat))))
     = Some 5.
Proof. vm_compute. split; reflexivity. Qed.

(** ** fix, release and unknown names *)

(** C2, the case against the statement: [fix("a")] raises and the flag of
    [a] stays False. *)
Lemma fix_does_not_set_the_flag :
  fst (fix_ "a" (Runs.unfitted, 0%nat)) = Raise NotImplementedError
  /\ nth_error (_par_fixed (fst (snd (fix_ "a" (Runs.unfitted, 0%nat))))) 0
     = Some false.
Proof. vm_compute. split; reflexivity. Qed.

Lemma unknown_name_raises_witness :
  PyList.index "zz" (_par_names Runs.unfitted) = None
  /\ limit "zz" [None; Some 1] (Runs.unfitted, 0%nat)
     = (Raise ValueError, (Runs.unfitted, 0%nat))
  /\ unlimit "zz" (Runs.unfitted, 0%nat)
     = (Raise ValueError, (Runs.unfitted, 0%nat))
  /\ profile Doubles.lib "zz" 5 2 false (Runs.unfitted, 0%nat)
     = (Raise ValueError, (Runs.unfitted, 0%nat)).
Proof.
  split; [reflexivity |].
  pose proof (unknown_name_raises Doubles.W Doubles.Contour Doubles.lib
                Doubles.refine "zz" "a" [None; Some 1] 5 2 1 false
                (Runs.grid_kwargs 1 5) Runs.unfitted 0%nat eq_refl)
    as (_ & _ & Hl & Hu & Hp & _).
  split; [exact Hl | split; [exact Hu | exact Hp]].
Defined.

(** C8, the case against the statement: the exception for an unknown
    name is ValueError (NotImplementedError from [fix]), and neither is
    called UnknownParameterError. *)
Lemma unknown_name_is_not_UnknownParameterError :
  fst (limit "zz" [None; Some 1] (Runs.unfitted, 0%nat)) = Raise ValueError
  /\ exn_name ValueError <> "UnknownParameterError"%string
  /\ fst (fix_ "zz" (Runs.unfitted, 0%nat)) = Raise NotImplementedError
  /\ exn_name NotImplementedError <> "UnknownParameterError"%string
  /\ fst (contour Doubles.lib Doubles.refine "zz" "a" 1
                  (Runs.grid_kwargs 1 5) (Runs.unfitted, 0%nat))
     = Raise ValueError.
Proof. vm_compute. repeat split; discriminate. Qed.

(** ** The heuristic grid *)

(** [initial_points = 0]: TypeError, and the count of cost evaluations
    stays at zero. *)
Lemma heuristic_grid_invalid_arguments_witness :
  (0 < 1 \/ 5 < 0)%Z
  /\ _contour_heuristic_grid Doubles.refine "a" "b" 1 0 5 1.5
                             (Runs.unfitted, 0%nat)
     = (Raise TypeError, (Runs.unfitted, 0%nat))
  /\ exn_name TypeError <> exn_name MinimizerScipyOptimizeException.
Proof.
  split; [left; reflexivity |].
  apply (heuristic_grid_invalid_arguments Doubles.W Doubles.Contour
           Doubles.refine "a" "b" 1 0 5 1.5 (Runs.unfitted, 0%nat)).
  left. reflexivity.
Defined.

(** The same through [contour], for [initial_points = 0] and for
    [iterations = -1]. *)
Example contour_invalid_arguments :
  contour Doubles.lib Doubles.refine "a" "b" 1 (Runs.grid_kwargs 0 5)
          (Runs.unfitted, 0%nat)
  = (Raise TypeError, (Runs.unfitted, 0%nat))
  /\ contour Doubles.lib Doubles.refine "a" "b" 1 (Runs.grid_kwargs 1 (-1))
             (Runs.unfitted, 0%nat)
     = (Raise TypeError, (Runs.unfitted, 0%nat)).
Proof. split; reflexivity. Qed.



(** ** The beacon walk *)

(** The threshold of line 538 is 20.003 degrees. *)
Example backtrack_angle_in_degrees :
  20 < degrees Doubles.lib BACKTRACK_ANGLE
  /\ degrees Doubles.lib BACKTRACK_ANGLE < 20.01.
Proof. split; reflexivity. Qed.

(** A pass from the start point of the unit circle: the candidate chosen
    is the twelfth, at 2.27 degrees, and it is appended. *)
Lemma beacon_backtrack_rule_witness :
  exists (st' : beacon_walk_state) (go : bool) (s' : St Doubles.W),
    beacon_iteration Doubles.lib Circle.env (Circle.at_start 0)
                     (Circle.minimizer, 0%nat)
    = (Ok (st', go), s')
    /\ exists (i : nat) (p : point) (a : Q) (s1 : St Doubles.W),
         beacon_select Doubles.lib Circle.env (Circle.at_start 0)
                       (Circle.minimizer, 0%nat)
         = (Ok (i, p), s1)
         /\ nth_error (_stretched_absolute_angles Circle.env) i = Some a
         /\ (BACKTRACK_ANGLE < a ->
             _contour_coords st'
             = removelast (_contour_coords (Circle.at_start 0)))
         /\ (a <= BACKTRACK_ANGLE ->
             _contour_coords st'
             = _contour_coords (Circle.at_start 0) ++ [p])
         /\ BACKTRACK_ANGLE = 0.349111.
Proof.
  assert (H : exists st' go s',
             beacon_iteration Doubles.lib Circle.env (Circle.at_start 0)
                              (Circle.minimizer, 0%nat)
             = (Ok (st', go), s')).
  { eexists. eexists. eexists. apply ok_eta. vm_compute. reflexivity. }
  destruct H as (st' & go & s' & H).
  exists st', go, s'. split; [exact H |].
  exact (beacon_backtrack_rule Doubles.W Doubles.Contour Doubles.lib
           Circle.env (Circle.at_start 0) st' go (Circle.minimizer, 0%nat)
           s' H).
Defined.

(** C6, the case against the statement.  The walker stands slightly
    inside the circle; the candidate on the contour is the fourth of the
    21, whose stretched angle is 0.456142 rad, about 26.14 degrees and so
    below 35.  The pass drops the last accepted point and does not append
    the candidate. *)
Lemma beacon_backtracks_below_35_degrees :
  exists (st' : beacon_walk_state) (go : bool) (p : point) (a : Q),
    fst (beacon_iteration Doubles.lib Circle.env Circle.before_turn
                          (Circle.minimizer, 0%nat))
    = Ok (st', go)
    /\ fst (beacon_select Doubles.lib Circle.env Circle.before_turn
                          (Circle.minimizer, 0%nat))
       = Ok (3%nat, p)
    /\ nth_error (_stretched_absolute_angles Circle.env) 3 = Some a
    /\ degrees Doubles.lib a <= SPEC_BACKTRACK_DEGREES
    /\ _contour_coords st' = removelast (_contour_coords Circle.before_turn)
    /\ _contour_coords st' <> _contour_coords Circle.before_turn ++ [p].
Proof.
  eexists. eexists. eexists. eexists.
  split; [vm_compute; reflexivity |].
  split; [vm_compute; reflexivity |].
  split; [reflexivity |].
  split; [vm_compute; discriminate |].
  split; [reflexivity | discriminate].
Qed.

(** C7, the case against the statement.  The loop counter is 10 (ten
    passes are completed, this is the eleventh) and the pass ends on a
    point within the squared termination distance of the start point, yet
    the loop goes on, with the counter at 11. *)
Lemma beacon_goes_on_at_ten_steps :
  exists st' : beacon_walk_state,
    fst (beacon_iteration Doubles.lib Circle.env (Circle.at_start 10)
                          (Circle.minimizer, 0%nat))
    = Ok (st', true)
    /\ squared_distance (_coords st') (_start_point Circle.env)
       < _termination_distance Circle.env
    /\ (SPEC_MIN_STEPS <= _loops (Circle.at_start 10))%nat
    /\ _loops st' = 11%nat.
Proof.
  eexists.
  split; [vm_compute; reflexivity |].
  split; [vm_compute; reflexivity |].
  split; [apply Nat.le_refl | reflexivity].
Qed.

(** One pass later, with the counter at 11, the same point ends the
    loop. *)
Example beacon_stops_at_eleven_steps :
  exists st' : beacon_walk_state,
    fst (beacon_iteration Doubles.lib Circle.env (Circle.at_start 11)
                          (Circle.minimizer, 0%nat))
    = Ok (st', false)
    /\ squared_distance (_coords st') (_start_point Circle.env)
       < _termination_distance Circle.env.
Proof.
  eexists. split; vm_compute; reflexivity.
Qed.

(** * The rest of the module: properties *)

From Stdlib Require Import Lqa Qpower.

Arguments bind_ok {W A B c} k {s a s'} _.
Arguments bind_raise {W A B c} k {s e s'} _.
Arguments bind_pure {W A B c} k {s r} _.
Arguments bind_ok_inv {W A B c k s b s2} _.
Arguments index_of_run {W} name s.
Arguments getitem_run {W A} a i s.
Arguments get_self_run {W} s.

(** ** Python lists *)

Lemma index_some (x : string) (l : list string) (i : nat) :
  PyList.index x l = Some i ->
  (i < List.length l)%nat /\ nth_error l i = Some x.
Proof.
  revert i. induction l as [| y l IH]; intros i H; simpl in H.
  - discriminate H.
  - destruct (String.eqb y x) eqn:E.
    + injection H as <-. apply String.eqb_eq in E. subst y.
      simpl. split; [lia | reflexivity].
    + destruct (PyList.index x l) as [j |]; [| discriminate H].
      injection H as <-. destruct (IH j eq_refl) as [Hj Hn].
      simpl. split; [lia | exact Hn].
Qed.

Lemma setitem_in_range {A} (l : list A) (i : nat) (v : A) :
  (i < List.length l)%nat -> exists l', PyList.setitem l i v = Some l'.
Proof.
  revert i. induction l as [| y l IH]; intros i Hi; simpl in *; [lia |].
  destruct i as [| i].
  - eexists. reflexivity.
  - destruct (IH i) as [l' E]; [lia |]. rewrite E. eexists. reflexivity.
Qed.

Lemma setitem_spec {A} (l l' : list A) (i : nat) (v : A) :
  PyList.setitem l i v = Some l' ->
  List.length l' = List.length l
  /\ nth_error l' i = Some v
  /\ forall j, j <> i -> nth_error l' j = nth_error l j.
Proof.
  revert l' i. induction l as [| y l IH]; intros l' i H; simpl in H.
  - discriminate H.
  - destruct i as [| i].
    + injection H as <-. repeat split.
      intros [| j] Hj; [contradiction | reflexivity].
    + destruct (PyList.setitem l i v) as [l1 |] eqn:E; [| discriminate H].
      injection H as <-. destruct (IH l1 i E) as (Hl & Hn & Ho).
      simpl. repeat split; [congruence | exact Hn |].
      intros [| j] Hj; [reflexivity |]. simpl. apply Ho. congruence.
Qed.

Lemma setitem_twice {A} (l l1 : list A) (i : nat) (a b : A) :
  PyList.setitem l i a = Some l1 ->
  PyList.setitem l1 i b = PyList.setitem l i b.
Proof.
  revert l1 i. induction l as [| y l IH]; intros l1 i H; simpl in H.
  - discriminate H.
  - destruct i as [| i].
    + injection H as <-. reflexivity.
    + destruct (PyList.setitem l i a) as [l2 |] eqn:E; [| discriminate H].
      injection H as <-. simpl. rewrite (IH l2 i E). reflexivity.
Qed.

Lemma setitem_same {A} (l : list A) (i : nat) (v : A) :
  nth_error l i = Some v -> PyList.setitem l i v = Some l.
Proof.
  revert i. induction l as [| y l IH]; intros i H.
  - destruct i; discriminate H.
  - destruct i as [| i]; simpl in *.
    + injection H as ->. reflexivity.
    + rewrite (IH i H). reflexivity.
Qed.

Lemma setitem_Forall {A} (P : A -> Prop) (l l' : list A) (i : nat) (v : A) :
  PyList.setitem l i v = Some l' -> Forall P l -> P v -> Forall P l'.
Proof.
  revert l' i. induction l as [| y l IH]; intros l' i H Hl Hv; simpl in H.
  - discriminate H.
  - inversion Hl as [| ? ? Hy Hl']; subst. destruct i as [| i].
    + injection H as <-. constructor; assumption.
    + destruct (PyList.setitem l i v) as [l1 |] eqn:E; [| discriminate H].
      injection H as <-. constructor; [exact Hy |].
      apply (IH l1 i E Hl' Hv).
Qed.

Section RestFacts.

Variables W Contour : Type.
Variable lib : Libraries W Contour.

Implicit Types (s : St W) (self : MinimizerScipyOptimize W) (w : W).

(** ** limit and unlimit *)

Lemma bounds_in_force_ok self :
  bounds_ok self ->
  List.length (bounds_in_force self) = List.length (_par_names self)
  /\ Forall (fun b : bound => List.length b = 2%nat) (bounds_in_force self).
Proof.
  unfold bounds_ok, bounds_in_force. destruct (_par_bounds self) as [bs |].
  - tauto.
  - intros _. split; [apply length_map |].
    induction (_par_names self); simpl; constructor; auto.
Qed.

(** [limit] on a known name with a pair of bounds, outcome by outcome of
    the subscript assignment. *)
Lemma limit_run (name : string) (b : bound) self w (i : nat) :
  PyList.index name (_par_names self) = Some i ->
  List.length b = 2%nat ->
  limit name b (self, w)
  = match PyList.setitem (bounds_in_force self) i b with
    | Some bs' => (Ok tt, (set_par_bounds (Some bs') self, w))
    | None => (Raise IndexError, (self, w))
    end.
Proof.
  intros Hi Hb. unfold limit, assert. rewrite Hb. simpl Nat.eqb. cbv iota.
  rewrite (bind_ok _ (eq_refl : ret tt (self, w) = (Ok tt, (self, w)))).
  rewrite (bind_pure _ (index_of_run name (self, w))). simpl fst. rewrite Hi.
  rewrite (bind_pure _ (get_self_run (self, w))). simpl fst.
  unfold bounds_in_force.
  destruct (_par_bounds self) as [bs |] eqn:Eb.
  - rewrite (bind_ok _ (eq_refl : ret bs (self, w) = (Ok bs, (self, w)))).
    unfold bind, of_option.
    destruct (PyList.setitem bs i b); reflexivity.
  - apply index_some in Hi as [Hlt _].
    unfold bind, modify_self, ret, of_option. simpl.
    match goal with
    | |- context [@PyList.setitem ?A ?l i b] =>
        destruct (setitem_in_range (A := A) l i b) as [bs' E];
        [rewrite length_map; exact Hlt |];
        destruct (@PyList.setitem A l i b) as [x |];
        [| discriminate E]
    end.
    reflexivity.
Qed.

(** [limit] on a known name and a minimizer with well-formed bounds
    stores the list in force with the entry of the name replaced. *)
Lemma limit_known_name (name : string) (b : bound) self w (i : nat) :
  PyList.index name (_par_names self) = Some i ->
  List.length b = 2%nat ->
  bounds_ok self ->
  exists bs',
    PyList.setitem (bounds_in_force self) i b = Some bs'
    /\ limit name b (self, w) = (Ok tt, (set_par_bounds (Some bs') self, w)).
Proof.
  intros Hi Hb Hok. rewrite (limit_run name b self w i Hi Hb).
  destruct (bounds_in_force_ok self Hok) as [Hlen _].
  destruct (index_some _ _ _ Hi) as [Hlt _].
  destruct (setitem_in_range (bounds_in_force self) i b) as [bs' E];
    [rewrite Hlen; exact Hlt |].
  rewrite E. exists bs'. split; reflexivity.
Qed.

(** X1.  [limit] on a known name with a pair of bounds, on a minimizer
    whose bounds are absent or one per parameter: the call returns, only
    the bounds change, the entry of the named parameter (the first with
    that name) is the pair given and every other entry is what was in
    force before. *)
Theorem limit_sets_bound (name : string) (b : bound) self w (i : nat) :
  PyList.index name (_par_names self) = Some i ->
  List.length b = 2%nat ->
  bounds_ok self ->
  exists bs',
    limit name b (self, w) = (Ok tt, (set_par_bounds (Some bs') self, w))
    /\ List.length bs' = List.length (_par_names self)
    /\ nth_error bs' i = Some b
    /\ (forall j, j <> i ->
        nth_error bs' j = nth_error (bounds_in_force self) j).
Proof.
  intros Hi Hb Hok.
  destruct (limit_known_name name b self w i Hi Hb Hok) as (bs' & E & Hrun).
  exists bs'. split; [exact Hrun |].
  destruct (setitem_spec _ _ _ _ E) as (Hl & Hn & Ho).
  destruct (bounds_in_force_ok self Hok) as [Hlen _].
  repeat split; [congruence | exact Hn | exact Ho].
Qed.

Lemma unlimit_run (name : string) self w (i : nat) :
  PyList.index name (_par_names self) = Some i ->
  unlimit name (self, w)
  = match _par_bounds self with
    | None => (Raise TypeError, (self, w))
    | Some bs =>
        match PyList.setitem bs i [None; None] with
        | Some bs' => (Ok tt, (set_par_bounds (Some bs') self, w))
        | None => (Raise IndexError, (self, w))
        end
    end.
Proof.
  intros Hi. unfold unlimit.
  rewrite (bind_pure _ (index_of_run name (self, w))). cbn [fst]. rewrite Hi.
  rewrite (bind_pure _ (get_self_run (self, w))). cbn [fst].
  destruct (_par_bounds self) as [bs |]; [| reflexivity].
  unfold bind, of_option. destruct (PyList.setitem bs i [None; None]);
    reflexivity.
Qed.

(** X2.  [unlimit] does not undo [limit] to the letter.  On a minimizer
    that has never been limited, [unlimit] of a known name raises TypeError
    and changes nothing.  After [limit], [unlimit] of the same name
    returns: the entry is the explicit pair [(None, None)], and the bounds
    of a minimizer that had none are now the list of such pairs, one for
    each parameter, not None. *)
Theorem limit_then_unlimit (name : string) (b : bound) self w (i : nat) :
  PyList.index name (_par_names self) = Some i ->
  List.length b = 2%nat ->
  bounds_ok self ->
  (_par_bounds self = None ->
   unlimit name (self, w) = (Raise TypeError, (self, w)))
  /\ exists bs',
       (_ <- limit name b ;; unlimit name) (self, w)
       = (Ok tt, (set_par_bounds (Some bs') self, w))
       /\ PyList.setitem (bounds_in_force self) i [None; None] = Some bs'
       /\ (_par_bounds self = None ->
           bs' = map (fun _ => [None; None]) (_par_names self)).
Proof.
  intros Hi Hb Hok. split.
  - intros En. rewrite (unlimit_run name self w i Hi), En. reflexivity.
  - destruct (limit_known_name name b self w i Hi Hb Hok)
      as (bs1 & E1 & Hrun).
    assert (Hlen : List.length bs1 = List.length (_par_names self)).
    { destruct (setitem_spec _ _ _ _ E1) as (Hl & _).
      destruct (bounds_in_force_ok self Hok) as [Hlen _]. congruence. }
    destruct (index_some _ _ _ Hi) as [Hlt _].
    destruct (setitem_in_range (A := bound) bs1 i [None; None]) as [bs' E2];
      [rewrite Hlen; exact Hlt |].
    exists bs'. split; [| split].
    + rewrite (bind_ok _ Hrun).
      rewrite (unlimit_run name (set_par_bounds (Some bs1) self) w i Hi).
      cbn [_par_bounds set_par_bounds]. rewrite E2. reflexivity.
    + rewrite <- E2. symmetry. apply (setitem_twice _ _ _ _ _ E1).
    + intros En. rewrite (setitem_twice _ _ _ _ _ E1) in E2.
      unfold bounds_in_force in E2. rewrite En in E2.
      rewrite setitem_same in E2; [congruence |].
      rewrite nth_error_map.
      destruct (nth_error (_par_names self) i) eqn:En'; [reflexivity |].
      apply nth_error_None in En'. lia.
Qed.

Lemma bound_op_keeps_bounds_ok (o : bound_op) self w :
  bounds_ok self ->
  bounds_ok (fst (snd (call_bound_op o (self, w))))
  /\ _par_names (fst (snd (call_bound_op o (self, w)))) = _par_names self.
Proof.
  intros Hok. destruct o as [name b | name]; simpl call_bound_op.
  - destruct (Nat.eqb (List.length b) 2) eqn:Eb.
    + apply Nat.eqb_eq in Eb.
      destruct (PyList.index name (_par_names self)) as [i |] eqn:Ei.
      * destruct (limit_known_name name b self w i Ei Eb Hok)
          as (bs' & E & Hrun).
        rewrite Hrun. simpl. split; [| reflexivity].
        unfold bounds_ok. simpl. split.
        { destruct (setitem_spec _ _ _ _ E) as (Hl & _).
          destruct (bounds_in_force_ok self Hok) as [Hlen _]. congruence. }
        apply (setitem_Forall _ _ _ _ _ E);
          [apply (bounds_in_force_ok self Hok) | exact Eb].
      * unfold limit, assert. rewrite Eb.
        rewrite (bind_ok _ (eq_refl : ret tt (self, w) = (Ok tt, (self, w)))).
        rewrite (bind_pure _ (index_of_run name (self, w))). simpl fst.
        rewrite Ei. simpl. split; [exact Hok | reflexivity].
    + unfold limit, assert. rewrite Eb. simpl. split; [exact Hok | reflexivity].
  - destruct (PyList.index name (_par_names self)) as [i |] eqn:Ei.
    + rewrite (unlimit_run name self w i Ei).
      destruct (_par_bounds self) as [bs |] eqn:Ebs;
        [| simpl; split; [exact Hok | reflexivity]].
      destruct (PyList.setitem bs i [None; None]) as [bs' |] eqn:E;
        [| simpl; split; [exact Hok | reflexivity]].
      simpl. split; [| reflexivity].
      unfold bounds_ok in *. rewrite Ebs in Hok. simpl.
      destruct Hok as [Hlen Hall].
      destruct (setitem_spec _ _ _ _ E) as (Hl & _). split; [congruence |].
      apply (setitem_Forall _ _ _ _ _ E Hall). reflexivity.
    + unfold unlimit.
      rewrite (bind_pure _ (index_of_run name (self, w))). simpl fst.
      rewrite Ei. simpl. split; [exact Hok | reflexivity].
Qed.

(** X3.  Whatever calls of [limit] and [unlimit] are made on a newly
    constructed minimizer, with whatever names and bounds and whether they
    raise or not, the bounds stay absent or one pair for each parameter,
    and the parameter names stay as constructed. *)
Theorem bounds_stay_well_formed
        (os : list bound_op) (names : list string) (values errors : list Q)
        (f : cost_function W) (method : string) w :
  bounds_ok (fst (call_bound_ops os (__init__ names values errors f method, w)))
  /\ _par_names (fst (call_bound_ops os
                        (__init__ names values errors f method, w)))
     = names.
Proof.
  assert (G : forall os s,
             bounds_ok (fst s) ->
             bounds_ok (fst (call_bound_ops os s))
             /\ _par_names (fst (call_bound_ops os s)) = _par_names (fst s)).
  { clear. intros os. induction os as [| o os IH]; intros [self w] Hok.
    - simpl. split; [exact Hok | reflexivity].
    - simpl call_bound_ops.
      destruct (bound_op_keeps_bounds_ok o self w Hok) as [Hok' Hn].
      destruct (IH (snd (call_bound_op o (self, w))) Hok') as [H1 H2].
      split; [exact H1 |]. rewrite H2. exact Hn. }
  apply (G os (__init__ names values errors f method, w)). exact I.
Qed.

(** ** errordef, tolerance, fix_several *)

Lemma assert_positive (v : Q) : Qgtb v 0 = true <-> 0 < v.
Proof. apply Qgtb_lt. Qed.

(** X4.  The setters of [errordef] and [tolerance] take a positive value
    and nothing else: a positive value is stored (and read back by the
    getter) with every other attribute untouched, and a value that is zero
    or negative raises AssertionError and leaves the object as it was. *)
Theorem setters_validate (v : Q) self w :
  (0 < v ->
   (_ <- errordef_setter v ;; @errordef W) (self, w)
   = (Ok v, (set_err_def v self, w))
   /\ (_ <- tolerance_setter v ;; @tolerance W) (self, w)
      = (Ok v, (set_tol v self, w)))
  /\ (v <= 0 ->
      errordef_setter v (self, w) = (Raise AssertionError, (self, w))
      /\ tolerance_setter v (self, w) = (Raise AssertionError, (self, w))).
Proof.
  split; intros H.
  - apply assert_positive in H.
    unfold errordef_setter, tolerance_setter, assert. rewrite H.
    split; reflexivity.
  - apply Qgtb_le in H.
    unfold errordef_setter, tolerance_setter, assert. rewrite H.
    split; reflexivity.
Qed.

(** X5.  [fix_several] and [release_several] return without a trace on
    an empty list of names and raise NotImplementedError at the first
    name of any other list, changing nothing. *)
Theorem several_not_implemented (name : string) (names : list string) s :
  fix_several [] s = (Ok tt, s)
  /\ release_several [] s = (Ok tt, s)
  /\ fix_several (name :: names) s = (Raise NotImplementedError, s)
  /\ release_several (name :: names) s = (Raise NotImplementedError, s).
Proof. repeat split. Qed.

(** ** minimize *)

Lemma enumerate_zip_last {A B} (a : list A) (b : list B) (i j : nat)
      (x : A) (y : B) :
  PyList.last_item (PyList.enumerate_zip i a b) = Some (j, (x, y)) ->
  j = (i + Nat.min (List.length a) (List.length b) - 1)%nat
  /\ (1 <= Nat.min (List.length a) (List.length b))%nat
  /\ nth_error a (j - i) = Some x
  /\ nth_error b (j - i) = Some y.
Proof.
  revert b i. induction a as [| x0 a IH]; intros b i H.
  - discriminate H.
  - destruct b as [| y0 b]; [discriminate H |].
    simpl PyList.enumerate_zip in H.
    destruct (PyList.enumerate_zip (S i) a b) as [| it rest] eqn:E.
    + simpl in H. injection H as <- <- <-.
      assert (Nat.min (List.length a) (List.length b) = 0)%nat as Hm.
      { destruct a; [reflexivity |]. destruct b; [apply Nat.min_0_r |].
        discriminate E. }
      simpl List.length. rewrite <- Nat.succ_min_distr, Hm.
      replace (i + 1 - 1 - i)%nat with 0%nat by lia.
      replace (i - i)%nat with 0%nat by lia.
      repeat split; lia.
    + assert (H' : PyList.last_item (PyList.enumerate_zip (S i) a b)
                   = Some (j, (x, y))) by (rewrite E; exact H).
      destruct (IH b (S i) H') as (Hj & Hm & Ha & Hb).
      simpl List.length. rewrite <- Nat.succ_min_distr.
      replace (j - i)%nat with (S (j - S i)) by lia.
      repeat split; try lia; assumption.
Qed.

Lemma enumerate_zip_fixed_count {B} (a : list bool) (b : list B) (i : nat) :
  List.length (filter (fun it : nat * (bool * B) => fst (snd it))
                      (PyList.enumerate_zip i a b))
  = List.length (filter (fun x : bool => x)
                        (firstn (Nat.min (List.length a) (List.length b)) a)).
Proof.
  revert b i. induction a as [| x a IH]; intros b i; [reflexivity |].
  destruct b as [| y b]; [reflexivity |].
  simpl. destruct x; simpl; rewrite IH; reflexivity.
Qed.

(** X6.  The equality constraints that [minimize] builds for the fixed
    parameters all read the loop variables after the loop: there is one
    constraint for each flag that is set, and every one of them pins the
    last parameter of the loop to that parameter's value, whichever
    parameters are flagged. *)
Theorem fixed_constraints_pin_last_parameter
        (fixed : list bool) (val : list Q) :
  let n := Nat.min (List.length fixed) (List.length val) in
  List.length (fixed_constraints fixed val)
  = List.length (filter (fun x : bool => x) (firstn n fixed))
  /\ forall c, In c (fixed_constraints fixed val) ->
       c_index c = (n - 1)%nat
       /\ nth_error val (n - 1) = Some (c_target c)
       /\ c_type c = "eq"%string
       /\ c_jac c = true.
Proof.
  intros n. unfold fixed_constraints.
  destruct (PyList.last_item (PyList.enumerate_zip 0 fixed val))
    as [[j [x y]] |] eqn:E.
  - destruct (enumerate_zip_last _ _ _ _ _ _ E) as (Hj & Hm & _ & Hy).
    fold n in Hj, Hm. simpl in Hj. rewrite Nat.sub_0_r in Hy. subst j.
    split.
    + rewrite length_map. apply enumerate_zip_fixed_count.
    + intros c Hc. apply in_map_iff in Hc as (it & <- & _).
      simpl. repeat split. exact Hy.
  - split; [| intros c []].
    pose proof (enumerate_zip_fixed_count fixed val 0) as Hc. fold n in Hc.
    rewrite <- Hc.
    destruct (PyList.enumerate_zip 0 fixed val) as [| it rest] eqn:Ez;
      [reflexivity |].
    exfalso. clear - E. revert it E.
    induction rest as [| it' rest IH]; intros it E; [discriminate E |].
    apply (IH it'). exact E.
Qed.

Lemma minimize_failure (max_calls : Z) self w (r : OptimizeResult)
      (w1 w2 : W) (e : exn) :
  opt_minimize lib (_func_handle self) (_par_val self) (_method self)
               (_par_bounds self)
               (fixed_constraints (_par_fixed self) (_par_val self))
               (_tol self) max_calls w
  = (Ok r, w1) ->
  (nd_Hessian lib (_func_handle self) (res_x r) w1 = (Raise e, w2)
   \/ exists h, nd_Hessian lib (_func_handle self) (res_x r) w1 = (Ok h, w2)
                /\ mat_I lib h = Raise e) ->
  minimize lib max_calls (self, w)
  = (Raise e,
     (set_par_val (res_x r)
        (set_opt_result (Some r)
           (set_par_constraints
              (fixed_constraints (_par_fixed self) (_par_val self)) self)),
      w2)).
Proof.
  intros Hs Hh. rewrite minimize_run. cbv zeta. rewrite Hs.
  destruct Hh as [Hh | (h & Hh & Hi)]; rewrite Hh; [reflexivity |].
  rewrite Hi. reflexivity.
Qed.

(** X7.  When the solver has returned and the Hessian estimate or its
    inversion raises (a singular Hessian), [minimize] lets the exception
    out with the object half updated: the parameter values are the new
    optimum, while the errors, the covariance matrix and the cached
    function value are still those from before the call, so that
    [function_value] goes on returning the old value. *)
Theorem minimize_singular_hessian
        (max_calls : Z) self w (r : OptimizeResult) (w1 w2 : W) (e : exn) :
  opt_minimize lib (_func_handle self) (_par_val self) (_method self)
               (_par_bounds self)
               (fixed_constraints (_par_fixed self) (_par_val self))
               (_tol self) max_calls w
  = (Ok r, w1) ->
  (nd_Hessian lib (_func_handle self) (res_x r) w1 = (Raise e, w2)
   \/ exists h, nd_Hessian lib (_func_handle self) (res_x r) w1 = (Ok h, w2)
                /\ mat_I lib h = Raise e) ->
  exists self',
    minimize lib max_calls (self, w) = (Raise e, (self', w2))
    /\ _par_val self' = res_x r
    /\ _opt_result self' = Some r
    /\ _par_err self' = _par_err self
    /\ _par_cov_mat self' = _par_cov_mat self
    /\ _hessian_inv self' = _hessian_inv self
    /\ _fval self' = _fval self
    /\ forall v, _fval self = Some v ->
         function_value (self', w2) = (Ok v, (self', w2)).
Proof.
  intros Hs Hh. eexists. split; [apply (minimize_failure _ _ _ _ _ _ _ Hs Hh) |].
  repeat split. intros v Hv. apply function_value_cached. exact Hv.
Qed.

Lemma minimize_success (max_calls : Z) self w self' w' :
  minimize lib max_calls (self, w) = (Ok tt, (self', w')) ->
  exists (r : OptimizeResult) (w1 : W),
    opt_minimize lib (_func_handle self) (_par_val self) (_method self)
                 (_par_bounds self)
                 (fixed_constraints (_par_fixed self) (_par_val self))
                 (_tol self) max_calls w
    = (Ok r, w1)
    /\ _opt_result self' = Some r
    /\ _par_val self' = res_x r
    /\ _fval self' = Some (res_fun r)
    /\ _par_constraints self'
       = fixed_constraints (_par_fixed self) (_par_val self)
    /\ _par_names self' = _par_names self
    /\ _par_bounds self' = _par_bounds self
    /\ _par_fixed self' = _par_fixed self
    /\ _method self' = _method self
    /\ _err_def self' = _err_def self
    /\ _tol self' = _tol self
    /\ _func_handle self' = _func_handle self.
Proof.
  intros H. rewrite minimize_run in H. cbv zeta in H.
  destruct (opt_minimize lib _ _ _ _ _ _ _ w) as [[r | e] w1];
    [| discriminate H].
  destruct (nd_Hessian lib _ _ w1) as [[h | e] w2]; [| discriminate H].
  destruct (mat_I lib h) as [hinv | e]; [| discriminate H].
  injection H as <- <-. exists r, w1. repeat split.
Qed.

(** X8.  After a [minimize] that returned, what is stored is the
    solver's answer: the call of [scipy.optimize.minimize] on the cost
    function, from the parameter values of before the call with the
    method, bounds, constraints and tolerance of the object, returned a
    result [r]; [function_value] now returns [r.fun] without evaluating
    the cost function, [_get_opt_result] returns [r] (on a newly
    constructed minimizer it raises MinimizerScipyOptimizeException) and
    the parameter values are [r.x].  The names, bounds, fixed flags,
    method, errordef, tolerance and cost function are as before the
    call. *)
Theorem minimize_then_read (max_calls : Z) self w self' w' :
  minimize lib max_calls (self, w) = (Ok tt, (self', w')) ->
  (exists (r : OptimizeResult) (w1 : W),
     opt_minimize lib (_func_handle self) (_par_val self) (_method self)
                  (_par_bounds self)
                  (fixed_constraints (_par_fixed self) (_par_val self))
                  (_tol self) max_calls w
     = (Ok r, w1)
     /\ function_value (self', w') = (Ok (res_fun r), (self', w'))
     /\ _get_opt_result (self', w') = (Ok r, (self', w'))
     /\ _par_val self' = res_x r)
  /\ _par_names self' = _par_names self
  /\ _par_bounds self' = _par_bounds self
  /\ _par_fixed self' = _par_fixed self
  /\ _method self' = _method self
  /\ _err_def self' = _err_def self
  /\ _tol self' = _tol self
  /\ _func_handle self' = _func_handle self
  /\ forall names values errors f method w0,
       _get_opt_result (__init__ names values errors f method, w0)
       = (Raise MinimizerScipyOptimizeException,
          (__init__ names values errors f method, w0)).
Proof.
  intros H.
  destruct (minimize_success _ _ _ _ _ H)
    as (r & w1 & Hs & Ho & Hv & Hf & _ & Hn & Hb & Hx & Hm & He & Ht & Hh).
  split; [| repeat split; assumption].
  exists r, w1. split; [exact Hs |].
  split; [apply function_value_cached; exact Hf |].
  split; [| exact Hv].
  unfold _get_opt_result, bind, get_self. simpl. rewrite Ho. reflexivity.
Qed.

(** ** contour *)

(** X9.  [contour] refuses what it does not know before it does anything:
    an algorithm other than the two, any further keyword for the
    heuristic grid, and any keyword at all for the beacon tracer (the
    options of the heuristic grid included) raise
    MinimizerScipyOptimizeException with the object and the world as they
    were. *)
Theorem contour_rejects_unknown_options
        (refine : grid_setup -> Q -> Z -> Q -> M W Contour)
        (p1 p2 : string) (sigma : Q) (kw : contour_kwargs) s :
  (default "heuristic_grid"%string (kw_algorithm kw) <> "beacon"%string
   /\ default "heuristic_grid"%string (kw_algorithm kw)
      <> "heuristic_grid"%string)
  \/ (default "heuristic_grid"%string (kw_algorithm kw) = "beacon"%string
      /\ kwargs_left kw = true)
  \/ (default "heuristic_grid"%string (kw_algorithm kw)
      = "heuristic_grid"%string
      /\ kw_other kw <> []) ->
  contour lib refine p1 p2 sigma kw s
  = (Raise MinimizerScipyOptimizeException, s).
Proof.
  intros H. unfold contour.
  destruct H as [[Hb Hg] | [[Hb Hl] | [Hg Ho]]].
  - apply String.eqb_neq in Hb, Hg. rewrite Hb, Hg. reflexivity.
  - rewrite Hb, Hl. reflexivity.
  - rewrite Hg. cbn [String.eqb Ascii.eqb Bool.eqb].
    destruct (kw_other kw); [contradiction | reflexivity].
Qed.

(** ** profile *)

Lemma mapM_length {A B} (f : A -> M W B) (l : list A) (ys : list B) s s' :
  mapM f l s = (Ok ys, s') -> List.length ys = List.length l.
Proof.
  revert ys s s'. induction l as [| a l IH]; intros ys s s' H; simpl in H.
  - injection H as <- _. reflexivity.
  - apply bind_ok_inv in H as (b & s1 & _ & H).
    apply bind_ok_inv in H as (bs & s2 & Hm & H).
    injection H as <- _. simpl. rewrite (IH _ _ _ Hm). reflexivity.
Qed.

Lemma profile_returns (name : string) (bins : nat) (bound : Q)
      (subtract_min : bool) self w (par y : list Q) s' :
  profile lib name bins bound subtract_min (self, w) = (Ok (par, y), s') ->
  exists (i : nat) (e m : Q),
    PyList.index name (_par_names self) = Some i
    /\ nth_error (_par_err self) i = Some e
    /\ nth_error (_par_val self) i = Some m
    /\ par = Np.linspace (m - bound * e) (m + bound * e) bins
    /\ List.length y = bins.
Proof.
  unfold profile. intros H.
  rewrite (bind_pure _ (index_of_run name (self, w))) in H. cbn [fst] in H.
  destruct (PyList.index name (_par_names self)) as [i |] eqn:Ei;
    [| discriminate H].
  rewrite (bind_pure _ (get_self_run (self, w))) in H. cbn [fst] in H.
  rewrite (bind_pure _ (getitem_run (_par_err self) i (self, w))) in H.
  destruct (nth_error (_par_err self) i) as [e |] eqn:Ee; [| discriminate H].
  rewrite (bind_pure _ (getitem_run (_par_val self) i (self, w))) in H.
  destruct (nth_error (_par_val self) i) as [m |] eqn:Em; [| discriminate H].
  apply bind_ok_inv in H as (off & s1 & _ & H).
  apply bind_ok_inv in H as (ys & s2 & Hm & H).
  apply bind_ok_inv in H as (self2 & s3 & _ & H).
  apply bind_ok_inv in H as (v & s4 & _ & H).
  injection H as <- <- _.
  exists i, e, m. repeat split; try assumption.
  rewrite (mapM_length _ _ _ _ _ Hm). apply linspace_length.
Qed.

(** X10.  A [profile] that returns gives [bins] parameter values and
    [bins] costs.  The values are those of [numpy.linspace] from the
    stored value of the parameter minus [bound] times its stored error
    to the value plus [bound] times the error: with two bins or more the
    first is the start, the last is the stop itself, and the [k]-th in
    between is [k * step + start] with
    [step = (stop - start) / (bins - 1)]. *)
Theorem profile_shape (name : string) (bins : nat) (bound : Q)
        (subtract_min : bool) self w (par y : list Q) s' :
  profile lib name bins bound subtract_min (self, w) = (Ok (par, y), s') ->
  exists (i : nat) (e m : Q),
    PyList.index name (_par_names self) = Some i
    /\ nth_error (_par_err self) i = Some e
    /\ nth_error (_par_val self) i = Some m
    /\ List.length par = bins
    /\ List.length y = bins
    /\ ((2 <= bins)%nat ->
        nth 0 par 0 == m - bound * e
        /\ nth_error par (bins - 1) = Some (m + bound * e)
        /\ forall k, (k < bins - 1)%nat ->
             nth_error par k
             = Some (inject_Z (Z.of_nat k)
                     * ((m + bound * e - (m - bound * e))
                        / inject_Z (Z.of_nat (bins - 1)))
                     + (m - bound * e))).
Proof.
  intros H.
  destruct (profile_returns _ _ _ _ _ _ _ _ _ H)
    as (i & e & m & Hi & He & Hm & -> & Hy).
  exists i, e, m.
  do 3 (split; [assumption |]).
  split; [apply linspace_length |].
  split; [exact Hy |].
  intros Hb. destruct bins as [| [| d]]; try lia.
  replace (S (S d) - 1)%nat with (S d) by lia.
  unfold Np.linspace.
  assert (Hlen : List.length
                   (map (fun i0 : nat =>
                           inject_Z (Z.of_nat i0)
                           * ((m + bound * e - (m - bound * e))
                              / inject_Z (Z.of_nat (S d)))
                           + (m - bound * e))
                        (seq 0 (S d))) = S d)
    by (rewrite length_map; apply length_seq).
  split; [| split].
  - simpl. ring.
  - rewrite nth_error_app2 by (rewrite Hlen; lia).
    rewrite Hlen, Nat.sub_diag. reflexivity.
  - intros k Hk. rewrite nth_error_app1 by (rewrite Hlen; exact Hk).
    rewrite nth_error_map, nth_error_seq.
    destruct (Nat.ltb_spec k (S d)) as [_ | Hc]; [reflexivity | lia].
Qed.

(** ** The coarse grid *)

Lemma heuristic_grid_setup_fields
      (p1 p2 : string) (sigma : Q) (ip it : Z) (asf : Q) s
      (gs : grid_setup) s' :
  _contour_heuristic_grid_setup (W := W) p1 p2 sigma ip it asf s
  = (Ok gs, s') ->
  (1 <= ip)%Z /\ (0 <= it)%Z
  /\ gs_target_points_per_axis gs = target_points_per_axis ip it
  /\ gs_x_step gs = ((target_points_per_axis ip it - 1) / (1 + ip * 2 - 1))%Z
  /\ gs_y_step gs = ((target_points_per_axis ip it - 1) / (1 + ip * 2 - 1))%Z
  /\ List.length (gs_x_values gs)
     = Z.to_nat (target_points_per_axis ip it)
  /\ List.length (gs_y_values gs)
     = Z.to_nat (target_points_per_axis ip it)
  /\ gs_grid gs = Np.zeros_minus_one (Z.to_nat (target_points_per_axis ip it)).
Proof.
  unfold _contour_heuristic_grid_setup. intros H.
  destruct (Z.ltb_spec ip 1) as [H1 | H1]; [discriminate H |].
  rewrite (bind_ok _ (eq_refl : ret tt s = (Ok tt, s))) in H.
  destruct (Z.ltb_spec it 0) as [H2 | H2]; [discriminate H |].
  rewrite (bind_ok _ (eq_refl : ret tt s = (Ok tt, s))) in H.
  repeat (apply bind_ok_inv in H as (? & ? & _ & H)).
  injection H as <- _.
  cbn [gs_target_points_per_axis gs_x_step gs_y_step gs_x_values
       gs_y_values gs_grid].
  fold (target_points_per_axis ip it).
  repeat split; try assumption;
    unfold Np.add_scalar; rewrite length_map; apply linspace_length.
Qed.

Lemma coarse_stride (ip it : Z) :
  (1 <= ip)%Z -> (0 <= it)%Z ->
  ((target_points_per_axis ip it - 1) / (1 + ip * 2 - 1) = 2 ^ it)%Z
  /\ ((target_points_per_axis ip it - 0 + 2 ^ it - 1) / 2 ^ it
      = 2 * ip + 1)%Z
  /\ ((target_points_per_axis ip it - 1) / 2 = ip * 2 ^ it)%Z.
Proof.
  intros Hip Hit.
  assert (P : (0 < 2 ^ it)%Z) by (apply Z.pow_pos_nonneg; lia).
  assert (E : (target_points_per_axis ip it = 1 + 2 ^ it * (2 * ip))%Z).
  { unfold target_points_per_axis. rewrite Z.pow_add_r by lia.
    rewrite Z.pow_1_r. ring. }
  rewrite E. repeat split.
  - replace (1 + 2 ^ it * (2 * ip) - 1)%Z with (2 ^ it * (2 * ip))%Z by ring.
    replace (1 + ip * 2 - 1)%Z with (2 * ip)%Z by ring.
    apply Z.div_mul. lia.
  - replace (1 + 2 ^ it * (2 * ip) - 0 + 2 ^ it - 1)%Z
      with ((2 * ip + 1) * 2 ^ it)%Z by ring.
    apply Z.div_mul. lia.
  - replace (1 + 2 ^ it * (2 * ip) - 1)%Z with (ip * 2 ^ it * 2)%Z by ring.
    apply Z.div_mul. lia.
Qed.

(** X11.  When the heuristic grid has been laid out, the stride of the
    coarse evaluation is [2^iterations] on both axes, and
    [range(0, N, stride)] visits the [2 * initial_points + 1] indices
    [k * 2^iterations]: among them the first index, the last index [N - 1]
    and the index [(N - 1) / 2] of the best-fit point, which line 324
    reads. *)
Theorem coarse_grid_stride
        (p1 p2 : string) (sigma : Q) (initial_points iterations : Z)
        (area_scale_factor : Q) s (gs : grid_setup) s' :
  _contour_heuristic_grid_setup (W := W) p1 p2 sigma initial_points
                                iterations area_scale_factor s
  = (Ok gs, s') ->
  gs_x_step gs = (2 ^ iterations)%Z
  /\ gs_y_step gs = (2 ^ iterations)%Z
  /\ exists visited : list Z,
       Py.range 0 (gs_target_points_per_axis gs) (gs_x_step gs) = Ok visited
       /\ visited
          = map (fun k => (0 + Z.of_nat k * 2 ^ iterations)%Z)
                (seq 0 (Z.to_nat (2 * initial_points + 1)))
       /\ In 0%Z visited
       /\ In ((gs_target_points_per_axis gs - 1) / 2)%Z visited
       /\ In (gs_target_points_per_axis gs - 1)%Z visited.
Proof.
  intros H.
  destruct (heuristic_grid_setup_fields _ _ _ _ _ _ _ _ _ H)
    as (Hip & Hit & Hn & Hx & Hy & _).
  destruct (coarse_stride initial_points iterations Hip Hit)
    as (Hs & Hc & Hm).
  rewrite Hx, Hy, Hn, Hs.
  assert (P : (0 < 2 ^ iterations)%Z) by (apply Z.pow_pos_nonneg; lia).
  split; [reflexivity | split; [reflexivity |]].
  eexists. split; [| split; [reflexivity |]].
  - unfold Py.range.
    destruct (Z.eqb_spec (2 ^ iterations) 0) as [E0 | _]; [lia |].
    destruct (Z.ltb_spec 0 (2 ^ iterations)) as [_ | E1]; [| lia].
    rewrite Hc. reflexivity.
  - repeat split; apply in_map_iff.
    + exists 0%nat. split; [reflexivity |]. apply in_seq. lia.
    + exists (Z.to_nat initial_points). split.
      * rewrite Hm. rewrite Z2Nat.id by lia. ring.
      * apply in_seq. lia.
    + exists (Z.to_nat (2 * initial_points)). split.
      * rewrite Z2Nat.id by lia. unfold target_points_per_axis.
        rewrite Z.pow_add_r by lia. rewrite Z.pow_1_r. ring.
      * apply in_seq. lia.
Qed.

(** ** The beacon walk, continued *)






(** X13.  A pass of the beacon loop whose chosen candidate lies above the
    backtracking angle while the contour holds a single point (as it does
    in the first pass, where it holds the start point) empties the contour
    and raises IndexError on reading its last point. *)
Theorem beacon_backtrack_on_single_point
        (env : beacon_env) (st : beacon_walk_state) s s1
        (i : nat) (p x : point) (f a : Q) :
  beacon_select lib env st s = (Ok (i, p), s1) ->
  nth_error (_curvature_adjustion_factors env) i = Some f ->
  nth_error (_stretched_absolute_angles env) i = Some a ->
  BACKTRACK_ANGLE < a ->
  _contour_coords st = [x] ->
  beacon_iteration lib env st s = (Raise IndexError, s1).
Proof.
  intros Hsel Hf Ha Hlt Hc. unfold beacon_iteration.
  rewrite (bind_ok _ Hsel).
  rewrite (bind_pure _ (getitem_run _ i s1)), Hf.
  assert (Hacc : accept_or_backtrack env i p (_contour_coords st) s1
                 = (Ok [], s1)).
  { unfold accept_or_backtrack.
    rewrite (bind_pure _ (getitem_run _ i s1)), Ha.
    apply Qgtb_lt in Hlt. rewrite Hlt, Hc. reflexivity. }
  rewrite (bind_ok _ Hacc). reflexivity.
Qed.

Lemma beacon_pass_keeps_head (env : beacon_env)
      (st st' : beacon_walk_state) (go : bool) s s' (x0 : point)
      (rest : list point) :
  _contour_coords st = x0 :: rest ->
  beacon_iteration lib env st s = (Ok (st', go), s') ->
  (exists rest', _contour_coords st' = x0 :: rest')
  /\ PyList.last_item (_contour_coords st') = Some (_coords st')
  /\ (List.length (_contour_coords st') = S (List.length (_contour_coords st))
      \/ S (List.length (_contour_coords st'))
         = List.length (_contour_coords st)).
Proof.
  intros Hc H.
  apply beacon_iteration_inv in H
    as (i & p & a & s1 & _ & _ & Hcc & Hlast & _).
  split; [| split; [exact Hlast |]].
  - rewrite Hcc in Hlast. rewrite Hcc, Hc. rewrite Hc in Hlast.
    destruct (Qgtb a BACKTRACK_ANGLE).
    + destruct rest as [| r rest].
      * discriminate Hlast.
      * exists (removelast (r :: rest)). reflexivity.
    + exists (rest ++ [p]). reflexivity.
  - rewrite Hcc. destruct (Qgtb a BACKTRACK_ANGLE).
    + right. rewrite Hc.
      assert (Hne : x0 :: rest <> []) by discriminate.
      pose proof (app_removelast_last x0 Hne) as E.
      rewrite E at 2. rewrite length_app. simpl. lia.
    + left. rewrite length_app. simpl. lia.
Qed.

(** X14.  The contour of the beacon walk keeps its first point: a walk
    that comes back from the loop returns a contour that begins with the
    point its contour began with (the start point, for the tracer) and
    ends with the walker's position; each pass that returns makes the
    contour one point longer or one point shorter. *)
Theorem beacon_contour_keeps_start
        (fuel : nat) (env : beacon_env) (st st' : beacon_walk_state) s s'
        (x0 : point) (rest : list point) :
  _contour_coords st = x0 :: rest ->
  beacon_walk lib fuel env st s = (Ok (Some st'), s') ->
  (exists rest', _contour_coords st' = x0 :: rest')
  /\ PyList.last_item (_contour_coords st') = Some (_coords st')
  /\ (forall (st1 : beacon_walk_state) (go : bool) s1,
        beacon_iteration lib env st s = (Ok (st1, go), s1) ->
        List.length (_contour_coords st1) = S (List.length (_contour_coords st))
        \/ S (List.length (_contour_coords st1))
           = List.length (_contour_coords st)).
Proof.
  intros Hc H. split; [| split].
  - revert st s rest Hc H.
    induction fuel as [| fuel IH]; intros st s rest Hc H; [discriminate H |].
    simpl beacon_walk in H.
    apply bind_ok_inv in H as ([st1 go] & s1 & Hit & H).
    destruct (beacon_pass_keeps_head _ _ _ _ _ _ _ _ Hc Hit)
      as ((rest1 & Hc1) & _).
    cbn [fst snd] in H. destruct go.
    + apply (IH st1 s1 rest1 Hc1 H).
    + injection H as <- _. exists rest1. exact Hc1.
  - revert st s rest Hc H.
    induction fuel as [| fuel IH]; intros st s rest Hc H; [discriminate H |].
    simpl beacon_walk in H.
    apply bind_ok_inv in H as ([st1 go] & s1 & Hit & H).
    destruct (beacon_pass_keeps_head _ _ _ _ _ _ _ _ Hc Hit)
      as ((rest1 & Hc1) & Hl & _).
    cbn [fst snd] in H. destruct go.
    + apply (IH st1 s1 rest1 Hc1 H).
    + injection H as <- _. exact Hl.
  - intros st1 go s1 Hit.
    apply (beacon_pass_keeps_head _ _ _ _ _ _ _ _ Hc Hit).
Qed.

(** ** The heuristic grid: neighbours and cropping *)

(** ** The evaluation of a grid point from its neighbours *)

Lemma fold_max_spec (l : list Q) (v : Q) :
  let m := fold_left (fun m x => if Qltb m x then x else m) l v in
  In m (v :: l) /\ v <= m /\ Forall (fun x => x <= m) l.
Proof.
  revert v. induction l as [| x l IH]; intros v; simpl.
  - split; [left; reflexivity | split; [apply Qle_refl | constructor]].
  - destruct (Qltb v x) eqn:E.
    + destruct (IH x) as (Hin & Hle & Hall). apply Qltb_lt in E.
      split; [right; exact Hin |].
      split; [apply Qlt_le_weak; apply (Qlt_le_trans _ _ _ E Hle) |].
      constructor; assumption.
    + destruct (IH v) as (Hin & Hle & Hall).
      assert (Hx : x <= v).
      { unfold Qltb in E. apply negb_false_iff in E.
        apply Qle_bool_iff in E. exact E. }
      split; [destruct Hin as [<- | Hin]; [left; reflexivity | right; right; exact Hin] |].
      split; [exact Hle |].
      constructor; [apply (Qle_trans _ _ _ Hx Hle) | exact Hall].
Qed.

Lemma fold_min_spec (l : list Q) (v : Q) :
  let m := fold_left (fun m x => if Qltb x m then x else m) l v in
  In m (v :: l) /\ m <= v /\ Forall (fun x => m <= x) l.
Proof.
  revert v. induction l as [| x l IH]; intros v; simpl.
  - split; [left; reflexivity | split; [apply Qle_refl | constructor]].
  - destruct (Qltb x v) eqn:E.
    + destruct (IH x) as (Hin & Hle & Hall). apply Qltb_lt in E.
      split; [right; exact Hin |].
      split; [apply Qlt_le_weak; apply (Qle_lt_trans _ _ _ Hle E) |].
      constructor; assumption.
    + destruct (IH v) as (Hin & Hle & Hall).
      assert (Hx : v <= x).
      { unfold Qltb in E. apply negb_false_iff in E.
        apply Qle_bool_iff in E. exact E. }
      split; [destruct Hin as [<- | Hin]; [left; reflexivity | right; right; exact Hin] |].
      split; [exact Hle |].
      constructor; [apply (Qle_trans _ _ _ Hle Hx) | exact Hall].
Qed.

Lemma amax_spec (a : list Q) (m : Q) :
  NpReduce.amax a = Some m -> In m a /\ Forall (fun x => x <= m) a.
Proof.
  destruct a as [| v a]; [discriminate |]. intros H. injection H as <-.
  destruct (fold_max_spec a v) as (Hin & Hle & Hall).
  split; [exact Hin | constructor; assumption].
Qed.

Lemma amin_spec (a : list Q) (m : Q) :
  NpReduce.amin a = Some m -> In m a /\ Forall (fun x => m <= x) a.
Proof.
  destruct a as [| v a]; [discriminate |]. intros H. injection H as <-.
  destruct (fold_min_spec a v) as (Hin & Hle & Hall).
  split; [exact Hin | constructor; assumption].
Qed.

Lemma sum_below (c : Q) (a : list Q) :
  a <> [] -> Forall (fun v => v < c) a ->
  NpReduce.sum a < inject_Z (Z.of_nat (List.length a)) * c.
Proof.
  induction a as [| v a IH]; intros Hne Hall; [contradiction |].
  inversion Hall as [| ? ? Hv Ha]; subst.
  change (NpReduce.sum (v :: a)) with (v + NpReduce.sum a).
  change (List.length (v :: a)) with (S (List.length a)).
  rewrite Nat2Z.inj_succ. unfold Z.succ. rewrite inject_Z_plus.
  change (inject_Z 1) with 1.
  destruct a as [| x a'].
  - change (v + 0 < (0 + 1) * c). lra.
  - assert (H := IH ltac:(discriminate) Ha). lra.
Qed.

Lemma sum_above (c : Q) (a : list Q) :
  a <> [] -> Forall (fun v => c < v) a ->
  inject_Z (Z.of_nat (List.length a)) * c < NpReduce.sum a.
Proof.
  induction a as [| v a IH]; intros Hne Hall; [contradiction |].
  inversion Hall as [| ? ? Hv Ha]; subst.
  change (NpReduce.sum (v :: a)) with (v + NpReduce.sum a).
  change (List.length (v :: a)) with (S (List.length a)).
  rewrite Nat2Z.inj_succ. unfold Z.succ. rewrite inject_Z_plus.
  change (inject_Z 1) with 1.
  destruct a as [| x a'].
  - change ((0 + 1) * c < v + 0). lra.
  - assert (H := IH ltac:(discriminate) Ha). lra.
Qed.

Lemma length_positive (a : list Q) :
  a <> [] -> 0 < inject_Z (Z.of_nat (List.length a)).
Proof.
  intros H. destruct a; [contradiction |].
  replace 0 with (inject_Z 0) by reflexivity. rewrite <- Zlt_Qlt.
  simpl List.length. lia.
Qed.

Lemma mean_below (c : Q) (a : list Q) :
  a <> [] -> Forall (fun v => v < c) a -> NpReduce.mean a < c.
Proof.
  intros Hne Hall. unfold NpReduce.mean.
  apply Qlt_shift_div_r; [apply length_positive; exact Hne |].
  rewrite Qmult_comm. apply sum_below; assumption.
Qed.

Lemma mean_above (c : Q) (a : list Q) :
  a <> [] -> Forall (fun v => c < v) a -> c < NpReduce.mean a.
Proof.
  intros Hne Hall. unfold NpReduce.mean.
  apply Qlt_shift_div_l; [apply length_positive; exact Hne |].
  rewrite Qmult_comm. apply sum_above; assumption.
Qed.

Lemma Forall_In_lt (P : Q -> Prop) (a : list Q) (m : Q) :
  In m a -> Forall P a -> P m.
Proof. intros Hin Hall. rewrite Forall_forall in Hall. auto. Qed.

(** X17.  [_heuristic_point_evaluation] looks at no more than four
    neighbours.  With none of them on the grid it raises ValueError (the
    maximum of an empty array); with all of them strictly below the
    contour level, or all strictly above it, it returns their mean, and
    the mean lies on the same side of the level; with one neighbour at or
    above the level and one at or below it, it returns -1, which tells
    the caller to evaluate the point itself. *)
Theorem heuristic_point_evaluation_sides
        (contour_fun : Q) (grid : matrix) (x y : Z) (vector_1 vector_2 : Z * Z) :
  let pts := _get_adjacent_grid_points grid x y vector_1 vector_2 in
  (List.length pts <= 4)%nat
  /\ (pts = [] ->
      _heuristic_point_evaluation contour_fun grid x y vector_1 vector_2
      = Raise ValueError)
  /\ (pts <> [] -> Forall (fun v => v < contour_fun) pts ->
      _heuristic_point_evaluation contour_fun grid x y vector_1 vector_2
      = Ok (NpReduce.mean pts)
      /\ NpReduce.mean pts < contour_fun)
  /\ (pts <> [] -> Forall (fun v => contour_fun < v) pts ->
      _heuristic_point_evaluation contour_fun grid x y vector_1 vector_2
      = Ok (NpReduce.mean pts)
      /\ contour_fun < NpReduce.mean pts)
  /\ (Exists (fun v => contour_fun <= v) pts ->
      Exists (fun v => v <= contour_fun) pts ->
      _heuristic_point_evaluation contour_fun grid x y vector_1 vector_2
      = Ok (-1)).
Proof.
  intros pts. unfold _heuristic_point_evaluation. fold pts.
  split; [| split; [| split; [| split]]].
  - unfold pts, _get_adjacent_grid_points. rewrite length_map.
    apply (filter_length_le (on_grid grid)
             (adjacent_places x y vector_1 vector_2)).
  - intros ->. reflexivity.
  - intros Hne Hall. split; [| apply mean_below; assumption].
    destruct (NpReduce.amax pts) as [mx |] eqn:Ex;
      [| destruct pts; [contradiction | discriminate Ex]].
    destruct (amax_spec _ _ Ex) as [Hin _].
    assert (Hlt : mx < contour_fun) by apply (Forall_In_lt _ _ _ Hin Hall).
    apply Qltb_lt in Hlt. rewrite Hlt. reflexivity.
  - intros Hne Hall. split; [| apply mean_above; assumption].
    destruct (NpReduce.amax pts) as [mx |] eqn:Ex;
      [| destruct pts; [contradiction | discriminate Ex]].
    destruct (amax_spec _ _ Ex) as [Hin _].
    assert (Hlt : contour_fun < mx) by apply (Forall_In_lt _ _ _ Hin Hall).
    destruct (Qltb mx contour_fun) eqn:E; [reflexivity |].
    destruct (NpReduce.amin pts) as [mn |] eqn:En;
      [| destruct pts; [contradiction | discriminate En]].
    destruct (amin_spec _ _ En) as [Hin' _].
    assert (Hgt : contour_fun < mn) by apply (Forall_In_lt _ _ _ Hin' Hall).
    apply Qgtb_lt in Hgt. rewrite Hgt. reflexivity.
  - intros Hup Hdown.
    apply Exists_exists in Hup as (u & Hu & Hcu).
    apply Exists_exists in Hdown as (d & Hd & Hdc).
    destruct (NpReduce.amax pts) as [mx |] eqn:Ex;
      [| destruct pts; [contradiction | discriminate Ex]].
    destruct (amax_spec _ _ Ex) as [_ Hmax].
    assert (Hum : u <= mx) by apply (Forall_In_lt _ _ _ Hu Hmax).
    assert (E : Qltb mx contour_fun = false).
    { destruct (Qltb mx contour_fun) eqn:E; [| reflexivity].
      apply Qltb_lt in E. lra. }
    rewrite E.
    destruct (NpReduce.amin pts) as [mn |] eqn:En;
      [| destruct pts; [contradiction | discriminate En]].
    destruct (amin_spec _ _ En) as [_ Hmin].
    assert (Hdm : mn <= d) by apply (Forall_In_lt _ _ _ Hd Hmin).
    assert (E' : Qgtb mn contour_fun = false) by (apply Qgtb_le; lra).
    rewrite E'. reflexivity.
Qed.

(** ** The cropping of the heuristic grid *)

Lemma scan_down_spec (grid : matrix) (c : Q) (k : nat) (h : Z) :
  scan_down grid c k = Ok h ->
  (0 <= h <= Z.of_nat k)%Z
  /\ (forall j, (h < j <= Z.of_nat k)%Z ->
        exists m, row_min grid j = Ok m /\ c < m)
  /\ ((0 < h)%Z -> exists m, row_min grid h = Ok m /\ m <= c).
Proof.
  revert h. induction k as [| k IH]; intros h H.
  - injection H as <-. repeat split; try lia; intros; lia.
  - cbn [scan_down] in H. unfold result_bind in H.
    destruct (row_min grid (Z.of_nat (S k))) as [m | e] eqn:Em;
      [| discriminate H].
    destruct (Qgtb m c) eqn:E.
    + destruct (IH h H) as (Hb & Hp & Hs).
      split; [lia | split; [| exact Hs]].
      intros j Hj. destruct (Z.eq_dec j (Z.of_nat (S k))) as [-> | Hn].
      * exists m. split; [exact Em | apply Qgtb_lt; exact E].
      * apply Hp. lia.
    + injection H as <-. split; [lia | split].
      * intros j Hj. lia.
      * intros _. exists m. split; [exact Em | apply Qgtb_le; exact E].
Qed.

Lemma scan_up_spec (grid : matrix) (c : Q) (gap : nat) (k l : Z) :
  scan_up grid c k gap = Ok l ->
  (k <= l <= k + Z.of_nat gap)%Z
  /\ (forall j, (k <= j < l)%Z -> exists m, row_min grid j = Ok m /\ c < m)
  /\ ((l < k + Z.of_nat gap)%Z ->
      exists m, row_min grid l = Ok m /\ m <= c).
Proof.
  revert k l. induction gap as [| gap IH]; intros k l H.
  - injection H as <-. repeat split; try lia; intros; lia.
  - cbn [scan_up] in H. unfold result_bind in H.
    destruct (row_min grid k) as [m | e] eqn:Em; [| discriminate H].
    destruct (Qgtb m c) eqn:E.
    + destruct (IH _ _ H) as (Hb & Hp & Hs).
      split; [lia | split].
      * intros j Hj. destruct (Z.eq_dec j k) as [-> | Hn].
        -- exists m. split; [exact Em | apply Qgtb_lt; exact E].
        -- apply Hp. lia.
      * intros Hl. apply Hs. lia.
    + injection H as <-. split; [lia | split].
      * intros j Hj. lia.
      * intros _. exists m. split; [exact Em | apply Qgtb_le; exact E].
Qed.

Lemma cutoffs_inv (grid : matrix) (c : Q) (N pad low high : Z) :
  (1 <= N)%Z ->
  cutoffs grid c N pad = Ok (low, high) ->
  exists h l : Z,
    scan_down grid c (Z.to_nat (N - 1)) = Ok h
    /\ high = Z.min (h + pad) (N - 1)
    /\ scan_up grid c 0 (Z.to_nat high) = Ok l
    /\ low = Z.max (l - pad) 0.
Proof.
  intros HN H. unfold cutoffs, result_bind in H.
  destruct (Z.ltb_spec 0 (N - 1)) as [Hp | Hp].
  - destruct (scan_down grid c (Z.to_nat (N - 1))) as [h | e] eqn:Eh;
      [| discriminate H].
    destruct (scan_up grid c 0 (Z.to_nat (Z.min (h + pad) (N - 1))))
      as [l | e] eqn:El; [| discriminate H].
    injection H as <- <-. exists h, l. repeat split. exact El.
  - assert (E : (N - 1 = 0)%Z) by lia. rewrite E in *.
    destruct (scan_up grid c 0 (Z.to_nat (Z.min (0 + pad) 0)))
      as [l | e] eqn:El; [| discriminate H].
    injection H as <- <-. exists 0%Z, l. repeat split. exact El.
Qed.

Lemma row_min_sides (grid : matrix) (c : Q) (k : Z) (m m' : Q) :
  row_min grid k = Ok m -> m <= c -> row_min grid k = Ok m' -> c < m' ->
  False.
Proof. intros H1 Hle H2 Hlt. rewrite H1 in H2. injection H2 as <-. lra. Qed.

(** The cut-offs lie on the grid, the low one not above the high one. *)
Lemma cutoffs_bounds
      (grid : matrix) (_contour_fun : Q)
      (_target_points_per_axis _padding low high : Z) :
  (1 <= _target_points_per_axis)%Z -> (0 <= _padding)%Z ->
  cutoffs grid _contour_fun _target_points_per_axis _padding
  = Ok (low, high) ->
  (0 <= low <= high)%Z /\ (high <= _target_points_per_axis - 1)%Z.
Proof.
  intros HN Hpad H.
  destruct (cutoffs_inv _ _ _ _ _ _ HN H) as (h & l & Hd & -> & Hu & ->).
  destruct (scan_down_spec _ _ _ _ Hd) as (Hh & _).
  rewrite Z2Nat.id in Hh by lia.
  destruct (scan_up_spec _ _ _ _ _ Hu) as (Hl & _).
  rewrite Z2Nat.id in Hl by lia.
  split; lia.
Qed.

(** X18.  The cut-offs of the crop, for a grid of at least one row and
    a padding that is not negative: they lie between 0 and the last
    index with the low one not above the high one; every row that dips to
    the contour level or below lies between them, and with a padding of
    one or more every such row but the last of the grid lies strictly
    below the high cut-off, which the slice leaves out.  With a padding
    of zero the high cut-off, when positive, is itself a row that dips to
    the level, so the slice drops that row. *)
Theorem cutoffs_keep_rows
        (grid : matrix) (_contour_fun : Q)
        (_target_points_per_axis _padding low high : Z) :
  (1 <= _target_points_per_axis)%Z -> (0 <= _padding)%Z ->
  cutoffs grid _contour_fun _target_points_per_axis _padding
  = Ok (low, high) ->
  (0 <= low <= high)%Z
  /\ (high <= _target_points_per_axis - 1)%Z
  /\ (forall (k : Z) (m : Q),
        (0 <= k < _target_points_per_axis)%Z ->
        row_min grid k = Ok m -> m <= _contour_fun ->
        (low <= k <= high)%Z
        /\ ((1 <= _padding)%Z -> (k < _target_points_per_axis - 1)%Z ->
            (k < high)%Z))
  /\ (_padding = 0%Z -> (0 < high)%Z ->
      exists m, row_min grid high = Ok m /\ m <= _contour_fun).
Proof.
  intros HN Hpad H.
  destruct (cutoffs_inv _ _ _ _ _ _ HN H) as (h & l & Hd & -> & Hu & ->).
  destruct (scan_down_spec _ _ _ _ Hd) as (Hh & Hpass & Hstop).
  rewrite Z2Nat.id in Hh, Hpass by lia.
  destruct (scan_up_spec _ _ _ _ _ Hu) as (Hl & Hpass' & Hstop').
  rewrite Z2Nat.id in Hl, Hstop' by lia.
  split; [lia | split; [lia | split]].
  - intros k m Hk Hm Hle.
    assert (Hkh : (k <= h)%Z).
    { destruct (Z_le_gt_dec k h) as [Hc | Hc]; [exact Hc | exfalso].
      destruct (Hpass k) as (m' & Hm' & Hlt); [lia |].
      exact (row_min_sides _ _ _ _ _ Hm Hle Hm' Hlt). }
    assert (Hlk : (l <= k)%Z).
    { destruct (Z_le_gt_dec l k) as [Hc | Hc]; [exact Hc | exfalso].
      destruct (Hpass' k) as (m' & Hm' & Hlt); [lia |].
      exact (row_min_sides _ _ _ _ _ Hm Hle Hm' Hlt). }
    split; lia.
  - intros -> Hhigh.
    replace (Z.min (h + 0) (_target_points_per_axis - 1)) with h in * by lia.
    apply Hstop. exact Hhigh.
Qed.

(** ** Slices and transposes *)

Lemma slice_length {A} (l : list A) (a b : Z) :
  (0 <= a <= b)%Z -> (b <= Z.of_nat (List.length l))%Z ->
  List.length (Py.slice l a b) = Z.to_nat (b - a).
Proof.
  intros Ha Hb. unfold Py.slice, Py.slice_bound.
  destruct (Z.ltb_spec a 0) as [H0 | _]; [lia |].
  destruct (Z.ltb_spec b 0) as [H0 | _]; [lia |].
  rewrite length_firstn, length_skipn. lia.
Qed.

Lemma transpose_shape (ncols : nat) (m : matrix) :
  List.length (NpReduce.transpose ncols m) = ncols
  /\ Forall (fun row => List.length row = List.length m)
            (NpReduce.transpose ncols m).
Proof.
  unfold NpReduce.transpose. split.
  - rewrite length_map. apply length_seq.
  - apply Forall_forall. intros row Hr.
    apply in_map_iff in Hr as (j & <- & _). apply length_map.
Qed.

Lemma Qfloor_nonneg (q : Q) : 0 <= q -> (0 <= Qfloor q)%Z.
Proof. intros H. exact (Qfloor_resp_le 0 q H). Qed.

Lemma Qpower2_neg (e : Z) : (e < 0)%Z -> 2 ^ e <= 1.
Proof.
  intros He. destruct e as [| p | p]; try lia.
  change (2 ^ Z.neg p) with (/ (2 ^ Z.pos p)).
  assert (Hone : 1 <= 2 ^ Z.pos p).
  { rewrite <- (positive_nat_Z p).
    induction (Pos.to_nat p) as [| n IHn].
    - simpl. lra.
    - rewrite Nat2Z.inj_succ. unfold Z.succ.
      rewrite Qpower_plus by lra. simpl (2 ^ 1). nra. }
  apply Qle_shift_inv_r; lra.
Qed.

(** [max(1, 2 ** e)] is an int, whatever the sign of [e]. *)
Lemma max_pow2 (e : Z) :
  Py.max (Py.Int 1) (Py.pow2 e) = Py.Int (Z.max 1 (2 ^ e)).
Proof.
  unfold Py.max, Py.pow2. destruct (Z.ltb_spec e 0) as [Hn | Hp].
  - cbn [Py.value]. rewrite Z.pow_neg_r by exact Hn.
    assert (E : Qltb (inject_Z 1) (2 ^ e) = false).
    { unfold Qltb. apply negb_false_iff, Qle_bool_iff.
      apply Qpower2_neg. exact Hn. }
    rewrite E. reflexivity.
  - cbn [Py.value]. destruct (Qltb (inject_Z 1) (inject_Z (2 ^ e))) eqn:E.
    + apply Qltb_lt in E. rewrite <- Zlt_Qlt in E.
      rewrite Z.max_r by lia. reflexivity.
    + unfold Qltb in E. apply negb_false_iff, Qle_bool_iff in E.
      rewrite <- Zle_Qle in E. rewrite Z.max_l by lia. reflexivity.
Qed.

Lemma padding_int (z iterations : Z) :
  (0 < z)%Z ->
  heuristic_padding (Py.Int z) iterations
  = Ok (3 / z * Z.max 1 (2 ^ (iterations - 4)))%Z.
Proof.
  intros Hz. unfold heuristic_padding, Py.div.
  destruct (Z.eqb_spec z 0) as [E | _]; [lia |].
  cbn [result_bind]. rewrite max_pow2. reflexivity.
Qed.

Lemma padding_float (q : Q) (iterations : Z) :
  0 < q ->
  heuristic_padding (Py.Float q) iterations
  = Ok (Qfloor (3 / q * inject_Z (Z.max 1 (2 ^ (iterations - 4)))))
  /\ 0 < 3 / q * inject_Z (Z.max 1 (2 ^ (iterations - 4))).
Proof.
  intros Hq.
  assert (HM : 1 <= inject_Z (Z.max 1 (2 ^ (iterations - 4)))).
  { change 1 with (inject_Z 1). rewrite <- Zle_Qle. lia. }
  assert (Hpos : 0 < 3 / q * inject_Z (Z.max 1 (2 ^ (iterations - 4)))).
  { apply Qmult_lt_0_compat; [| lra].
    apply Qlt_shift_div_l; [exact Hq | lra]. }
  split; [| exact Hpos].
  unfold heuristic_padding, Py.div. cbn [Py.value].
  assert (E : Qeq_bool q 0 = false).
  { destruct (Qeq_bool q 0) eqn:E; [| reflexivity].
    apply Qeq_bool_eq in E. lra. }
  rewrite E. cbn [result_bind]. rewrite max_pow2.
  cbn [Py.mul Py.value Py.int_of]. unfold Py.int.
  assert (E' : Qle_bool 0 (inject_Z 3 / q
                           * inject_Z (Z.max 1 (2 ^ (iterations - 4))))
               = true)
    by (apply Qle_bool_iff, Qlt_le_weak; exact Hpos).
  rewrite E'. reflexivity.
Qed.

(** For a positive factor the padding is computed and is not negative. *)
Lemma padding_nonneg (area_scale_factor : Py.number) (iterations p : Z) :
  0 < Py.value area_scale_factor ->
  heuristic_padding area_scale_factor iterations = Ok p -> (0 <= p)%Z.
Proof.
  intros Hpos H. destruct area_scale_factor as [z | q]; cbn [Py.value] in Hpos.
  - assert (Hz : (0 < z)%Z)
      by (rewrite Zlt_Qlt; exact Hpos).
    assert (Hp : (3 / z * Z.max 1 (2 ^ (iterations - 4)))%Z = p)
      by (pose proof (padding_int z iterations Hz); congruence).
    rewrite <- Hp. apply Z.mul_nonneg_nonneg; [apply Z.div_pos; lia | lia].
  - destruct (padding_float q iterations Hpos) as [E Hq].
    assert (Hp : Qfloor (3 / q * inject_Z (Z.max 1 (2 ^ (iterations - 4))))
                 = p) by congruence.
    rewrite <- Hp. apply Qfloor_nonneg. lra.
Qed.

(** X19.  The padding of the crop,
    [int(3 / area_scale_factor * max(1, 2 ** (iterations - 4)))], for a
    positive [area_scale_factor]: it is computed and is never negative.
    For an int factor the division is Python 2's floor division: the
    padding is [(3 // factor) * max(1, 2 ** (iterations - 4))], which is
    zero exactly for the factors above 3, whatever the iterations.  For
    a float factor the padding is zero exactly when the factor exceeds
    three times [max(1, 2 ** (iterations - 4))]. *)
Theorem heuristic_padding_zero
        (area_scale_factor : Py.number) (iterations : Z) :
  0 < Py.value area_scale_factor ->
  let M := Z.max 1 (2 ^ (iterations - 4)) in
  exists _padding : Z,
    heuristic_padding area_scale_factor iterations = Ok _padding
    /\ (0 <= _padding)%Z
    /\ (forall z : Z, area_scale_factor = Py.Int z ->
        _padding = (3 / z * M)%Z /\ (_padding = 0%Z <-> (3 < z)%Z))
    /\ (forall q : Q, area_scale_factor = Py.Float q ->
        (_padding = 0%Z <-> 3 * inject_Z M < q)).
Proof.
  intros Hpos M.
  assert (HM : (1 <= M)%Z) by (unfold M; lia).
  destruct area_scale_factor as [z | q]; cbn [Py.value] in Hpos.
  - assert (Hz : (0 < z)%Z) by (rewrite Zlt_Qlt; exact Hpos).
    exists (3 / z * M)%Z.
    split; [apply padding_int; exact Hz |].
    split; [apply Z.mul_nonneg_nonneg; [apply Z.div_pos; lia | lia] |].
    split; [| intros q Hq; discriminate Hq].
    intros z' Hz'. injection Hz' as <-. split; [reflexivity |].
    split; intros H.
    + apply Z.mul_eq_0 in H as [H | H]; [| lia].
      apply Z.div_small_iff in H; lia.
    + rewrite Z.div_small by lia. reflexivity.
  - destruct (padding_float q iterations Hpos) as [E Hq]. fold M in E, Hq.
    exists (Qfloor (3 / q * inject_Z M)).
    split; [exact E |].
    split; [apply Qfloor_nonneg; lra |].
    split; [intros z Hz; discriminate Hz |].
    intros q' Hq'. injection Hq' as <-.
    assert (Hd : 3 / q * inject_Z M == 3 * inject_Z M / q) by (field; lra).
    rewrite (Qfloor_comp _ _ Hd). split; intros Hf.
    + pose proof (Qlt_floor (3 * inject_Z M / q)) as Hlt.
      rewrite Hf in Hlt. change (inject_Z (0 + 1)) with 1 in Hlt.
      apply (Qmult_lt_r _ _ q Hpos) in Hlt.
      assert (Hm : 3 * inject_Z M / q * q == 3 * inject_Z M)
        by (field; lra).
      lra.
    + assert (Hlo : (0 <= Qfloor (3 * inject_Z M / q))%Z).
      { apply Qfloor_nonneg. lra. }
      assert (Hhi : (Qfloor (3 * inject_Z M / q) < 1)%Z).
      { assert (Hq1 : 3 * inject_Z M / q < 1)
          by (apply Qlt_shift_div_r; [exact Hpos | lra]).
        pose proof (Qfloor_le (3 * inject_Z M / q)) as Hfl.
        rewrite Zlt_Qlt. change (inject_Z 1) with 1. lra. }
      lia.
Qed.

Lemma of_result_ok {A} (r : result A) (a : A) (s s1 : St W) :
  of_result r s = (Ok a, s1) -> r = Ok a /\ s1 = s.
Proof. unfold of_result. intros H. injection H as -> ->. split; reflexivity. Qed.

(** X20.  The cropped grid handed to [ContourFactory.create_grid_contour]
    fits its axes: it has one row for each value of the first axis and in
    each row one entry for each value of the second axis.  Both axes are
    strictly shorter than the [_target_points_per_axis] samples that were
    laid out, since the slices leave out the high cut-off, which is at
    most the last index; the minimizer object is as before the call.
    The factor may be an int or a float. *)
Theorem heuristic_grid_crop_shape
        (gs : grid_setup) (_grid : matrix) (_min_fun _contour_fun sigma : Q)
        (iterations : Z) (area_scale_factor : Py.number) (s s' : St W)
        (contour : Contour) :
  let n := Z.to_nat (gs_target_points_per_axis gs) in
  (1 <= gs_target_points_per_axis gs)%Z ->
  0 < Py.value area_scale_factor ->
  List.length _grid = n ->
  List.length (hd [] _grid) = n ->
  List.length (gs_x_values gs) = n ->
  List.length (gs_y_values gs) = n ->
  heuristic_grid_crop W Contour lib gs _grid _min_fun _contour_fun sigma
                      iterations area_scale_factor s
  = (Ok contour, s') ->
  exists (_x_values _y_values : list Q) (grid : matrix),
    contour = create_grid_contour lib _x_values _y_values grid sigma
    /\ (List.length _x_values < n)%nat
    /\ (List.length _y_values < n)%nat
    /\ List.length grid = List.length _x_values
    /\ Forall (fun row => List.length row = List.length _y_values) grid
    /\ fst s' = fst s.
Proof.
  intros n HN Hasf Hrows Hcols Hx Hy H.
  unfold heuristic_grid_crop in H. cbv zeta in H.
  apply bind_ok_inv in H as (_padding & s0 & Hp & H).
  apply of_result_ok in Hp as [Hp ->].
  assert (Hpad : (0 <= _padding)%Z)
    by (apply (padding_nonneg _ _ _ Hasf Hp)).
  apply bind_ok_inv in H as ([left right] & s1 & Hlr & H).
  apply of_result_ok in Hlr as [Hlr ->].
  apply bind_ok_inv in H as ([bottom top] & s2 & Hbt & H).
  apply of_result_ok in Hbt as [Hbt ->].
  cbn [fst snd] in H, Hbt.
  apply bind_ok_inv in H as (self & s3 & Hs & H).
  injection Hs as <- <-.
  apply bind_ok_inv in H as (v & s4 & Hu & H).
  injection H as <- <-.
  assert (Hs4 : fst s4 = fst s).
  { unfold _func_wrapper_unpack_args in Hu.
    destruct (_func_handle (fst s) (_par_val (fst s)) (snd s)).
    injection Hu as _ <-. reflexivity. }
  destruct (cutoffs_bounds _ _ _ _ _ _ HN Hpad Hlr) as (Hl1 & Hl2).
  destruct (cutoffs_bounds _ _ _ _ _ _ HN Hpad Hbt) as (Hb1 & Hb2).
  assert (Lx : List.length (Py.slice (gs_x_values gs) left right)
               = Z.to_nat (right - left))
    by (apply slice_length; [lia | rewrite Hx; unfold n; lia]).
  assert (Ly : List.length (Py.slice (gs_y_values gs) bottom top)
               = Z.to_nat (top - bottom))
    by (apply slice_length; [lia | rewrite Hy; unfold n; lia]).
  assert (Lg : List.length (Py.slice _grid left right)
               = Z.to_nat (right - left))
    by (apply slice_length; [lia | rewrite Hrows; unfold n; lia]).
  eexists _, _, _. split; [reflexivity |].
  split; [rewrite Lx; unfold n; lia |].
  split; [rewrite Ly; unfold n; lia |].
  split; [| split].
  - rewrite length_map.
    rewrite (proj1 (transpose_shape _ _)). rewrite Lg, Lx. reflexivity.
  - apply Forall_forall. intros row Hr.
    apply in_map_iff in Hr as (row0 & <- & Hr0). rewrite length_map.
    pose proof (proj2 (transpose_shape (List.length (Py.slice _grid left right))
        (Py.slice (NpReduce.transpose (List.length (hd [] _grid))
                     (Py.slice _grid left right)) bottom top))) as Hsh.
    rewrite Forall_forall in Hsh. rewrite (Hsh row0 Hr0).
    rewrite Ly. apply slice_length; [lia |].
    rewrite (proj1 (transpose_shape _ _)), Hcols. unfold n. lia.
  - exact Hs4.
Qed.

(** ** The beacon tracer from end to end *)

(** A read of the function value that returns leaves the value in the
    cache, and changes no parameter name, value or error. *)
Lemma function_value_read s s1 (v : Q) :
  function_value s = (Ok v, s1) ->
  _fval (fst s1) = Some v
  /\ _par_names (fst s1) = _par_names (fst s)
  /\ _par_val (fst s1) = _par_val (fst s)
  /\ _par_err (fst s1) = _par_err (fst s).
Proof.
  destruct s as [self w]. intros H.
  destruct (_fval self) as [v0 |] eqn:E.
  - rewrite (function_value_cached W _ _ _ E) in H.
    injection H as <- <-. repeat split. exact E.
  - rewrite (function_value_empty W _ _ E) in H. injection H as <- <-.
    repeat split.
Qed.

Lemma function_value_again s s1 s2 (v v' : Q) :
  function_value s = (Ok v, s1) ->
  function_value s1 = (Ok v', s2) ->
  v' = v /\ s2 = s1.
Proof.
  intros H1 H2. apply function_value_read in H1 as (Hf & _).
  destruct s1 as [self1 w1]. cbn [fst] in Hf.
  rewrite (function_value_cached W _ _ _ Hf) in H2.
  injection H2 as <- <-. split; reflexivity.
Qed.

(** The locals of the tracer when the walk starts: the start point is
    [(x, 0.0)] for the [x] that [brentq] returned for the function
    [z -> _contour_fun - cost] along the first parameter, with the second
    parameter held at its stored value. *)
Lemma beacon_setup_fields (p1 p2 : string) (sigma beacon_size : Q)
      (env : beacon_env) (st0 : beacon_walk_state) self w s' :
  _contour_beacon_setup lib p1 p2 sigma beacon_size (self, w)
  = (Ok (env, st0), s') ->
  exists (i0 i1 : nat) (m0 m1 e0 e1 fv : Q)
         (self1 : MinimizerScipyOptimize W) (w1 : W) (x : Q) (w2 : W),
    PyList.index p1 (_par_names self) = Some i0
    /\ PyList.index p2 (_par_names self) = Some i1
    /\ nth_error (_par_val self) i0 = Some m0
    /\ nth_error (_par_val self) i1 = Some m1
    /\ nth_error (_par_err self) i0 = Some e0
    /\ nth_error (_par_err self) i1 = Some e1
    /\ function_value (self, w) = (Ok fv, (self1, w1))
    /\ opt_brentq lib
         (fun z : Q =>
            as_callback self1
              (v <- _calc_fun_with_constraints lib
                      [eq_constraint i0 (m0 + e0 * z);
                       eq_constraint i1 m1] ;;
               ret (fv + sigma ^ 2 - v)))
         0 (2 * sigma) 1000 w1
       = (Ok x, w2)
    /\ _contour_fun env = fv + sigma ^ 2
    /\ _minimum env = (m0, m1)
    /\ _err env = (e0, e1)
    /\ _start_point env = (x, 0.0).
Proof.
  unfold _contour_beacon_setup. intros H.
  apply bind_ok_inv in H as (v1 & s1 & H1 & H).
  apply bind_ok_inv in H as (v2 & s2 & H2 & H).
  destruct (function_value_again _ _ _ _ _ H1 H2) as [-> ->].
  apply bind_ok_inv in H as (v3 & s3 & H3 & H).
  destruct (function_value_again _ _ _ _ _ H1 H3) as [-> ->].
  clear H2 H3.
  destruct (function_value_read _ _ _ H1) as (_ & N1 & V1 & E1).
  cbn [fst] in N1, V1, E1. destruct s1 as [self1 w1]. cbn [fst] in *.
  rewrite (bind_pure _ (index_of_run p1 (self1, w1))) in H. cbn [fst] in H.
  destruct (PyList.index p1 (_par_names self1)) as [i0 |] eqn:I0;
    [| discriminate H].
  rewrite (bind_pure _ (index_of_run p2 (self1, w1))) in H. cbn [fst] in H.
  destruct (PyList.index p2 (_par_names self1)) as [i1 |] eqn:I1;
    [| discriminate H].
  rewrite (bind_pure _ (get_self_run (self1, w1))) in H. cbn [fst] in H.
  rewrite (bind_pure _ (getitem_run (_par_val self1) i0 (self1, w1))) in H.
  destruct (nth_error (_par_val self1) i0) as [m0 |] eqn:M0;
    [| discriminate H].
  rewrite (bind_pure _ (getitem_run (_par_val self1) i1 (self1, w1))) in H.
  destruct (nth_error (_par_val self1) i1) as [m1 |] eqn:M1;
    [| discriminate H].
  rewrite (bind_pure _ (getitem_run (_par_err self1) i0 (self1, w1))) in H.
  destruct (nth_error (_par_err self1) i0) as [e0 |] eqn:Er0;
    [| discriminate H].
  rewrite (bind_pure _ (getitem_run (_par_err self1) i1 (self1, w1))) in H.
  destruct (nth_error (_par_err self1) i1) as [e1 |] eqn:Er1;
    [| discriminate H].
  cbv zeta in H.
  apply bind_ok_inv in H as (x & s4 & Hx & H).
  apply bind_ok_inv in H as (phi & s5 & _ & H).
  unfold ext in Hx. cbn [fst snd] in Hx.
  match type of Hx with
  | (let (_, _) := ?c in _) = _ => destruct c as [rx w2] eqn:Eb
  end.
  injection Hx as -> _.
  injection H as <- _ _.
  rewrite N1 in I0, I1. rewrite V1 in M0, M1. rewrite E1 in Er0, Er1.
  exists i0, i1, m0, m1, e0, e1, v1, self1, w1, x, w2.
  do 6 (split; [assumption |]).
  split; [exact H1 |].
  split; [exact Eb |].
  repeat split.
Qed.

Lemma beacon_walk_keeps_head (fuel : nat) (env : beacon_env)
      (st st' : beacon_walk_state) s s' (x0 : point) (rest : list point) :
  _contour_coords st = x0 :: rest ->
  beacon_walk lib fuel env st s = (Ok (Some st'), s') ->
  exists rest', _contour_coords st' = x0 :: rest'.
Proof.
  revert st s rest.
  induction fuel as [| fuel IH]; intros st s rest Hc H; [discriminate H |].
  simpl beacon_walk in H.
  apply bind_ok_inv in H as ([st1 go] & s1 & Hit & H).
  destruct (beacon_pass_keeps_head _ _ _ _ _ _ _ _ Hc Hit)
    as ((rest1 & Hc1) & _).
  cbn [fst snd] in H. destruct go.
  - apply (IH st1 s1 rest1 Hc1 H).
  - injection H as <- _. exists rest1. exact Hc1.
Qed.

(** X21.  A contour that the beacon tracer returns is never empty, and
    its first point is the start point of the walk in parameter
    coordinates.  The start is found by [brentq]: with [fv] the function
    value read at the beginning of the call, [brentq] was called on the
    function that sends [z] to [fv + sigma ** 2] minus the constrained
    cost with the first parameter pinned to its value plus [z] times its
    error and the second parameter pinned to its value, on the interval
    from 0 to [2 * sigma], and returned [x]; the first point of the
    contour is (value of the first parameter plus [x] times its error,
    value of the second parameter).  The names are looked up, and the
    values and errors read, in the object as it was before the call. *)
Theorem beacon_contour_starts_on_axis
        (fuel : nat) (p1 p2 : string) (sigma beacon_size : Q) self w
        (c : Contour) s' :
  _contour_beacon lib fuel p1 p2 sigma beacon_size (self, w)
  = (Ok (Some c), s') ->
  exists (i0 i1 : nat) (m0 m1 e0 e1 fv : Q)
         (self1 : MinimizerScipyOptimize W) (w1 : W) (x : Q) (w2 : W)
         (first : point) (rest : list point),
    PyList.index p1 (_par_names self) = Some i0
    /\ PyList.index p2 (_par_names self) = Some i1
    /\ nth_error (_par_val self) i0 = Some m0
    /\ nth_error (_par_val self) i1 = Some m1
    /\ nth_error (_par_err self) i0 = Some e0
    /\ nth_error (_par_err self) i1 = Some e1
    /\ function_value (self, w) = (Ok fv, (self1, w1))
    /\ opt_brentq lib
         (fun z : Q =>
            as_callback self1
              (v <- _calc_fun_with_constraints lib
                      [eq_constraint i0 (m0 + e0 * z);
                       eq_constraint i1 m1] ;;
               ret (fv + sigma ^ 2 - v)))
         0 (2 * sigma) 1000 w1
       = (Ok x, w2)
    /\ c = create_xy_contour lib (first :: rest) sigma
    /\ first = _transform_coordinates (m0, m1) (x, 0.0) (e0, e1)
    /\ fst first = m0 + x * e0
    /\ snd first == m1.
Proof.
  unfold _contour_beacon. intros H.
  apply bind_ok_inv in H as ([env st0] & s1 & Hs & H).
  apply bind_ok_inv in H as (r & s2 & Hw & H).
  destruct r as [st |]; [| discriminate H].
  apply bind_ok_inv in H as (self2 & s3 & _ & H).
  apply bind_ok_inv in H as (v & s4 & _ & H).
  injection H as <- _.
  destruct (beacon_setup_start _ _ lib _ _ _ _ _ _ _ _ Hs)
    as (_ & _ & Hc0 & _).
  destruct (beacon_setup_fields _ _ _ _ _ _ _ _ _ Hs)
    as (i0 & i1 & m0 & m1 & e0 & e1 & fv & self1 & w1 & x & w2
        & I0 & I1 & M0 & M1 & E0 & E1 & Hfv & Hb & _ & Hm & He & Hp).
  destruct (beacon_walk_keeps_head _ _ _ _ _ _ _ _ Hc0 Hw) as (rest & Hc).
  exists i0, i1, m0, m1, e0, e1, fv, self1, w1, x, w2.
  exists (_transform_coordinates (m0, m1) (x, 0.0) (e0, e1)).
  exists (_transform_contour (m0, m1) rest (e0, e1)).
  do 6 (split; [assumption |]).
  split; [exact Hfv |].
  split; [exact Hb |].
  split; [rewrite Hc, Hm, He, Hp; reflexivity |].
  split; [reflexivity |].
  unfold _transform_coordinates. cbn [fst snd]. split; [reflexivity | ring].
Qed.

(** ** What the beacon tracer leaves alone *)

Ltac frames_step :=
  lazymatch goal with
  | |- frames (bind _ _) => apply frames_bind; [| intros ?]
  | |- frames (ret _) => apply frames_ret
  | |- frames (raise _) => apply frames_raise
  | |- frames get_self => apply frames_get_self
  | |- frames (ext _) => apply frames_ext
  | |- frames (of_option _ _) => apply frames_of_option
  | |- frames (of_result _) => apply frames_of_result
  | |- frames (index_of _) => apply frames_index_of
  | |- frames (getitem _ _) => apply frames_getitem
  | |- frames (_calc_fun_with_constraints _ _) => apply frames_calc_fun
  | |- frames (_func_wrapper_unpack_args _) => apply frames_func_wrapper
  | |- frames (mapM _ _) => apply frames_mapM; intros ?
  | |- frames (match ?x with _ => _ end) => destruct x
  end.

Lemma frames_tangential_angle (coords : point) (ids : nat * nat) :
  frames (_calculate_tangential_angle lib coords ids).
Proof. unfold _calculate_tangential_angle. repeat frames_step. Qed.

Lemma frames_beacon_iteration (env : beacon_env) (st : beacon_walk_state) :
  frames (beacon_iteration lib env st).
Proof.
  unfold beacon_iteration, beacon_select, accept_or_backtrack.
  repeat first [frames_step | apply frames_tangential_angle].
Qed.

Lemma frames_beacon_walk (fuel : nat) (env : beacon_env)
      (st : beacon_walk_state) :
  frames (beacon_walk lib fuel env st).
Proof.
  revert st. induction fuel as [| fuel IH]; intros st; simpl.
  - apply frames_ret.
  - apply frames_bind; [apply frames_beacon_iteration | intros [st1 go]].
    cbn [fst snd]. destruct go; [apply IH | apply frames_ret].
Qed.

Ltac frames_rest :=
  lazymatch goal with
  | |- fst (snd (?c ?s)) = _ =>
      let F := fresh "F" in
      assert (F : frames c)
        by (repeat first [frames_step | apply frames_tangential_angle]);
      exact (F s)
  end.

Lemma beacon_setup_frame (p1 p2 : string) (sigma beacon_size : Q) self w :
  fst (snd (_contour_beacon_setup lib p1 p2 sigma beacon_size (self, w)))
  = match _fval self with
    | Some _ => self
    | None => set_fval (Some (fst (_func_handle self (_par_val self) w))) self
    end.
Proof.
  unfold _contour_beacon_setup.
  destruct (_fval self) as [v |] eqn:Ef.
  - do 3 rewrite (bind_ok _ (function_value_cached W self w v Ef)).
    cbv zeta. frames_rest.
  - rewrite (bind_ok _ (function_value_empty W self w Ef)).
    set (v1 := fst (_func_handle self (_par_val self) w)).
    set (w1 := snd (_func_handle self (_par_val self) w)).
    assert (E1 : _fval (set_fval (Some v1) self) = Some v1) by reflexivity.
    do 2 rewrite (bind_ok _ (function_value_cached W _ w1 v1 E1)).
    cbv zeta. frames_rest.
Qed.

(** X22.  Whatever the beacon tracer does, return a contour, use up
    its passes or raise, it changes nothing of the minimizer object but
    the function-value cache: an object whose cache is filled is left
    exactly as it was, and an object whose cache is empty has the cost at
    its parameter values stored there and is otherwise as it was. *)
Theorem beacon_tracer_frame
        (fuel : nat) (p1 p2 : string) (sigma beacon_size : Q) self w :
  fst (snd (_contour_beacon lib fuel p1 p2 sigma beacon_size (self, w)))
  = match _fval self with
    | Some _ => self
    | None => set_fval (Some (fst (_func_handle self (_par_val self) w))) self
    end.
Proof.
  rewrite <- (beacon_setup_frame p1 p2 sigma beacon_size self w).
  unfold _contour_beacon, bind at 1.
  destruct (_contour_beacon_setup lib p1 p2 sigma beacon_size (self, w))
    as [[[env st0] | e] s1]; [| reflexivity].
  cbn [fst snd].
  lazymatch goal with
  | |- fst (snd (?c ?s)) = _ =>
      assert (F : frames c);
      [ apply frames_bind; [apply frames_beacon_walk | intros [st |]];
        repeat frames_step
      | exact (F s) ]
  end.
Qed.

End RestFacts.

(** * The rest of the module on concrete minimizers *)

(** ** limit and unlimit *)

Lemma limit_sets_bound_witness :
  PyList.index "b" (_par_names Runs.unfitted) = Some 1%nat
  /\ exists bs',
       limit "b" [None; Some 1] (Runs.unfitted, 0%nat)
       = (Ok tt, (set_par_bounds (Some bs') Runs.unfitted, 0%nat))
       /\ nth_error bs' 1 = Some [None; Some 1]
       /\ nth_error bs' 0 = Some [None; None].
Proof.
  split; [reflexivity |].
  destruct (limit_sets_bound Doubles.W "b" [None; Some 1] Runs.unfitted
              0%nat 1%nat eq_refl eq_refl I)
    as (bs' & Hrun & _ & Hn & Ho).
  exists bs'. split; [exact Hrun | split; [exact Hn |]].
  rewrite (Ho 0%nat); [reflexivity | discriminate].
Defined.

Lemma limit_then_unlimit_witness :
  unlimit "b" (Runs.unfitted, 0%nat)
  = (Raise TypeError, (Runs.unfitted, 0%nat))
  /\ (_ <- limit "b" [None; Some 1] ;; unlimit "b") (Runs.unfitted, 0%nat)
     = (Ok tt,
        (set_par_bounds (Some [[None; None]; [None; None]]) Runs.unfitted,
         0%nat)).
Proof.
  destruct (limit_then_unlimit Doubles.W "b" [None; Some 1] Runs.unfitted
              0%nat 1%nat eq_refl eq_refl I)
    as (Hn & bs' & Hrun & _ & Hall).
  split; [exact (Hn eq_refl) |].
  rewrite (Hall eq_refl) in Hrun. exact Hrun.
Defined.

(** ** minimize *)

Lemma minimize_singular_hessian_witness :
  _fval Runs2.stale = Some 9
  /\ exists self',
       minimize Doubles.lib 6000 (Runs2.stale, 0%nat)
       = (Raise LinAlgError, (self', 17%nat))
       /\ _par_err self' = _par_err Runs2.stale
       /\ _par_cov_mat self' = None
       /\ function_value (self', 17%nat) = (Ok 9, (self', 17%nat)).
Proof.
  split; [reflexivity |].
  destruct (minimize_singular_hessian Doubles.W Doubles.Contour Doubles.lib
              6000 Runs2.stale 0%nat {| res_x := [3; 0]; res_fun := 9 |}
              1%nat 17%nat LinAlgError)
    as (self' & Hrun & _ & _ & He & Hc & _ & _ & Hf).
  - vm_compute. reflexivity.
  - right. exists [[2; 0]; [0; 0]]. split; vm_compute; reflexivity.
  - exists self'. split; [exact Hrun |].
    split; [exact He | split; [exact Hc | exact (Hf 9 eq_refl)]].
Defined.

(** On the unfitted paraboloid the solver returns the minimum 5 at
    [(0, 0)] after one evaluation, and that is what is read back. *)
Lemma minimize_then_read_witness :
  exists self' w',
    minimize Doubles.lib 6000 (Runs.unfitted, 0%nat) = (Ok tt, (self', w'))
    /\ opt_minimize Doubles.lib (_func_handle Runs.unfitted)
                    (_par_val Runs.unfitted) (_method Runs.unfitted)
                    (_par_bounds Runs.unfitted)
                    (fixed_constraints (_par_fixed Runs.unfitted)
                                       (_par_val Runs.unfitted))
                    (_tol Runs.unfitted) 6000 0%nat
       = (Ok {| res_x := [0; 0]; res_fun := 5 |}, 1%nat)
    /\ function_value (self', w') = (Ok 5, (self', w'))
    /\ _par_val self' = [0; 0]
    /\ _par_names self' = ["a"; "b"]%string.
Proof.
  assert (H : minimize Doubles.lib 6000 (Runs.unfitted, 0%nat)
              = (Ok tt,
                 (fst (snd (minimize Doubles.lib 6000 (Runs.unfitted, 0%nat))),
                  snd (snd (minimize Doubles.lib 6000
                                     (Runs.unfitted, 0%nat))))))
    by (apply run_eta; vm_compute; reflexivity).
  destruct (minimize_then_read Doubles.W Doubles.Contour Doubles.lib 6000
              Runs.unfitted 0%nat _ _ H)
    as ((r & w1 & Hs & Hf & _ & Hv) & Hn & _).
  assert (E : opt_minimize Doubles.lib (_func_handle Runs.unfitted)
                (_par_val Runs.unfitted) (_method Runs.unfitted)
                (_par_bounds Runs.unfitted)
                (fixed_constraints (_par_fixed Runs.unfitted)
                                   (_par_val Runs.unfitted))
                (_tol Runs.unfitted) 6000 0%nat
              = (Ok {| res_x := [0; 0]; res_fun := 5 |}, 1%nat))
    by (vm_compute; reflexivity).
  rewrite E in Hs. injection Hs as <- _.
  eexists. eexists.
  split; [exact H | split; [exact E |]].
  split; [exact Hf | split; [exact Hv | exact Hn]].
Defined.

(** ** contour *)

Lemma contour_rejects_unknown_options_witness :
  contour Doubles.lib Doubles.refine "a" "b" 1
          {| kw_algorithm := Some "beacon"%string;
             kw_initial_points := Some 1%Z;
             kw_iterations := None;
             kw_area_scale_factor := None;
             kw_other := [] |}
          (Runs.unfitted, 0%nat)
  = (Raise MinimizerScipyOptimizeException, (Runs.unfitted, 0%nat)).
Proof.
  apply contour_rejects_unknown_options.
  right. left. split; reflexivity.
Defined.

(** ** profile *)

(** Five bins over two errors around the value 0 of [a], with error 1:
    from -2 to 2. *)
Lemma profile_shape_witness :
  exists par y s',
    profile Doubles.lib "a" 5 2 false (Runs.unfitted, 0%nat)
    = (Ok (par, y), s')
    /\ List.length par = 5%nat
    /\ List.length y = 5%nat
    /\ nth 0 par 0 == -2
    /\ nth_error par 4 = Some (0 + 2 * 1).
Proof.
  eexists. eexists. eexists.
  assert (H : profile Doubles.lib "a" 5 2 false (Runs.unfitted, 0%nat)
              = (Ok (_, _), _))
    by (apply ok_eta; vm_compute; reflexivity).
  split; [exact H |].
  destruct (profile_shape Doubles.W Doubles.Contour Doubles.lib "a" 5 2
              false Runs.unfitted 0%nat _ _ _ H)
    as (i & e & m & Hi & He & Hm & Hp & Hy & Hs).
  split; [exact Hp | split; [exact Hy |]].
  injection Hi as <-. injection He as <-. injection Hm as <-.
  destruct (Hs (le_S _ _ (le_S _ _ (le_S _ _ (le_n 2)))))
    as (H0 & Hlast & _).
  split; [rewrite H0; reflexivity | exact Hlast].
Defined.

(** ** The heuristic grid *)

(** [initial_points = 1] and [iterations = 5]: stride 32 over 65 points,
    visiting 0, 32 and 64. *)
Lemma coarse_grid_stride_witness :
  exists gs s',
    _contour_heuristic_grid_setup "a" "b" 1 1 5 1.5 (Circle.minimizer, 0%nat)
    = (Ok gs, s')
    /\ gs_x_step gs = 32%Z
    /\ Py.range 0 (gs_target_points_per_axis gs) (gs_x_step gs)
       = Ok [0; 32; 64]%Z.
Proof.
  eexists. eexists.
  assert (H : _contour_heuristic_grid_setup "a" "b" 1 1 5 1.5
                (Circle.minimizer, 0%nat)
              = (Ok _, _))
    by (apply ok_eta; vm_compute; reflexivity).
  split; [exact H |].
  destruct (coarse_grid_stride Doubles.W "a" "b" 1 1 5 1.5 _ _ _ H)
    as (Hx & _ & visited & Hr & -> & _).
  split; [exact Hx | exact Hr].
Defined.

Lemma cutoffs_keep_rows_witness :
  cutoffs Runs2.dip 1 5 1 = Ok (0, 3)%Z
  /\ row_min Runs2.dip 2 = Ok 0
  /\ (0 <= 2 < 3)%Z.
Proof.
  assert (H : cutoffs Runs2.dip 1 5 1 = Ok (0, 3)%Z)
    by (vm_compute; reflexivity).
  split; [exact H |].
  assert (Hm : row_min Runs2.dip 2 = Ok 0) by (vm_compute; reflexivity).
  split; [exact Hm |].
  destruct (cutoffs_keep_rows Runs2.dip 1 5 1 0 3 ltac:(lia) ltac:(lia) H)
    as (_ & _ & Hk & _).
  destruct (Hk 2%Z 0 ltac:(lia) Hm ltac:(unfold Qle; simpl; lia))
    as [Hin Hlt].
  split; [apply Hin | apply Hlt; lia].
Defined.

(** The int factor 4 with five iterations: [3 / 4] is 0 in Python 2, so
    there is no padding, where the float 4.0 gives
    [int(0.75 * 2) = 1]. *)
Lemma heuristic_padding_zero_witness :
  0 < Py.value (Py.Int 4)
  /\ heuristic_padding (Py.Int 4) 5 = Ok 0%Z
  /\ heuristic_padding (Py.Float 4) 5 = Ok 1%Z.
Proof.
  split; [reflexivity |].
  split; [| vm_compute; reflexivity].
  destruct (heuristic_padding_zero (Py.Int 4) 5 eq_refl)
    as (p & Hp & _ & Hint & _).
  destruct (Hint 4%Z eq_refl) as [_ Hz].
  rewrite Hp. f_equal. apply Hz. lia.
Defined.

Lemma heuristic_grid_crop_shape_witness :
  exists contour s',
    heuristic_grid_crop Doubles.W Doubles.Contour Doubles.lib
                        Runs2.laid_out Runs2.dip 0 1 1 1 (Py.Float 1.5)
                        (Circle.minimizer, 0%nat)
    = (Ok contour, s')
    /\ exists _x_values _y_values grid,
         contour = Doubles.GridContour _x_values _y_values grid 1
         /\ (List.length _x_values < 5)%nat
         /\ (List.length _y_values < 5)%nat
         /\ List.length grid = List.length _x_values.
Proof.
  eexists. eexists.
  assert (H : heuristic_grid_crop Doubles.W Doubles.Contour Doubles.lib
                Runs2.laid_out Runs2.dip 0 1 1 1 (Py.Float 1.5)
                (Circle.minimizer, 0%nat)
              = (Ok _, _))
    by (apply ok_eta; vm_compute; reflexivity).
  split; [exact H |].
  destruct (heuristic_grid_crop_shape Doubles.W Doubles.Contour Doubles.lib
              Runs2.laid_out Runs2.dip 0 1 1 1 (Py.Float 1.5) _ _ _
              ltac:(vm_compute; discriminate) eq_refl eq_refl eq_refl
              eq_refl eq_refl H)
    as (xs & ys & g & Hc & Hx & Hy & Hg & _).
  exists xs, ys, g. repeat split; assumption.
Defined.

(** ** The beacon walk *)




Lemma beacon_backtrack_on_single_point_witness :
  _contour_coords Runs2.misaligned = [(1, 0)]
  /\ exists s1,
       beacon_iteration Doubles.lib Circle.env Runs2.misaligned
                        (Circle.minimizer, 0%nat)
       = (Raise IndexError, s1).
Proof.
  split; [reflexivity |].
  eexists.
  eapply (beacon_backtrack_on_single_point Doubles.W Doubles.Contour
            Doubles.lib Circle.env Runs2.misaligned).
  - apply ok_eta. vm_compute. reflexivity.
  - vm_compute. reflexivity.
  - vm_compute. reflexivity.
  - vm_compute. reflexivity.
  - reflexivity.
Defined.

Lemma beacon_contour_keeps_start_witness :
  _contour_coords (Circle.at_start 11) = [(1, 0)]
  /\ exists st' s',
       beacon_walk Doubles.lib 1 Circle.env (Circle.at_start 11)
                   (Circle.minimizer, 0%nat)
       = (Ok (Some st'), s')
       /\ (exists rest', _contour_coords st' = (1, 0) :: rest')
       /\ PyList.last_item (_contour_coords st') = Some (_coords st').
Proof.
  split; [reflexivity |].
  eexists. eexists.
  assert (H : beacon_walk Doubles.lib 1 Circle.env (Circle.at_start 11)
                          (Circle.minimizer, 0%nat)
              = (Ok (Some _), _))
    by (apply ok_eta; vm_compute; reflexivity).
  split; [exact H |].
  destruct (beacon_contour_keeps_start Doubles.W Doubles.Contour Doubles.lib
              1 Circle.env (Circle.at_start 11) _ _ _ (1, 0) [] eq_refl H)
    as (Hh & Hl & _).
  split; [exact Hh | exact Hl].
Defined.


(** The tracer on the paraboloid with errors of 128: [brentq] finds the
    start at 1/128 of an error, the walker goes back and forth across
    the contour, and the loop is left in the twelfth pass; the contour
    starts on [(1, 0)]. *)
Lemma beacon_contour_starts_on_axis_witness :
  exists c s' first rest,
    _contour_beacon Doubles.lib 20 "a" "b" 1 0.02 (Runs2.wide, 0%nat)
    = (Ok (Some c), s')
    /\ c = Doubles.XYContour (first :: rest) 1
    /\ Qred (fst first) = 1
    /\ snd first == 0
    /\ List.length rest = 12%nat.
Proof.
  eexists. eexists.
  assert (H : _contour_beacon Doubles.lib 20 "a" "b" 1 0.02
                              (Runs2.wide, 0%nat)
              = (Ok (Some _), _))
    by (apply ok_eta; vm_compute; reflexivity).
  destruct (beacon_contour_starts_on_axis Doubles.W Doubles.Contour
              Doubles.lib 20 "a" "b" 1 0.02 Runs2.wide 0%nat _ _ H)
    as (i0 & i1 & m0 & m1 & e0 & e1 & fv & self1 & w1 & x & w2 & first
        & rest & I0 & I1 & M0 & M1 & E0 & E1 & _ & _ & Hc & _ & _ & Hy).
  exists first, rest. split; [exact H |].
  injection I1 as <-. injection M1 as <-.
  split; [exact Hc |].
  vm_compute in Hc. injection Hc as Hf Hr.
  split; [rewrite <- Hf; reflexivity |].
  split; [exact Hy |].
  rewrite <- Hr. reflexivity.
Defined.
